(** * astronomer-cosmos: the dbt graph loader and its cache

    A shallow embedding of [cosmos/cache.py] and [cosmos/dbt/graph.py]:
    the fingerprint of a dbt project, the dbt ls cache kept in Airflow
    Variables, the sweep of unused cache entries, the partial-parse patch,
    and the loading strategies of [DbtGraph] with the [has_test]
    propagation that ends every load. *)

From Stdlib Require Import ZArith NArith QArith List Lia Bool String Ascii.
From Stdlib.Strings Require Import Byte.
From stdpp Require Import base list sorting.

Import ListNotations.
Local Open Scope N_scope.

(** ** Python values *)

Module Py.

(** A Python [str] is a sequence of code points, a [bytes] value a
    sequence of octets. *)
Definition str := list N.
Definition bytes := list byte.

(** A literal of the source, as the [str] it denotes. *)
Definition lit (s : string) : str :=
  map N_of_ascii (list_ascii_of_string s).

Definition str_eqb (a b : str) : bool := bool_decide (a = b).

(** [a.startswith(p)]. *)
Fixpoint startswith (a p : str) : bool :=
  match p, a with
  | [], _ => true
  | c :: p', d :: a' => (c =? d) && startswith a' p'
  | _ :: _, [] => false
  end.

(** [sep.join(parts)] for the empty separator. *)
Definition join_empty (parts : list str) : str := concat parts.

(** The octet of a number, reduced modulo 256. *)
Definition byte_of (n : N) : byte :=
  match Byte.of_N (n mod 256) with
  | Some b => b
  | None => x00
  end.

(** The exceptions the modelled code raises or lets through. *)
Inductive exn :=
| KeyError
| TypeError
| AttributeError
| ValueError
| JSONDecodeError
| FileNotFoundError
| UnicodeError
| BinasciiError
| ZlibError
| CosmosLoadDbtException.

(** The outcome of a call: a value, or a raised exception. *)
Inductive result (A : Type) :=
| Ok (a : A)
| Raise (e : exn).
Arguments Ok {A} a.
Arguments Raise {A} e.

Definition bind {A B} (r : result A) (k : A -> result B) : result B :=
  match r with
  | Ok a => k a
  | Raise e => Raise e
  end.

Definition of_option {A} (e : exn) (o : option A) : result A :=
  match o with
  | Some a => Ok a
  | None => Raise e
  end.

(** ** Dictionaries

    A [dict] keeps its keys in insertion order; assigning to a key that
    is present replaces its value in place. *)
Section dict.
Context {V : Type}.

Definition dict := list (str * V).

Fixpoint dict_get (d : dict) (k : str) : option V :=
  match d with
  | [] => None
  | (k', v) :: d' => if str_eqb k' k then Some v else dict_get d' k
  end.

Definition dict_mem (d : dict) (k : str) : bool :=
  match dict_get d k with
  | Some _ => true
  | None => false
  end.

Fixpoint dict_set (d : dict) (k : str) (v : V) : dict :=
  match d with
  | [] => [(k, v)]
  | (k', v') :: d' =>
      if str_eqb k' k then (k', v) :: d' else (k', v') :: dict_set d' k v
  end.

Fixpoint dict_del (d : dict) (k : str) : dict :=
  match d with
  | [] => []
  | (k', v') :: d' =>
      if str_eqb k' k then dict_del d' k else (k', v') :: dict_del d' k
  end.

(** [{**d, **e}] and [d.update(e)]. *)
Definition dict_update (d e : dict) : dict :=
  fold_left (fun acc kv => dict_set acc (fst kv) (snd kv)) e d.

Definition keys (d : dict) : list str := map fst d.
Definition values (d : dict) : list V := map snd d.
End dict.
Arguments dict V : clear implicits.

(** ** JSON documents, as [json.loads] returns them *)
#[warnings="-register-all"]
Inductive json :=
| JNull
| JBool (b : bool)
| JNum (n : Z)
| JStr (s : str)
| JArr (l : list json)
| JObj (d : list (str * json)).

(** Truth value of a JSON value used as a condition. *)
Definition truthy (j : json) : bool :=
  match j with
  | JNull => false
  | JBool b => b
  | JNum n => negb (n =? 0)%Z
  | JStr s => match s with [] => false | _ => true end
  | JArr l => match l with [] => false | _ => true end
  | JObj d => match d with [] => false | _ => true end
  end.

(** [j[k]]: [KeyError] when the key is missing, [TypeError] when [j] is
    not a mapping. *)
Definition subscript (j : json) (k : str) : result json :=
  match j with
  | JObj d => of_option KeyError (dict_get d k)
  | _ => Raise TypeError
  end.

(** [j.get(k, dflt)]: only a mapping has the method. *)
Definition get_default (j : json) (k : str) (dflt : json) : result json :=
  match j with
  | JObj d => Ok (match dict_get d k with Some v => v | None => dflt end)
  | _ => Raise AttributeError
  end.

End Py.
Export Py.

Notation "x <- r ;; k" := (Py.bind r (fun x => k))
  (at level 100, r at next level, right associativity).

(** ** MD5, the digest behind [hashlib.md5] (RFC 1321) *)

Module MD5.
Local Open Scope Z_scope.

Definition K : list Z :=
  [ 0xd76aa478; 0xe8c7b756; 0x242070db; 0xc1bdceee; 0xf57c0faf; 0x4787c62a; 0xa8304613; 0xfd469501;
    0x698098d8; 0x8b44f7af; 0xffff5bb1; 0x895cd7be; 0x6b901122; 0xfd987193; 0xa679438e; 0x49b40821;
    0xf61e2562; 0xc040b340; 0x265e5a51; 0xe9b6c7aa; 0xd62f105d; 0x02441453; 0xd8a1e681; 0xe7d3fbc8;
    0x21e1cde6; 0xc33707d6; 0xf4d50d87; 0x455a14ed; 0xa9e3e905; 0xfcefa3f8; 0x676f02d9; 0x8d2a4c8a;
    0xfffa3942; 0x8771f681; 0x6d9d6122; 0xfde5380c; 0xa4beea44; 0x4bdecfa9; 0xf6bb4b60; 0xbebfbc70;
    0x289b7ec6; 0xeaa127fa; 0xd4ef3085; 0x04881d05; 0xd9d4d039; 0xe6db99e5; 0x1fa27cf8; 0xc4ac5665;
    0xf4292244; 0x432aff97; 0xab9423a7; 0xfc93a039; 0x655b59c3; 0x8f0ccc92; 0xffeff47d; 0x85845dd1;
    0x6fa87e4f; 0xfe2ce6e0; 0xa3014314; 0x4e0811a1; 0xf7537e82; 0xbd3af235; 0x2ad7d2bb; 0xeb86d391 ].

Definition shifts : list Z :=
  [ 7; 12; 17; 22; 7; 12; 17; 22; 7; 12; 17; 22; 7; 12; 17; 22;
    5; 9; 14; 20; 5; 9; 14; 20; 5; 9; 14; 20; 5; 9; 14; 20;
    4; 11; 16; 23; 4; 11; 16; 23; 4; 11; 16; 23; 4; 11; 16; 23;
    6; 10; 15; 21; 6; 10; 15; 21; 6; 10; 15; 21; 6; 10; 15; 21 ].

Definition w32 (x : Z) : Z := x mod 2 ^ 32.
Definition not32 (x : Z) : Z := Z.lxor x 0xffffffff.
Definition rotl (x c : Z) : Z :=
  Z.lor (w32 (Z.shiftl x c)) (Z.shiftr x (32 - c)).

Definition byte_Z (b : byte) : Z := Z.of_N (Byte.to_N b).

(** Little-endian words of a block. *)
Fixpoint words (bs : list byte) : list Z :=
  match bs with
  | b0 :: b1 :: b2 :: b3 :: r =>
      (byte_Z b0 + 2 ^ 8 * byte_Z b1 + 2 ^ 16 * byte_Z b2 + 2 ^ 24 * byte_Z b3)
        :: words r
  | _ => []
  end.

Definition le_bytes (n : nat) (x : Z) : list byte :=
  map (fun i => byte_of (Z.to_N (Z.shiftr x (8 * Z.of_nat i) mod 256))) (seq 0 n).

(** The message, one [0x80], zeros up to 56 modulo 64, the bit length. *)
Definition pad (msg : list byte) : list byte :=
  let len := Z.of_nat (length msg) in
  msg ++ [x80] ++ repeat x00 (Z.to_nat ((55 - len) mod 64))
      ++ le_bytes 8 ((8 * len) mod 2 ^ 64).

Definition state : Type := Z * Z * Z * Z.

Definition round (M : list Z) (st : state) (i : nat) : state :=
  let '(a, b, c, d) := st in
  let iz := Z.of_nat i in
  let '(f, g) :=
    if iz <? 16 then (Z.lor (Z.land b c) (Z.land (not32 b) d), iz)
    else if iz <? 32 then (Z.lor (Z.land d b) (Z.land (not32 d) c), (5 * iz + 1) mod 16)
    else if iz <? 48 then (Z.lxor (Z.lxor b c) d, (3 * iz + 5) mod 16)
    else (Z.lxor c (Z.lor b (not32 d)), (7 * iz) mod 16) in
  let f' := w32 (f + a + nth i K 0 + nth (Z.to_nat g) M 0) in
  (d, w32 (b + rotl f' (nth i shifts 0)), b, c).

Definition block (st : state) (M : list Z) : state :=
  let '(a0, b0, c0, d0) := st in
  let '(a, b, c, d) := fold_left (round M) (seq 0 64) st in
  (w32 (a0 + a), w32 (b0 + b), w32 (c0 + c), w32 (d0 + d)).

Fixpoint blocks (n : nat) (ws : list Z) (st : state) : state :=
  match n with
  | O => st
  | S n' => blocks n' (skipn 16 ws) (block st (firstn 16 ws))
  end.

Definition init : state := (0x67452301, 0xefcdab89, 0x98badcfe, 0x10325476).

Definition digest (msg : list byte) : list byte :=
  let p := pad msg in
  let '(a, b, c, d) := blocks (length p / 64) (words p) init in
  le_bytes 4 a ++ le_bytes 4 b ++ le_bytes 4 c ++ le_bytes 4 d.

Definition hex_digit (n : N) : N :=
  (if n <? 10 then 48 + n else 87 + n)%N.

Definition hex_byte (b : byte) : str :=
  let n := Byte.to_N b in [hex_digit (n / 16)%N; hex_digit (n mod 16)%N].

(** [hashlib.md5(msg).hexdigest()]. *)
Definition hexdigest (msg : list byte) : str :=
  flat_map hex_byte (digest msg).

End MD5.

(** ** Base64, as [base64.b64encode] and [base64.b64decode] compute it *)

Module Base64.

Definition alphabet : str :=
  lit "ABCDEFGHIJKLMNOPQRSTUVWXYZabcdefghijklmnopqrstuvwxyz0123456789+/".

(** The character of a sextet. *)
Definition b2a (n : N) : byte := byte_of (nth (N.to_nat n) alphabet 61).

(** The sextet of a character of the alphabet ([table_a2b_base64]). *)
Definition a2b (c : byte) : option N :=
  let n := Byte.to_N c in
  if (65 <=? n) && (n <=? 90) then Some (n - 65)
  else if (97 <=? n) && (n <=? 122) then Some (n - 71)
  else if (48 <=? n) && (n <=? 57) then Some (n + 4)
  else if n =? 43 then Some 62
  else if n =? 47 then Some 63
  else None.

Definition pad_char : byte := "="%byte.

Definition is_pad (c : byte) : bool := Byte.to_N c =? 61.

(** [b64encode]: three octets give four characters, a short last group
    is padded with [=]. *)
Fixpoint b64encode (bs : bytes) : bytes :=
  match bs with
  | [] => []
  | [b0] =>
      let n0 := Byte.to_N b0 in
      [b2a (n0 / 4); b2a (n0 mod 4 * 16); pad_char; pad_char]
  | [b0; b1] =>
      let n0 := Byte.to_N b0 in
      let n1 := Byte.to_N b1 in
      [b2a (n0 / 4); b2a (n0 mod 4 * 16 + n1 / 16); b2a (n1 mod 16 * 4); pad_char]
  | b0 :: b1 :: b2 :: rest =>
      let n0 := Byte.to_N b0 in
      let n1 := Byte.to_N b1 in
      let n2 := Byte.to_N b2 in
      b2a (n0 / 4) :: b2a (n0 mod 4 * 16 + n1 / 16)
        :: b2a (n1 mod 16 * 4 + n2 / 64) :: b2a (n2 mod 64) :: b64encode rest
  end.

Definition emit (b : byte) (r : result bytes) : result bytes :=
  out <- r ;; Ok (b :: out).

(** [binascii.a2b_base64] without [strict_mode], which [b64decode] calls:
    characters outside the alphabet are skipped, a complete pad sequence
    ends the input, a group left open is an error. *)
Fixpoint a2b_base64 (quad_pos : nat) (leftchar : N) (pads : nat)
    (data : bytes) : result bytes :=
  match data with
  | [] =>
      match quad_pos with
      | O => Ok []
      | _ => Raise BinasciiError
      end
  | c :: rest =>
      if is_pad c then
        if (2 <=? quad_pos)%nat && (4 <=? quad_pos + S pads)%nat then Ok []
        else a2b_base64 quad_pos leftchar
               (if (2 <=? quad_pos)%nat then S pads else pads) rest
      else
        match a2b c with
        | None => a2b_base64 quad_pos leftchar pads rest
        | Some v =>
            match quad_pos with
            | 0%nat => a2b_base64 1 v 0 rest
            | 1%nat =>
                emit (byte_of (N.lor (N.shiftl leftchar 2) (N.shiftr v 4)))
                  (a2b_base64 2 (N.land v 15) 0 rest)
            | 2%nat =>
                emit (byte_of (N.lor (N.shiftl leftchar 4) (N.shiftr v 2)))
                  (a2b_base64 3 (N.land v 3) 0 rest)
            | _ =>
                emit (byte_of (N.lor (N.shiftl leftchar 6) v))
                  (a2b_base64 0 0 0 rest)
            end
        end
  end.

Definition b64decode (data : bytes) : result bytes := a2b_base64 0 0 0 data.

(** *** Round trip *)

Definition below64 : list N := map N.of_nat (seq 0 64).

End Base64.

(** ** UTF-8, the codec of [str.encode()] and [bytes.decode()] *)

Module Utf8.

Definition is_surrogate (c : N) : bool := (0xD800 <=? c) && (c <? 0xE000).

(** A code point the codec accepts: a Unicode scalar value. *)
Definition scalar (c : N) : Prop := c < 0x110000 /\ is_surrogate c = false.

(** The octets of one code point; a surrogate or a value past U+10FFFF has
    none. *)
Definition encode_char (c : N) : option bytes :=
  if c <? 0x80 then Some [byte_of c]
  else if c <? 0x800 then
    Some [byte_of (0xC0 + c / 64); byte_of (0x80 + c mod 64)]
  else if c <? 0x10000 then
    if is_surrogate c then None
    else Some [byte_of (0xE0 + c / 4096); byte_of (0x80 + c / 64 mod 64);
               byte_of (0x80 + c mod 64)]
  else if c <? 0x110000 then
    Some [byte_of (0xF0 + c / 262144); byte_of (0x80 + c / 4096 mod 64);
          byte_of (0x80 + c / 64 mod 64); byte_of (0x80 + c mod 64)]
  else None.

(** [s.encode("utf-8")]. *)
Fixpoint encode (s : str) : result bytes :=
  match s with
  | [] => Ok []
  | c :: s' =>
      match encode_char c with
      | None => Raise UnicodeError
      | Some bs => rest <- encode s' ;; Ok (bs ++ rest)
      end
  end.

Definition is_cont (b : byte) : bool :=
  (0x80 <=? Byte.to_N b) && (Byte.to_N b <? 0xC0).

Definition payload (b : byte) : N := Byte.to_N b mod 64.

(** [bs.decode("utf-8")], strict: truncated, overlong and surrogate
    sequences and values past U+10FFFF are errors. *)
Fixpoint decode (bs : bytes) : result str :=
  match bs with
  | [] => Ok []
  | b0 :: r0 =>
      let n0 := Byte.to_N b0 in
      if n0 <? 0x80 then s <- decode r0 ;; Ok (n0 :: s)
      else if n0 <? 0xC2 then Raise UnicodeError
      else if n0 <? 0xE0 then
        match r0 with
        | b1 :: r1 =>
            if is_cont b1
            then s <- decode r1 ;; Ok (((n0 - 0xC0) * 64 + payload b1) :: s)
            else Raise UnicodeError
        | _ => Raise UnicodeError
        end
      else if n0 <? 0xF0 then
        match r0 with
        | b1 :: b2 :: r2 =>
            let c := (n0 - 0xE0) * 4096 + payload b1 * 64 + payload b2 in
            if is_cont b1 && is_cont b2 && (0x800 <=? c) && negb (is_surrogate c)
            then s <- decode r2 ;; Ok (c :: s)
            else Raise UnicodeError
        | _ => Raise UnicodeError
        end
      else if n0 <? 0xF5 then
        match r0 with
        | b1 :: b2 :: b3 :: r3 =>
            let c := (n0 - 0xF0) * 262144 + payload b1 * 4096
                     + payload b2 * 64 + payload b3 in
            if is_cont b1 && is_cont b2 && is_cont b3
               && (0x10000 <=? c) && (c <? 0x110000)
            then s <- decode r3 ;; Ok (c :: s)
            else Raise UnicodeError
        | _ => Raise UnicodeError
        end
      else Raise UnicodeError
  end.

End Utf8.

(** ** cosmos/cache.py *)

Module Cache.

Definition VAR_KEY_CACHE_PREFIX : str := lit "cosmos_cache__".

Definition create_cache_key (cache_identifier : str) : str :=
  VAR_KEY_CACHE_PREFIX ++ cache_identifier.

(** *** The order of [sorted] on [str]: code point by code point *)

Fixpoint str_leb (a b : str) : bool :=
  match a, b with
  | [], _ => true
  | _ :: _, [] => false
  | x :: a', y :: b' =>
      if x <? y then true else if y <? x then false else str_leb a' b'
  end.

Definition str_le (a b : str) : Prop := str_leb a b = true.

#[global] Instance str_le_dec a b : Decision (str_le a b).
Proof. unfold str_le. apply _. Defined.

(** [sorted(paths)]. *)
Definition sorted (paths : list str) : list str := merge_sort str_le paths.

(** *** The project directory

    What [os.walk] finds under a directory: every regular file with the
    path [os.path.join] builds for it, its bytes, and its modification
    time, in the order the file system enumerates them. *)
Record File := { path : str; content : bytes; st_mtime : Z }.

(** [open(filepath, "rb").read()] for a path of the walk. *)
Fixpoint read (files : list File) (filepath : str) : bytes :=
  match files with
  | [] => []
  | f :: files' => if str_eqb (path f) filepath then content f else read files' filepath
  end.

(** The hasher of [hashlib.md5()]: [update] appends to what was fed so
    far, [hexdigest] digests all of it. *)
Definition update (hasher buf : bytes) : bytes := hasher ++ buf.

Definition _create_folder_version_hash (walk : list File) : str :=
  let filepaths := map path walk in
  let hasher :=
    fold_left (fun hasher filepath => update hasher (read walk filepath))
      (sorted filepaths) [] in
  MD5.hexdigest hasher.

(** [cache_identifier] is only logged. *)
Definition _calculate_dbt_ls_cache_current_version
    (cache_identifier : str) (project_dir : list File) (cmd_args : list str)
    : result str :=
  let dbt_project_hash := _create_folder_version_hash project_dir in
  args_bytes <- Utf8.encode (join_empty cmd_args) ;;
  let hash_args := MD5.hexdigest args_bytes in
  Ok (dbt_project_hash ++ lit "," ++ hash_args).

Definition was_project_modified (previous_version current_version : str) : bool :=
  negb (str_eqb previous_version current_version).

(** The bytes the hasher is fed: the files' contents in the order of their
    sorted paths. *)
Definition hashed_bytes (walk : list File) : bytes :=
  concat (map (read walk) (sorted (map path walk))).

(** Two walks that hold the same files: the same path and bytes for each,
    whatever the order and the modification times. *)
Definition same_files (w1 w2 : list File) : Prop :=
  map (fun f => (path f, content f)) w1 ≡ₚ map (fun f => (path f, content f)) w2.

(** *** Patching the partial-parse artifact

    The file [partial_parse.msgpack] as [patch_partial_parse_content] meets
    it: absent, present with bytes [msgpack.unpack] rejects with a
    [ValueError], or present with the document it unpacks to.  [packb]
    followed by [unpack] gives the document back, so the file is kept as
    its document. *)
Inductive artifact :=
| Absent
| Unreadable
| Packed (data : json).

(** The loop over [data["nodes"].values()]: the nodes after the loop and
    whether any was rewritten.  A node without [root_path] is passed over,
    a [root_path] that does not exist on disk is replaced by the project
    path, and the first node whose [root_path] needs nothing ends the
    loop. *)
Fixpoint patch_nodes (path_exists : str -> bool) (project_path : str)
    (nodes : dict json) : result (bool * dict json) :=
  match nodes with
  | [] => Ok (false, [])
  | (unique_id, node) :: rest =>
      expected_filepath <- get_default node (lit "root_path") JNull ;;
      match expected_filepath with
      | JNull =>
          r <- patch_nodes path_exists project_path rest ;;
          Ok (fst r, (unique_id, node) :: snd r)
      | _ =>
          if truthy expected_filepath then
            match expected_filepath, node with
            | JStr p, JObj fields =>
                if negb (path_exists p) then
                  let node' := JObj (dict_set fields (lit "root_path") (JStr project_path)) in
                  r <- patch_nodes path_exists project_path rest ;;
                  Ok (true, (unique_id, node') :: snd r)
                else Ok (false, nodes)
            | _, _ => Raise TypeError
            end
          else Ok (false, nodes)
      end
  end.

(** [data["nodes"].values()]. *)
Definition nodes_of (data : json) : result (dict json) :=
  nodes <- subscript data (lit "nodes") ;;
  match nodes with
  | JObj d => Ok d
  | _ => Raise AttributeError
  end.

(** The flag returned and the file left on disk.  [path_exists] answers
    [Path(p).exists()]; the file is written only when the flag is set. *)
Definition patch_partial_parse_content (path_exists : str -> bool)
    (partial_parse_file : artifact) (project_path : str)
    : result (bool * artifact) :=
  match partial_parse_file with
  | Absent => Raise FileNotFoundError
  | Unreadable => Ok (false, Unreadable)
  | Packed data =>
      nodes <- nodes_of data ;;
      r <- patch_nodes path_exists project_path nodes ;;
      let should_patch_partial_parse_content := fst r in
      if should_patch_partial_parse_content then
        match data with
        | JObj top =>
            Ok (true, Packed (JObj (dict_set top (lit "nodes") (JObj (snd r)))))
        | _ => Raise TypeError
        end
      else Ok (false, partial_parse_file)
  end.

(** *** Sweeping unused dbt ls caches

    The rows of the two tables the sweep reads: Airflow Variables, whose
    text is JSON or not, and DAG runs. *)
Inductive var_text :=
| Json (value : json)
| NotJson.

Record Var := { key : str; val : var_text }.
Record DagRun := { dag_id : str; execution_date : Z }.
Record Session := { variables : list Var; dag_runs : list DagRun }.

(** [json.loads(var.val)]. *)
Definition json_loads (t : var_text) : result json :=
  match t with
  | Json v => Ok v
  | NotJson => Raise JSONDecodeError
  end.

(** [cosmos_dags_ids[dag_id].append(key)] on a [defaultdict(list)] whose
    keys are the [dag_id]s met so far, [None] included. *)
Fixpoint group_append (groups : list (option str * list str))
    (dag : option str) (k : str) : list (option str * list str) :=
  match groups with
  | [] => [(dag, [k])]
  | (dag', ks) :: rest =>
      if bool_decide (dag' = dag) then (dag', ks ++ [k]) :: rest
      else (dag', ks) :: group_append rest dag k
  end.

(** The [dag_id] of a stored cache, at the type [_get_airflow_metadata]
    writes it: a string or [None]. *)
Definition dag_id_of (var_value : json) : result (option str) :=
  d <- subscript var_value (lit "dag_id") ;;
  match d with
  | JStr s => Ok (Some s)
  | JNull => Ok None
  | _ => Raise TypeError
  end.

(** First loop: the Cosmos caches among the Variables, by [dag_id]. *)
Fixpoint collect (all_variables : list Var)
    (groups : list (option str * list str)) (total : Z)
    : result (list (option str * list str) * Z) :=
  match all_variables with
  | [] => Ok (groups, total)
  | var :: rest =>
      if startswith (key var) VAR_KEY_CACHE_PREFIX then
        var_value <- json_loads (val var) ;;
        dag <- dag_id_of var_value ;;
        collect rest (group_append groups dag (key var)) (total + 1)
      else collect rest groups total
  end.

(** [session.query(DagRun).filter(DagRun.dag_id == dag_id)
      .order_by(DagRun.execution_date.desc()).first()], as the execution
    date of the run found. *)
Definition last_dag_run (runs : list DagRun) (dag : option str) : option Z :=
  match dag with
  | None => None
  | Some d =>
      fold_left
        (fun best r =>
           if str_eqb (dag_id r) d then
             match best with
             | Some t => Some (Z.max t (execution_date r))
             | None => Some (execution_date r)
             end
           else best)
        runs None
  end.

(** [Variable.delete(key)]. *)
Definition Variable_delete (k : str) (vars : list Var) : list Var :=
  List.filter (fun v => negb (str_eqb (key v) k)) vars.

Definition unused (runs : list DagRun) (now max_age_last_usage : Z)
    (dag : option str) : bool :=
  match last_dag_run runs dag with
  | Some t => (t <? now - max_age_last_usage)%Z
  | None => false
  end.

(** [for var_key in vars_keys: Variable.delete(var_key); deleted += 1]. *)
Fixpoint delete_keys (vars_keys : list str) (vars : list Var) (deleted : Z)
    : list Var * Z :=
  match vars_keys with
  | [] => (vars, deleted)
  | var_key :: rest => delete_keys rest (Variable_delete var_key vars) (deleted + 1)
  end.

(** Second loop: the Variables left and the number deleted. *)
Fixpoint sweep (runs : list DagRun) (now max_age_last_usage : Z)
    (groups : list (option str * list str)) (vars : list Var)
    (deleted : Z) : list Var * Z :=
  match groups with
  | [] => (vars, deleted)
  | (dag, vars_keys) :: rest =>
      if unused runs now max_age_last_usage dag then
        let r := delete_keys vars_keys vars deleted in
        sweep runs now max_age_last_usage rest (fst r) (snd r)
      else sweep runs now max_age_last_usage rest vars deleted
  end.

(** [now] is the reading of [datetime.now(timezone.utc)], and times are
    instants on one axis. *)
Definition delete_unused_dbt_ls_cache (max_age_last_usage now : Z)
    (session : option Session) : result (Z * option Session) :=
  match session with
  | None => Ok (0%Z, None)
  | Some s =>
      r <- collect (variables s) [] 0 ;;
      let cosmos_dags_ids := fst r in
      let out := sweep (dag_runs s) now max_age_last_usage cosmos_dags_ids
                   (variables s) 0 in
      Ok (snd out, Some {| variables := fst out; dag_runs := dag_runs s |})
  end.

End Cache.

(** ** cosmos/dbt/graph.py *)

Module Graph.

(** Modelled from the spec: [cosmos.constants.DbtResourceType], which is not
    among the sources; the spec lists model, seed, snapshot, test, source
    and exposure and leaves the enumeration open. *)
Inductive DbtResourceType :=
| MODEL
| SEED
| SNAPSHOT
| TEST
| SOURCE
| EXPOSURE
| OTHER (value : str).

(** [DbtResourceType(value)]. *)
Definition DbtResourceType_of (value : str) : DbtResourceType :=
  if str_eqb value (lit "model") then MODEL
  else if str_eqb value (lit "seed") then SEED
  else if str_eqb value (lit "snapshot") then SNAPSHOT
  else if str_eqb value (lit "test") then TEST
  else if str_eqb value (lit "source") then SOURCE
  else if str_eqb value (lit "exposure") then EXPOSURE
  else OTHER value.

Inductive LoadMode :=
| AUTOMATIC
| CUSTOM
| DBT_LS
| DBT_LS_FILE
| DBT_LS_CACHE
| DBT_MANIFEST.

(** [load] tells [ExecutionMode.LOCAL] from every other mode. *)
Inductive ExecutionMode :=
| LOCAL
| REMOTE.

(** The dataclass [DbtNode].  Fields are held at the types it declares;
    [tags] and [config] stay the JSON values they were read as. *)
Record DbtNode := {
  unique_id : str;
  resource_type : DbtResourceType;
  depends_on : list str;
  file_path : str;
  tags : json;
  config : json;
  has_test : bool
}.

Definition is_test (node : DbtNode) : bool :=
  match resource_type node with
  | TEST => true
  | _ => false
  end.

(** *** Objects and the graph

    [DbtNode] instances and [dict]s are objects: a name or a dictionary
    entry holds the identity of one, and two names may hold the same.  The
    world keeps every object by identity, the Airflow Variables, and the
    attributes [nodes], [filtered_nodes] and [load_method] of the graph. *)
Record World := {
  objects : nat -> DbtNode;
  next_object : nat;
  dicts : nat -> dict nat;
  next_dict : nat;
  airflow_variables : list Cache.Var;
  nodes : nat;
  filtered_nodes : nat;
  load_method : LoadMode
}.

(** A computation: its outcome and the world it leaves, also when it
    raises. *)
Definition M (A : Type) : Type := World -> result A * World.

#[global] Instance M_ret : MRet M := fun A a w => (Ok a, w).

#[global] Instance M_bind : MBind M := fun A B f m w =>
  match m w with
  | (Ok a, w') => f a w'
  | (Raise e, w') => (Raise e, w')
  end.

Definition raise {A} (e : exn) : M A := fun w => (Raise e, w).

Definition lift {A} (r : result A) : M A := fun w => (r, w).

Definition read {A} (f : World -> A) : M A := fun w => (Ok (f w), w).

Definition modify (f : World -> World) : M unit := fun w => (Ok tt, f w).

(** [try: m  except <handled>: handler]. *)
Definition try_except {A} (m : M A) (handled : exn -> bool) (handler : M A) : M A :=
  fun w =>
    match m w with
    | (Raise e, w') => if handled e then handler w' else (Raise e, w')
    | done => done
    end.

Definition update {A} (f : nat -> A) (i : nat) (a : A) : nat -> A :=
  fun j => if (j =? i)%nat then a else f j.

(** A new [DbtNode] instance. *)
Definition new_object (node : DbtNode) : M nat := fun w =>
  (Ok (next_object w),
   {| objects := update (objects w) (next_object w) node;
      next_object := S (next_object w);
      dicts := dicts w; next_dict := next_dict w;
      airflow_variables := airflow_variables w;
      nodes := nodes w; filtered_nodes := filtered_nodes w;
      load_method := load_method w |}).

(** A new [dict] object. *)
Definition new_dict (d : dict nat) : M nat := fun w =>
  (Ok (next_dict w),
   {| objects := objects w; next_object := next_object w;
      dicts := update (dicts w) (next_dict w) d;
      next_dict := S (next_dict w);
      airflow_variables := airflow_variables w;
      nodes := nodes w; filtered_nodes := filtered_nodes w;
      load_method := load_method w |}).

(** [obj.has_test = True]. *)
Definition set_has_test (obj : nat) (w : World) : World :=
  let node := objects w obj in
  {| objects :=
       update (objects w) obj
         {| unique_id := unique_id node; resource_type := resource_type node;
            depends_on := depends_on node; file_path := file_path node;
            tags := tags node; config := config node; has_test := true |};
     next_object := next_object w;
     dicts := dicts w; next_dict := next_dict w;
     airflow_variables := airflow_variables w;
     nodes := nodes w; filtered_nodes := filtered_nodes w;
     load_method := load_method w |}.

(** [d[k] = obj] on the dictionary object [d]. *)
Definition dict_store (d : nat) (k : str) (obj : nat) (w : World) : World :=
  {| objects := objects w; next_object := next_object w;
     dicts := update (dicts w) d (dict_set (dicts w d) k obj);
     next_dict := next_dict w;
     airflow_variables := airflow_variables w;
     nodes := nodes w; filtered_nodes := filtered_nodes w;
     load_method := load_method w |}.

(** [self.load_method = mode]. *)
Definition set_load_method (mode : LoadMode) (w : World) : World :=
  {| objects := objects w; next_object := next_object w;
     dicts := dicts w; next_dict := next_dict w;
     airflow_variables := airflow_variables w;
     nodes := nodes w; filtered_nodes := filtered_nodes w;
     load_method := mode |}.

(** [self.nodes = d]. *)
Definition set_nodes (d : nat) (w : World) : World :=
  {| objects := objects w; next_object := next_object w;
     dicts := dicts w; next_dict := next_dict w;
     airflow_variables := airflow_variables w;
     nodes := d; filtered_nodes := filtered_nodes w;
     load_method := load_method w |}.

(** [self.filtered_nodes = d]. *)
Definition set_filtered_nodes (d : nat) (w : World) : World :=
  {| objects := objects w; next_object := next_object w;
     dicts := dicts w; next_dict := next_dict w;
     airflow_variables := airflow_variables w;
     nodes := nodes w; filtered_nodes := d;
     load_method := load_method w |}.

Definition set_airflow_variables (vars : list Cache.Var) (w : World) : World :=
  {| objects := objects w; next_object := next_object w;
     dicts := dicts w; next_dict := next_dict w;
     airflow_variables := vars;
     nodes := nodes w; filtered_nodes := filtered_nodes w;
     load_method := load_method w |}.

(** *** What a graph is built with, and what it asks of the outside

    A model of the legacy parser: [unique_id] is made of [type_value], the
    project name and the name the model is listed under. *)
Record LegacyModel := {
  type_value : str;
  config_selectors : list str;
  upstream_models : list str;
  model_path : str
}.

Record Env := {
  (** [settings.enable_cache], [settings.enable_cache_dbt_ls]. *)
  enable_cache : bool;
  enable_cache_dbt_ls : bool;
  (** [self.dbt_ls_cache_key], empty when no cache identifier was given,
      and [self.airflow_metadata]. *)
  dbt_ls_cache_key : str;
  airflow_metadata : dict json;
  (** Whether a [profile_config] was given. *)
  profile_config : bool;
  (** [ProjectConfig]: the name, the project path, and the manifest: none,
      a file that is not JSON, or the document. *)
  project_name : str;
  dbt_project_path : option str;
  manifest : option (option json);
  (** [RenderConfig]. *)
  select : list str;
  exclude : list str;
  selector : option str;
  render_project_path : option str;
  dbt_ls_file : option str;
  (** [ExecutionConfig.project_path]. *)
  execution_project_path : option str;
  (** The value of the cached property [dbt_ls_cache_key_args]. *)
  dbt_ls_cache_key_args : list str;
  (** [os.walk] under a directory. *)
  walk : str -> list Cache.File;
  (** [json.loads(line.strip())], [None] for a [JSONDecodeError]. *)
  parse_line : str -> option json;
  (** [zlib.compress] and [zlib.decompress]. *)
  zlib_compress : bytes -> bytes;
  zlib_decompress : bytes -> option bytes;
  (** [datetime.now(timezone.utc).isoformat()]. *)
  now_isoformat : str;
  (** Modelled from the spec: [cosmos.dbt.selector.select_nodes], which is
      not among the sources, a pure function from the nodes and the select
      and exclude expressions to a subset.  It is given the project
      directory, the entries of [nodes] and the two expressions, and
      answers with the mapping it was given ([None]) or with the keys of
      the entries a new mapping keeps. *)
  select_nodes :
    str -> list (str * DbtNode) -> list str -> list str -> result (option (list str));
  (** What [LegacyDbtProject] finds: its models, snapshots, seeds and
      tests, chained in that order, each under its name. *)
  legacy_project : result (list (str * LegacyModel));
  (** [validate_dbt_command], and the run of [dbt deps] and [dbt ls] in a
      temporary directory up to the standard output of [dbt ls]. *)
  validate_dbt_command : result unit;
  dbt_ls_stdout : result str;
  (** The copy of the partial-parse files back to the cache directory. *)
  update_partial_parse_cache : result unit
}.

(** *** Reading [dbt ls] output *)

Definition as_str (j : json) : result str :=
  match j with
  | JStr s => Ok s
  | _ => Raise TypeError
  end.

Fixpoint as_strs (l : list json) : result (list str) :=
  match l with
  | [] => Ok []
  | j :: l' => s <- as_str j ;; rest <- as_strs l' ;; Ok (s :: rest)
  end.

Definition as_str_list (j : json) : result (list str) :=
  match j with
  | JArr l => as_strs l
  | _ => Raise TypeError
  end.

(** [a / b] on paths: an absolute right operand stands alone. *)
Definition path_join (a b : str) : str :=
  if startswith b (lit "/") then b else a ++ lit "/" ++ b.

(** [s.split(sep)] for a separator of one character. *)
Fixpoint split_on (sep : N) (s : str) : list str :=
  match s with
  | [] => [[]]
  | c :: s' =>
      if c =? sep then [] :: split_on sep s'
      else
        match split_on sep s' with
        | part :: parts => (c :: part) :: parts
        | [] => [[c]]
        end
  end.

(** [node_dict.get("depends_on", {}).get("nodes", [])]. *)
Definition depends_on_nodes (node_dict : json) : result (list str) :=
  d <- get_default node_dict (lit "depends_on") (JObj []) ;;
  n <- get_default d (lit "nodes") (JArr []) ;;
  as_str_list n.

(** The [DbtNode] of one line of the listing. *)
Definition node_of_ls_line (project_path : str) (node_dict : json) : result DbtNode :=
  uid <- subscript node_dict (lit "unique_id") ;;
  uid <- as_str uid ;;
  rt <- subscript node_dict (lit "resource_type") ;;
  rt <- as_str rt ;;
  deps <- depends_on_nodes node_dict ;;
  ofp <- subscript node_dict (lit "original_file_path") ;;
  ofp <- as_str ofp ;;
  tgs <- get_default node_dict (lit "tags") (JArr []) ;;
  cfg <- get_default node_dict (lit "config") (JObj []) ;;
  Ok {| unique_id := uid; resource_type := DbtResourceType_of rt;
        depends_on := deps; file_path := path_join project_path ofp;
        tags := tgs; config := cfg; has_test := false |}.

Section with_env.
Variable E : Env.

(** The loop of [parse_dbt_ls_output]: a line that is not JSON is skipped,
    a later line replaces an earlier one with the same [unique_id]. *)
Fixpoint parse_lines (project_path : str) (lines : list str) (acc : dict nat)
    : M (dict nat) :=
  match lines with
  | [] => mret acc
  | line :: rest =>
      match parse_line E line with
      | None => parse_lines project_path rest acc
      | Some node_dict =>
          node ← lift (node_of_ls_line project_path node_dict);
          obj ← new_object node;
          parse_lines project_path rest (dict_set acc (unique_id node) obj)
      end
  end.

(** The dictionary object [parse_dbt_ls_output] returns. *)
Definition parse_dbt_ls_output (project_path : str) (ls_stdout : str) : M nat :=
  acc ← parse_lines project_path (split_on 10 ls_stdout) [];
  new_dict acc.

(** *** The dbt ls cache in an Airflow Variable *)

(** The text a Variable holds, if there is one of that key. *)
Fixpoint Variable_text (vars : list Cache.Var) (k : str) : option Cache.var_text :=
  match vars with
  | [] => None
  | v :: vars' =>
      if str_eqb (Cache.key v) k then Some (Cache.val v) else Variable_text vars' k
  end.

(** [Variable.get(key, deserialize_json=True)]. *)
Definition Variable_get (vars : list Cache.Var) (k : str) : result json :=
  match Variable_text vars k with
  | None => Raise KeyError
  | Some text => Cache.json_loads text
  end.

(** [Variable.set(key, value, serialize_json=True)]. *)
Fixpoint Variable_set (vars : list Cache.Var) (k : str) (value : json)
    : list Cache.Var :=
  match vars with
  | [] => [ {| Cache.key := k; Cache.val := Cache.Json value |} ]
  | v :: vars' =>
      if str_eqb (Cache.key v) k
      then {| Cache.key := k; Cache.val := Cache.Json value |} :: vars'
      else v :: Variable_set vars' k value
  end.

(** The cached property [project_path]. *)
Definition project_path : result str :=
  match render_project_path E, dbt_project_path E, execution_project_path E with
  | Some p, _, _ => Ok p
  | None, Some p, _ => Ok p
  | None, None, Some p => Ok p
  | None, None, None => Raise CosmosLoadDbtException
  end.

Definition current_version : result str :=
  p <- project_path ;;
  Cache._calculate_dbt_ls_cache_current_version (dbt_ls_cache_key E)
    (walk E p) (dbt_ls_cache_key_args E).

Definition save_dbt_ls_cache (dbt_ls_output : str) : M unit :=
  utf8 ← lift (Utf8.encode dbt_ls_output);
  let compressed_data := zlib_compress E utf8 in
  let encoded_data := Base64.b64encode compressed_data in
  dbt_ls_compressed ← lift (Utf8.decode encoded_data);
  version ← lift current_version;
  let cache_dict :=
    dict_update
      [ (lit "version", JStr version);
        (lit "dbt_ls_compressed", JStr dbt_ls_compressed);
        (lit "last_modified", JStr (now_isoformat E)) ]
      (airflow_metadata E) in
  modify (fun w =>
    set_airflow_variables
      (Variable_set (airflow_variables w) (dbt_ls_cache_key E) (JObj cache_dict)) w).

(** The [else] branch of [get_dbt_ls_cache]: the payload is taken out of
    the record, decoded, decompressed and put back as text. *)
Definition decompress_record (cache_dict : json) : result (dict json) :=
  match cache_dict with
  | JObj d =>
      let rest := dict_del d (lit "dbt_ls_compressed") in
      match dict_get d (lit "dbt_ls_compressed") with
      | None => Ok rest
      | Some dbt_ls_compressed =>
          if truthy dbt_ls_compressed then
            match dbt_ls_compressed with
            | JStr text =>
                ascii <- Utf8.encode text ;;
                encoded_data <- Base64.b64decode ascii ;;
                raw <- of_option ZlibError (zlib_decompress E encoded_data) ;;
                dbt_ls <- Utf8.decode raw ;;
                Ok (dict_set rest (lit "dbt_ls") (JStr dbt_ls))
            | _ => Raise AttributeError
            end
          else Ok rest
      end
  | JArr _ => Raise TypeError
  | _ => Raise AttributeError
  end.

Definition get_dbt_ls_cache (vars : list Cache.Var) : result (dict json) :=
  match Variable_get vars (dbt_ls_cache_key E) with
  | Raise JSONDecodeError => Ok []
  | Raise KeyError => Ok []
  | Raise e => Raise e
  | Ok cache_dict => decompress_record cache_dict
  end.

Definition should_use_dbt_ls_cache : bool :=
  enable_cache E && enable_cache_dbt_ls E
  && match dbt_ls_cache_key E with [] => false | _ => true end.

(** [cache.was_project_modified(cache_version, current_version)] on what
    [cache_dict.get("version")] gave: the call is memoised, so a list or a
    mapping cannot be its argument, and a value that is not a string
    differs from every version. *)
Definition version_modified (cache_version : option json) (current : str)
    : result bool :=
  match cache_version with
  | Some (JStr previous) => Ok (Cache.was_project_modified previous current)
  | Some (JArr _) | Some (JObj _) => Raise TypeError
  | _ => Ok true
  end.

Definition load_via_dbt_ls_cache : M bool :=
  if should_use_dbt_ls_cache then
    project_path ← lift project_path;
    vars ← read airflow_variables;
    cache_dict ← lift (get_dbt_ls_cache vars);
    match cache_dict with
    | [] => mret false
    | _ =>
        let cache_version := dict_get cache_dict (lit "version") in
        let dbt_ls_cache := dict_get cache_dict (lit "dbt_ls") in
        current ← lift current_version;
        let cached := match dbt_ls_cache with Some j => truthy j | None => false end in
        if cached then
          modified ← lift (version_modified cache_version current);
          if negb modified then
            (* the log line takes [len(dbt_ls_cache)] *)
            lift (match dbt_ls_cache with
                  | Some (JStr _) | Some (JArr _) | Some (JObj _) => Ok tt
                  | _ => Raise TypeError
                  end);;
            modify (set_load_method DBT_LS_CACHE);;
            ls_stdout ← lift (match dbt_ls_cache with
                              | Some (JStr s) => Ok s
                              | _ => Raise AttributeError
                              end);
            d ← parse_dbt_ls_output project_path ls_stdout;
            modify (set_nodes d);;
            modify (set_filtered_nodes d);;
            mret true
          else mret false
        else mret false
    end
  else mret false.

(** [run_dbt_ls]: the listing is stored before it is parsed. *)
Definition run_dbt_ls (project_path : str) : M nat :=
  stdout ← lift (dbt_ls_stdout E);
  (if should_use_dbt_ls_cache then save_dbt_ls_cache stdout else mret tt);;
  parse_dbt_ls_output project_path stdout.

Definition load_via_dbt_ls_without_cache : M unit :=
  modify (set_load_method DBT_LS);;
  lift (validate_dbt_command E);;
  project_path ← lift project_path;
  (if profile_config E then mret tt else raise CosmosLoadDbtException);;
  d ← run_dbt_ls project_path;
  modify (set_nodes d);;
  modify (set_filtered_nodes d);;
  lift (update_partial_parse_cache E).

Definition load_via_dbt_ls : M unit :=
  hit ← load_via_dbt_ls_cache;
  if hit : bool then mret tt else load_via_dbt_ls_without_cache.

Definition load_via_dbt_ls_file : M unit :=
  modify (set_load_method DBT_LS_FILE);;
  match dbt_ls_file E with
  | None => raise CosmosLoadDbtException
  | Some dbt_ls_output =>
      match render_project_path E with
      | None => raise CosmosLoadDbtException
      | Some project_path =>
          d ← parse_dbt_ls_output project_path dbt_ls_output;
          modify (set_nodes d);;
          modify (set_filtered_nodes d)
      end
  end.

(** [self.filtered_nodes = select_nodes(project_dir, nodes, select, exclude)]
    for the dictionary object [d] just bound to [self.nodes]. *)
Definition select_into_filtered_nodes (project_dir : str) (d : nat) : M unit :=
  w ← read id;
  let entries := map (fun kv => (fst kv, objects w (snd kv))) (dicts w d) in
  chosen ← lift (select_nodes E project_dir entries (select E) (exclude E));
  match chosen with
  | None => modify (set_filtered_nodes d)
  | Some kept =>
      f ← new_dict (List.filter (fun kv => bool_decide (fst kv ∈ kept)) (dicts w d));
      modify (set_filtered_nodes f)
  end.

(** [s.replace(old, new)] for a non-empty [old]. *)
Fixpoint replace_fuel (fuel : nat) (s old new : str) : str :=
  match fuel with
  | O => s
  | S fuel' =>
      match s with
      | [] => []
      | c :: s' =>
          if startswith s old
          then new ++ replace_fuel fuel' (skipn (length old) s) old new
          else c :: replace_fuel fuel' s' old new
      end
  end.

Definition replace (s old new : str) : str :=
  match old with
  | [] => s
  | _ => replace_fuel (length s) s old new
  end.

(** [{item.split(":")[0]: item.split(":")[-1] for item in config_selectors}]. *)
Definition config_of_selectors (config_selectors : list str) : dict json :=
  fold_left
    (fun acc item =>
       let parts := split_on 58 item in
       dict_set acc (hd [] parts) (JStr (List.last parts [])))
    config_selectors [].

Definition node_of_legacy_model (render_path execution_path : str)
    (model_name : str) (model : LegacyModel) : DbtNode :=
  {| unique_id := type_value model ++ lit "." ++ project_name E ++ lit "." ++ model_name;
     resource_type := DbtResourceType_of (type_value model);
     depends_on := upstream_models model;
     file_path := replace (model_path model) render_path execution_path;
     tags := JArr [];
     config := JObj (config_of_selectors (config_selectors model));
     has_test := false |}.

(** The loop of [load_via_custom_parser]: nodes go under the name of
    their model. *)
Fixpoint custom_nodes (render_path execution_path : str)
    (models : list (str * LegacyModel)) (acc : dict nat) : M (dict nat) :=
  match models with
  | [] => mret acc
  | (model_name, model) :: rest =>
      obj ← new_object (node_of_legacy_model render_path execution_path model_name model);
      custom_nodes render_path execution_path rest (dict_set acc model_name obj)
  end.

Definition load_via_custom_parser : M unit :=
  modify (set_load_method CUSTOM);;
  match selector E with
  | Some _ => raise CosmosLoadDbtException
  | None =>
      match render_project_path E, execution_project_path E with
      | Some render_path, Some execution_path =>
          models ← lift (legacy_project E);
          acc ← custom_nodes render_path execution_path models [];
          d ← new_dict acc;
          modify (set_nodes d);;
          select_into_filtered_nodes execution_path d
      | _, _ => raise CosmosLoadDbtException
      end
  end.

(** [manifest.get(section, {})], which has to be a mapping to be
    unpacked. *)
Definition manifest_section (manifest : json) (section : string) : result (dict json) :=
  s <- get_default manifest (lit section) (JObj []) ;;
  match s with
  | JObj d => Ok d
  | _ => Raise TypeError
  end.

(** [{**nodes, **sources, **exposures}]. *)
Definition manifest_resources (manifest : json) : result (dict json) :=
  ns <- manifest_section manifest "nodes" ;;
  ss <- manifest_section manifest "sources" ;;
  es <- manifest_section manifest "exposures" ;;
  Ok (dict_update (dict_update (dict_update [] ns) ss) es).

(** The [DbtNode] of one entry of the manifest. *)
Definition node_of_manifest_entry (execution_path : str) (uid : str)
    (node_dict : json) : result DbtNode :=
  rt <- subscript node_dict (lit "resource_type") ;;
  rt <- as_str rt ;;
  deps <- depends_on_nodes node_dict ;;
  ofp <- subscript node_dict (lit "original_file_path") ;;
  ofp <- as_str ofp ;;
  tgs <- subscript node_dict (lit "tags") ;;
  cfg <- subscript node_dict (lit "config") ;;
  Ok {| unique_id := uid; resource_type := DbtResourceType_of rt;
        depends_on := deps; file_path := path_join execution_path ofp;
        tags := tgs; config := cfg; has_test := false |}.

Fixpoint manifest_nodes (execution_path : str) (resources : dict json)
    (acc : dict nat) : M (dict nat) :=
  match resources with
  | [] => mret acc
  | (uid, node_dict) :: rest =>
      node ← lift (node_of_manifest_entry execution_path uid node_dict);
      obj ← new_object node;
      manifest_nodes execution_path rest (dict_set acc (unique_id node) obj)
  end.

Definition load_from_dbt_manifest : M unit :=
  modify (set_load_method DBT_MANIFEST);;
  match selector E with
  | Some _ => raise CosmosLoadDbtException
  | None =>
      match manifest E with
      | None => raise CosmosLoadDbtException
      | Some document =>
          match execution_project_path E with
          | None => raise CosmosLoadDbtException
          | Some execution_path =>
              manifest ← lift (of_option JSONDecodeError document);
              resources ← lift (manifest_resources manifest);
              acc ← manifest_nodes execution_path resources [];
              d ← new_dict acc;
              modify (set_nodes d);;
              select_into_filtered_nodes execution_path d
          end
      end
  end.

(** *** The propagation of [has_test] *)

(** The inner loop, for the test node [node]. *)
Fixpoint mark_dependencies (node : nat) (node_ids : list str) (w : World) : World :=
  match node_ids with
  | [] => w
  | node_id :: rest =>
      match dict_get (dicts w (filtered_nodes w)) node_id with
      | Some target =>
          let w1 := set_has_test target w in
          let w2 := dict_store (filtered_nodes w1) (unique_id (objects w1 node)) node w1 in
          mark_dependencies node rest w2
      | None => mark_dependencies node rest w
      end
  end.

(** The outer loop, over the entries [list(self.nodes.items())] held when
    it started. *)
Fixpoint visit_nodes (items : list (str * nat)) (w : World) : World :=
  match items with
  | [] => w
  | (_, node) :: rest =>
      if is_test (objects w node)
      then visit_nodes rest (mark_dependencies node (depends_on (objects w node)) w)
      else visit_nodes rest w
  end.

Definition update_node_dependency : M unit :=
  modify (fun w => visit_nodes (dicts w (nodes w)) w).

(** *** [load] *)

Definition is_manifest_available : bool :=
  match manifest E with
  | Some _ => true
  | None => false
  end.

Definition is_FileNotFoundError (e : exn) : bool :=
  match e with
  | FileNotFoundError => true
  | _ => false
  end.

(** The strategy [load] runs for a method. *)
Definition load_strategy (method : LoadMode) (execution_mode : ExecutionMode) : M unit :=
  match method with
  | AUTOMATIC =>
      if is_manifest_available then load_from_dbt_manifest
      else
        match execution_mode with
        | LOCAL =>
            if profile_config E
            then try_except load_via_dbt_ls is_FileNotFoundError load_via_custom_parser
            else load_via_custom_parser
        | REMOTE => load_via_custom_parser
        end
  | CUSTOM => load_via_custom_parser
  | DBT_LS => load_via_dbt_ls
  | DBT_LS_FILE => load_via_dbt_ls_file
  | DBT_LS_CACHE => load_via_dbt_ls_cache;; mret tt
  | DBT_MANIFEST => load_from_dbt_manifest
  end.

Definition load (method : LoadMode) (execution_mode : ExecutionMode) : M unit :=
  load_strategy method execution_mode;;
  update_node_dependency.

End with_env.

(** *** Vocabulary of the properties *)

(** The entries of [self.nodes] and of [self.filtered_nodes]. *)
Definition node_entries (w : World) : dict nat := dicts w (nodes w).
Definition filtered_entries (w : World) : dict nat := dicts w (filtered_nodes w).

(** What a node is, apart from its [has_test] flag, which may have been
    raised. *)
Definition data_le (n n' : DbtNode) : Prop :=
  unique_id n' = unique_id n /\
  resource_type n' = resource_type n /\
  depends_on n' = depends_on n /\
  file_path n' = file_path n /\
  tags n' = tags n /\
  config n' = config n /\
  (has_test n = true -> has_test n' = true).

(** No test node names a test node among its dependencies. *)
Definition tests_apart (w : World) : Prop :=
  forall k r k' r',
    In (k, r) (node_entries w) -> In (k', r') (node_entries w) ->
    is_test (objects w r) = true -> is_test (objects w r') = true ->
    ~ In (unique_id (objects w r')) (depends_on (objects w r)).

(** The keys of [filtered_nodes] are keys of [nodes], and [nodes] has a
    key for the [unique_id] of each of its test nodes. *)
Definition keyed (w : World) : Prop :=
  (forall k, In k (keys (filtered_entries w)) -> In k (keys (node_entries w))) /\
  (forall k r, In (k, r) (node_entries w) -> is_test (objects w r) = true ->
     In (unique_id (objects w r)) (keys (node_entries w))).

(** A mapping under construction: its keys are distinct, and each entry
    holds an allocated node under that node's [unique_id]. *)
Definition well_keyed (acc : dict nat) (w : World) : Prop :=
  NoDup (keys acc) /\
  forall k r, In (k, r) acc -> unique_id (objects w r) = k /\ (r < next_object w)%nat.

(** Two worlds with the same graph attributes and dictionaries, the second
    with the objects of the first and maybe more. *)
Definition extends (w w' : World) : Prop :=
  nodes w' = nodes w /\ filtered_nodes w' = filtered_nodes w /\
  load_method w' = load_method w /\ dicts w' = dicts w /\
  next_dict w' = next_dict w /\ (next_object w <= next_object w')%nat /\
  forall r, (r < next_object w)%nat -> objects w' r = objects w r.

(** *** A small project for the examples *)

(** A stand-in for zlib: it frames the data with one octet and compresses
    nothing. *)
Definition frame (data : bytes) : bytes := x78 :: data.

Definition unframe (data : bytes) : option bytes :=
  match data with
  | x78 :: rest => Some rest
  | _ => None
  end.

(** A reader of listing lines of the form [kind name upstream]: enough of
    [json.loads] to tell a node from a line that is not JSON. *)
Definition demo_parse_line (line : str) : option json :=
  match split_on 32 line with
  | [kind; name; upstream] =>
      Some (JObj [ (lit "unique_id", JStr (kind ++ lit ".jaffle." ++ name));
                   (lit "resource_type", JStr kind);
                   (lit "depends_on",
                    JObj [(lit "nodes",
                           JArr (match upstream with
                                 | [] => []
                                 | _ => [JStr (lit "model.jaffle." ++ upstream)]
                                 end))]);
                   (lit "original_file_path", JStr (lit "models/" ++ name ++ lit ".sql")) ])
  | _ => None
  end.

Definition demo_walk : list Cache.File :=
  [ {| Cache.path := lit "/dbt/jaffle/models/a.sql";
       Cache.content := map byte_of (lit "select 1"); Cache.st_mtime := 3 |} ].

(** An environment with the cache enabled, given what varies between the
    examples: the metadata, the manifest, the selection and the legacy
    project. *)
Definition demo_env (metadata : dict json) (manifest : option (option json))
    (select : list str) (models : list (str * LegacyModel)) : Env :=
  {| enable_cache := true;
     enable_cache_dbt_ls := true;
     dbt_ls_cache_key := Cache.create_cache_key (lit "jaffle_dag");
     airflow_metadata := metadata;
     profile_config := true;
     project_name := lit "jaffle";
     dbt_project_path := Some (lit "/dbt/jaffle");
     manifest := manifest;
     select := select;
     exclude := [];
     selector := None;
     render_project_path := Some (lit "/dbt/jaffle");
     dbt_ls_file := None;
     execution_project_path := Some (lit "/dbt/jaffle");
     dbt_ls_cache_key_args := [lit "--select"; lit "a"];
     walk := fun _ => demo_walk;
     parse_line := demo_parse_line;
     zlib_compress := frame;
     zlib_decompress := unframe;
     now_isoformat := lit "2024-06-01T00:00:00+00:00";
     select_nodes := fun _ _ select _ =>
       Ok (match select with [] => None | _ => Some select end);
     legacy_project := Ok models;
     validate_dbt_command := Ok tt;
     dbt_ls_stdout := Ok (lit "model a" ++ [32; 10] ++ lit "test t a");
     update_partial_parse_cache := Ok tt |}.

(** An entry of a manifest, with every field. *)
Definition demo_entry (kind : string) (upstream : list string) (path : string) : json :=
  JObj [ (lit "resource_type", JStr (lit kind));
         (lit "depends_on",
          JObj [(lit "nodes", JArr (map (fun u => JStr (lit u)) upstream))]);
         (lit "original_file_path", JStr (lit path));
         (lit "tags", JArr []);
         (lit "config", JObj []) ].

(** A manifest of two models, a test of the first and a source. *)
Definition demo_manifest : json :=
  JObj [ (lit "nodes",
          JObj [ (lit "model.jaffle.a", demo_entry "model" [] "models/a.sql");
                 (lit "model.jaffle.b",
                  demo_entry "model" ["model.jaffle.a"%string] "models/b.sql");
                 (lit "test.jaffle.t",
                  demo_entry "test" ["model.jaffle.a"%string] "models/schema.yml") ]);
         (lit "sources",
          JObj [ (lit "source.jaffle.raw", demo_entry "source" [] "models/src.yml") ]) ].

(** A manifest in which the first test names the second. *)
Definition chained_tests_manifest : json :=
  JObj [ (lit "nodes",
          JObj [ (lit "model.jaffle.a", demo_entry "model" [] "models/a.sql");
                 (lit "test.jaffle.t1",
                  demo_entry "test" ["test.jaffle.t2"%string] "models/schema.yml");
                 (lit "test.jaffle.t2",
                  demo_entry "test" ["model.jaffle.a"%string] "models/schema.yml") ]) ].

(** A manifest with one section, whose entry has no [depends_on]. *)
Definition bare_manifest : json :=
  JObj [ (lit "nodes",
          JObj [ (lit "model.jaffle.a",
                  JObj [ (lit "resource_type", JStr (lit "model"));
                         (lit "original_file_path", JStr (lit "models/a.sql"));
                         (lit "tags", JArr []);
                         (lit "config", JObj []) ]) ]) ].

(** What the legacy parser finds in a project of one model and one test
    of it. *)
Definition demo_models : list (str * LegacyModel) :=
  [ (lit "a", {| type_value := lit "model"; config_selectors := [lit "materialized:table"];
                 upstream_models := []; model_path := lit "/dbt/jaffle/models/a.sql" |});
    (lit "t", {| type_value := lit "test"; config_selectors := [];
                 upstream_models := [lit "a"];
                 model_path := lit "/dbt/jaffle/models/schema.yml" |}) ].

(** The environment of the examples when [dbt ls] logs in JSON: every
    line of the listing is an object, and none of them is a node. *)
Definition json_log_env : Env :=
  let E := demo_env [] None [] [] in
  {| enable_cache := enable_cache E;
     enable_cache_dbt_ls := enable_cache_dbt_ls E;
     dbt_ls_cache_key := dbt_ls_cache_key E;
     airflow_metadata := airflow_metadata E;
     profile_config := profile_config E;
     project_name := project_name E;
     dbt_project_path := dbt_project_path E;
     manifest := manifest E;
     select := select E;
     exclude := exclude E;
     selector := selector E;
     render_project_path := render_project_path E;
     dbt_ls_file := dbt_ls_file E;
     execution_project_path := execution_project_path E;
     dbt_ls_cache_key_args := dbt_ls_cache_key_args E;
     walk := walk E;
     parse_line := fun line => Some (JObj [(lit "info", JStr line)]);
     zlib_compress := zlib_compress E;
     zlib_decompress := zlib_decompress E;
     now_isoformat := now_isoformat E;
     select_nodes := select_nodes E;
     legacy_project := legacy_project E;
     validate_dbt_command := validate_dbt_command E;
     dbt_ls_stdout := dbt_ls_stdout E;
     update_partial_parse_cache := update_partial_parse_cache E |}.

(** A graph as its constructor leaves it, with the given Variables. *)
Definition new_graph (vars : list Cache.Var) : World :=
  {| objects := fun _ =>
       {| unique_id := []; resource_type := MODEL; depends_on := [];
          file_path := []; tags := JNull; config := JNull; has_test := false |};
     next_object := 0;
     dicts := fun _ => [];
     next_dict := 2;
     airflow_variables := vars;
     nodes := 0;
     filtered_nodes := 1;
     load_method := AUTOMATIC |}.

(** The graph of [demo_manifest] with the first model selected, as the
    manifest strategy leaves it: before the propagation. *)
Definition demo_selected : World :=
  snd (load_strategy
         (demo_env [] (Some (Some demo_manifest)) [lit "model.jaffle.a"] [])
         DBT_MANIFEST LOCAL (new_graph [])).

End Graph.

(** ** cosmos/cache.py: the name of a cache and the newest partial parse *)

Module CacheDir.

(** [sep.join(parts)]. *)
Fixpoint join (sep : str) (parts : list str) : str :=
  match parts with
  | [] => []
  | [part] => part
  | part :: rest => part ++ sep ++ join sep rest
  end.

(** What is read of a [DAG] and of a [TaskGroup]. *)
Module DAG.
Record t := { dag_id : str }.
End DAG.

Module TaskGroup.
Record t := { dag_id : option str; group_id : option str }.
End TaskGroup.

Definition _get_airflow_metadata (dag : DAG.t) (task_group : option TaskGroup.t)
    : dict (option str) :=
  let '(dag_id, task_group_id, cosmos_type) :=
    match task_group with
    | Some tg =>
        let dag_id :=
          match TaskGroup.dag_id tg with
          | Some d => Some d
          | None => None
          end in
        match TaskGroup.group_id tg with
        | Some g => (dag_id, Some g, lit "DbtTaskGroup")
        | None => (dag_id, None, lit "DbtDag")
        end
    | None => (Some (DAG.dag_id dag), None, lit "DbtDag")
    end in
  [ (lit "cosmos_type", Some cosmos_type);
    (lit "dag_id", dag_id);
    (lit "task_group_id", task_group_id) ].

(** [metadata.get(k)]. *)
Definition metadata_get (metadata : dict (option str)) (k : str) : option str :=
  match dict_get metadata k with
  | Some v => v
  | None => None
  end.

Definition _create_cache_identifier (dag : DAG.t) (task_group : option TaskGroup.t)
    : str :=
  let metadata := _get_airflow_metadata dag task_group in
  let cache_identifiers_list := [] in
  let dag_id := metadata_get metadata (lit "dag_id") in
  let task_group_id := metadata_get metadata (lit "task_group_id") in
  let cache_identifiers_list :=
    match dag_id with
    | Some ((_ :: _) as d) => cache_identifiers_list ++ [d]
    | _ => cache_identifiers_list
    end in
  let cache_identifiers_list :=
    match task_group_id with
    | Some ((_ :: _) as g) =>
        cache_identifiers_list ++ [Graph.replace g (lit ".") (lit "__")]
    | _ => cache_identifiers_list
    end in
  join (lit "__") cache_identifiers_list.

(** The metadata as [save_dbt_ls_cache] serialises them. *)
Definition json_of_metadata (metadata : dict (option str)) : dict json :=
  map (fun kv => (fst kv, match snd kv with Some s => JStr s | None => JNull end))
    metadata.

(** [path.stat().st_mtime], or [0] for a path that does not exist.  A
    modification time is a finite float, read here as the rational it
    is; [stat] answers [None] for a [FileNotFoundError]. *)
Definition _get_timestamp (stat : str -> option Q) (path : str) : Q :=
  match stat path with
  | Some timestamp => timestamp
  | None => 0%Q
  end.

(** The truth value of a float. *)
Definition nonzero (t : Q) : bool := negb (Qeq_bool t 0).

(** [get_partial_parse_path], of [cosmos.dbt.project], is not among the
    sources: it is a parameter. *)
Definition _get_latest_partial_parse (get_partial_parse_path : str -> str)
    (stat : str -> option Q) (dbt_project_path cache_dir : str) : option str :=
  let project_partial_parse_path := get_partial_parse_path dbt_project_path in
  let cosmos_cached_partial_parse_filepath := get_partial_parse_path cache_dir in
  let age_project_partial_parse := _get_timestamp stat project_partial_parse_path in
  let age_cosmos_cached_partial_parse_filepath :=
    _get_timestamp stat cosmos_cached_partial_parse_filepath in
  if nonzero age_project_partial_parse && nonzero age_cosmos_cached_partial_parse_filepath
  then
    if negb (Qle_bool age_project_partial_parse age_cosmos_cached_partial_parse_filepath)
    then Some project_partial_parse_path
    else Some cosmos_cached_partial_parse_filepath
  else if nonzero age_project_partial_parse then Some project_partial_parse_path
  else if nonzero age_cosmos_cached_partial_parse_filepath
  then Some cosmos_cached_partial_parse_filepath
  else None.

End CacheDir.

(** ** cosmos/dbt/graph.py: the names of a node *)

Module NodeName.
Import Graph.

(** [s.split(sep, maxsplit)] for a separator of one character. *)
Fixpoint split_max (sep : N) (s : str) (maxsplit : nat) : list str :=
  match s with
  | [] => [[]]
  | c :: s' =>
      match maxsplit with
      | O => [s]
      | S n =>
          if c =? sep then [] :: split_max sep s' n
          else
            match split_max sep s' maxsplit with
            | part :: parts => (c :: part) :: parts
            | [] => [[c]]
            end
      end
  end.

(** The property [resource_name]: [None] stands for the [IndexError] of
    [split(".", 2)[2]]. *)
Definition resource_name (node : DbtNode) : option str :=
  nth_error (split_max 46 (unique_id node) 2) 2.

(** The property [name]. *)
Definition name (node : DbtNode) : option str :=
  match resource_name node with
  | Some r => Some (replace r (lit ".") (lit "_"))
  | None => None
  end.

End NodeName.

(** ** cosmos/dbt/graph.py: a listing read as values *)

Module Listing.
Import Graph.

(** A mapping of node objects, read in a world: each key with the node
    its object is. *)
Definition resolve (w : World) (d : dict nat) : dict DbtNode :=
  map (fun kv => (fst kv, objects w (snd kv))) d.

(** The loop of [parse_dbt_ls_output] over values: the mapping it builds,
    with the nodes in place of their objects. *)
Fixpoint listed_nodes (E : Env) (project_path : str) (lines : list str)
    (acc : dict DbtNode) : result (dict DbtNode) :=
  match lines with
  | [] => Ok acc
  | line :: rest =>
      match parse_line E line with
      | None => listed_nodes E project_path rest acc
      | Some node_dict =>
          node <- node_of_ls_line project_path node_dict ;;
          listed_nodes E project_path rest (dict_set acc (unique_id node) node)
      end
  end.

End Listing.

(** * Properties *)

Module PyFacts.

Lemma str_eqb_eq a b : str_eqb a b = true <-> a = b.
Proof. unfold str_eqb. apply bool_decide_eq_true. Qed.

Lemma str_eqb_refl a : str_eqb a a = true.
Proof. now apply str_eqb_eq. Qed.

Lemma str_eqb_neq a b : str_eqb a b = false <-> a <> b.
Proof. unfold str_eqb. apply bool_decide_eq_false. Qed.

Lemma to_N_byte_of n : Byte.to_N (byte_of n) = n mod 256.
Proof.
  unfold byte_of. destruct (Byte.of_N (n mod 256)) as [b|] eqn:E.
  - now apply Byte.to_of_N.
  - apply Byte.of_N_None_iff in E.
    pose proof (N.mod_upper_bound n 256). lia.
Qed.

Lemma to_N_byte_of_small n : n < 256 -> Byte.to_N (byte_of n) = n.
Proof. intros H. rewrite to_N_byte_of. now apply N.mod_small. Qed.

Lemma byte_of_to_N b : byte_of (Byte.to_N b) = b.
Proof.
  unfold byte_of. pose proof (Byte.to_N_bounded b).
  rewrite N.mod_small by lia. now rewrite Byte.of_to_N.
Qed.

Lemma to_N_inj a b : Byte.to_N a = Byte.to_N b -> a = b.
Proof.
  intros H. rewrite <- (byte_of_to_N a), <- (byte_of_to_N b). now rewrite H.
Qed.

(** Linear arithmetic with the quotients and remainders of octets. *)
Ltac byte_bounds :=
  repeat match goal with
    | b : byte |- _ =>
        lazymatch goal with
        | _ : Byte.to_N b <= 255 |- _ => fail
        | _ => pose proof (Byte.to_N_bounded b)
        end
    end.

Ltac div_mod_lia :=
  byte_bounds; zify; Z.to_euclidean_division_equations; lia.

(** *** Dictionaries *)

Section dict_facts.
Context {V : Type}.
Implicit Types (d : dict V) (k : str) (v : V).

Lemma dict_get_set_eq d k v : dict_get (dict_set d k v) k = Some v.
Proof.
  induction d as [|[k' v'] d IH]; cbn.
  - now rewrite str_eqb_refl.
  - destruct (str_eqb k' k) eqn:E; cbn; rewrite E; [reflexivity | exact IH].
Qed.

Lemma dict_get_set_ne d k k' v : k <> k' -> dict_get (dict_set d k v) k' = dict_get d k'.
Proof.
  intros Hne. induction d as [|[k0 v0] d IH]; cbn.
  - apply str_eqb_neq in Hne. now rewrite Hne.
  - destruct (str_eqb k0 k) eqn:E; cbn.
    + apply str_eqb_eq in E. subst k0.
      apply str_eqb_neq in Hne. now rewrite Hne.
    + now rewrite IH.
Qed.

Lemma dict_get_set d k k' v :
  dict_get (dict_set d k v) k' = if str_eqb k k' then Some v else dict_get d k'.
Proof.
  destruct (str_eqb k k') eqn:E.
  - apply str_eqb_eq in E. subst. apply dict_get_set_eq.
  - apply str_eqb_neq in E. now apply dict_get_set_ne.
Qed.

Lemma dict_mem_set d k k' v :
  dict_mem (dict_set d k v) k' = str_eqb k k' || dict_mem d k'.
Proof.
  unfold dict_mem. rewrite dict_get_set. now destruct (str_eqb k k').
Qed.

Lemma dict_get_In d k v : dict_get d k = Some v -> In (k, v) d.
Proof.
  induction d as [|[k' v'] d IH]; cbn; [discriminate|].
  destruct (str_eqb k' k) eqn:E.
  - apply str_eqb_eq in E. intros [= ->]. left. now subst.
  - intros H. right. now apply IH.
Qed.

Lemma dict_mem_keys d k : dict_mem d k = true <-> In k (keys d).
Proof.
  unfold dict_mem, keys. induction d as [|[k' v'] d IH]; cbn.
  - split; [discriminate | tauto].
  - destruct (str_eqb k' k) eqn:E.
    + apply str_eqb_eq in E. tauto.
    + apply str_eqb_neq in E. rewrite IH. split; [tauto|]. intros [?|?]; tauto.
Qed.

Lemma keys_dict_set d k v :
  keys (dict_set d k v) = if dict_mem d k then keys d else keys d ++ [k].
Proof.
  unfold keys, dict_mem. induction d as [|[k' v'] d IH]; cbn; [reflexivity|].
  destruct (str_eqb k' k) eqn:E; cbn; [reflexivity|].
  rewrite IH. now destruct (dict_get d k).
Qed.

End dict_facts.

End PyFacts.
Export PyFacts.

Module MD5Facts.
Import MD5.

Lemma length_le_bytes n x : length (le_bytes n x) = n.
Proof. unfold le_bytes. now rewrite length_map, length_seq. Qed.

Lemma length_digest msg : length (digest msg) = 16%nat.
Proof.
  unfold digest. destruct (blocks _ _ _) as [[[a b] c] d].
  rewrite !length_app, !length_le_bytes. reflexivity.
Qed.

Lemma length_flat_map_hex l : length (flat_map hex_byte l) = (2 * length l)%nat.
Proof. induction l as [|b l IH]; simpl; [reflexivity | rewrite IH; lia]. Qed.

Lemma length_hexdigest msg : length (hexdigest msg) = 32%nat.
Proof. unfold hexdigest. now rewrite length_flat_map_hex, length_digest. Qed.

(** The test suite of RFC 1321, appendix A.5. *)
Example md5_empty : hexdigest [] = lit "d41d8cd98f00b204e9800998ecf8427e".
Proof. vm_compute. reflexivity. Qed.

Example md5_abc :
  hexdigest ["a"; "b"; "c"]%byte = lit "900150983cd24fb0d6963f7d28e17f72".
Proof. vm_compute. reflexivity. Qed.

Example md5_two_blocks :
  hexdigest (concat (repeat ["1"; "2"; "3"; "4"; "5"; "6"; "7"; "8"; "9"; "0"]%byte 8))
  = lit "57edf4a22be3c955ac49da2e2107b67a".
Proof. vm_compute. reflexivity. Qed.
End MD5Facts.
Export MD5Facts.

Module Base64Facts.
Import Base64.

Lemma below64_spec n : n < 64 -> In n below64.
Proof.
  intros H. unfold below64. apply in_map_iff. exists (N.to_nat n).
  split; [apply N2Nat.id | apply in_seq; lia].
Qed.

Lemma check_below64 (P : N -> bool) :
  forallb P below64 = true -> forall n, n < 64 -> P n = true.
Proof.
  intros H n Hn. rewrite forallb_forall in H. apply H. now apply below64_spec.
Qed.

Lemma check_below64_2 (P : N -> N -> bool) :
  forallb (fun a => forallb (P a) below64) below64 = true ->
  forall a b, a < 64 -> b < 64 -> P a b = true.
Proof.
  intros H a b Ha Hb.
  apply (check_below64 (P a)); [|exact Hb].
  now apply (check_below64 (fun a => forallb (P a) below64)).
Qed.

Lemma a2b_b2a n : n < 64 -> a2b (b2a n) = Some n.
Proof.
  intros H.
  pose proof (check_below64
    (fun n => match a2b (b2a n) with Some m => m =? n | None => false end)
    eq_refl n H) as C.
  cbv beta in C. destruct (a2b (b2a n)) as [m|]; [|discriminate].
  apply N.eqb_eq in C. now subst.
Qed.

Lemma is_pad_b2a n : n < 64 -> is_pad (b2a n) = false.
Proof.
  intros H. apply negb_true_iff.
  exact (check_below64 (fun n => negb (is_pad (b2a n))) eq_refl n H).
Qed.

Lemma b2a_ascii n : n < 64 -> Byte.to_N (b2a n) < 128.
Proof.
  intros H.
  pose proof (check_below64 (fun n => Byte.to_N (b2a n) <? 128) eq_refl n H) as C.
  now apply N.ltb_lt in C.
Qed.

Lemma join_hi a b : a < 64 -> b < 64 ->
  N.lor (N.shiftl a 2) (N.shiftr b 4) = a * 4 + b / 16.
Proof.
  intros Ha Hb.
  pose proof (check_below64_2
    (fun a b => N.lor (N.shiftl a 2) (N.shiftr b 4) =? a * 4 + b / 16)
    eq_refl a b Ha Hb) as C.
  now apply N.eqb_eq in C.
Qed.

Lemma join_mid a b : a < 64 -> b < 64 ->
  N.lor (N.shiftl (N.land a 15) 4) (N.shiftr b 2) = a mod 16 * 16 + b / 4.
Proof.
  intros Ha Hb.
  pose proof (check_below64_2
    (fun a b => N.lor (N.shiftl (N.land a 15) 4) (N.shiftr b 2) =? a mod 16 * 16 + b / 4)
    eq_refl a b Ha Hb) as C.
  now apply N.eqb_eq in C.
Qed.

Lemma join_lo a b : a < 64 -> b < 64 ->
  N.lor (N.shiftl (N.land a 3) 6) b = a mod 4 * 64 + b.
Proof.
  intros Ha Hb.
  pose proof (check_below64_2
    (fun a b => N.lor (N.shiftl (N.land a 3) 6) b =? a mod 4 * 64 + b)
    eq_refl a b Ha Hb) as C.
  now apply N.eqb_eq in C.
Qed.

Lemma a2b_base64_sextet q l p s rest :
  s < 64 ->
  a2b_base64 q l p (b2a s :: rest) =
  match q with
  | 0%nat => a2b_base64 1 s 0 rest
  | 1%nat =>
      emit (byte_of (N.lor (N.shiftl l 2) (N.shiftr s 4)))
        (a2b_base64 2 (N.land s 15) 0 rest)
  | 2%nat =>
      emit (byte_of (N.lor (N.shiftl l 4) (N.shiftr s 2)))
        (a2b_base64 3 (N.land s 3) 0 rest)
  | _ => emit (byte_of (N.lor (N.shiftl l 6) s)) (a2b_base64 0 0 0 rest)
  end.
Proof.
  intros H. cbn [a2b_base64]. now rewrite is_pad_b2a, a2b_b2a.
Qed.

Lemma a2b_base64_pad2 l : a2b_base64 2 l 0 [pad_char; pad_char] = Ok [].
Proof. reflexivity. Qed.

Lemma a2b_base64_pad1 l : a2b_base64 3 l 0 [pad_char] = Ok [].
Proof. reflexivity. Qed.

Lemma list_ind3 {A} (P : list A -> Prop) :
  P [] -> (forall a, P [a]) -> (forall a b, P [a; b]) ->
  (forall a b c l, P l -> P (a :: b :: c :: l)) ->
  forall l, P l.
Proof.
  intros H0 H1 H2 H3.
  fix IH 1. intros [|a [|b [|c l]]].
  - exact H0.
  - apply H1.
  - apply H2.
  - apply H3, IH.
Qed.

(** Decoding what [b64encode] wrote gives the octets back. *)
Lemma b64decode_b64encode bs : b64decode (b64encode bs) = Ok bs.
Proof.
  unfold b64decode. induction bs as [|b0|b0 b1|b0 b1 b2 rest IH] using list_ind3.
  - reflexivity.
  - cbn [b64encode].
    rewrite !a2b_base64_sextet by div_mod_lia.
    rewrite a2b_base64_pad2. cbn [emit bind].
    rewrite join_hi by div_mod_lia.
    replace (_ + _) with (Byte.to_N b0) by div_mod_lia.
    now rewrite byte_of_to_N.
  - cbn [b64encode].
    rewrite !a2b_base64_sextet by div_mod_lia.
    rewrite a2b_base64_pad1. cbn [emit bind].
    rewrite join_hi, join_mid by div_mod_lia.
    replace (_ / 4 * 4 + _) with (Byte.to_N b0) by div_mod_lia.
    replace (_ mod 16 * 16 + _) with (Byte.to_N b1) by div_mod_lia.
    now rewrite !byte_of_to_N.
  - cbn [b64encode].
    rewrite !a2b_base64_sextet by div_mod_lia.
    rewrite IH. cbn [emit bind].
    rewrite join_hi, join_mid, join_lo by div_mod_lia.
    replace (_ / 4 * 4 + _) with (Byte.to_N b0) by div_mod_lia.
    replace (_ mod 16 * 16 + _) with (Byte.to_N b1) by div_mod_lia.
    replace (_ mod 4 * 64 + _) with (Byte.to_N b2) by div_mod_lia.
    now rewrite !byte_of_to_N.
Qed.

(** The encoder writes ASCII only, and something whenever it read
    something. *)
Lemma b64encode_ascii bs : Forall (fun c => Byte.to_N c < 128) (b64encode bs).
Proof.
  induction bs as [|b0|b0 b1|b0 b1 b2 rest IH] using list_ind3;
    cbn [b64encode]; repeat constructor;
    try (apply b2a_ascii; div_mod_lia); try exact IH; cbn; lia.
Qed.

Lemma b64encode_nonempty bs : bs <> [] -> b64encode bs <> [].
Proof. destruct bs as [|b0 [|b1 [|b2 rest]]]; [congruence | discriminate..]. Qed.

Example b64encode_foobar :
  b64encode ["f"; "o"; "o"; "b"; "a"]%byte
  = ["Z"; "m"; "9"; "v"; "Y"; "m"; "E"; "="]%byte.
Proof. reflexivity. Qed.

Example b64decode_one_character : b64decode ["A"]%byte = Raise BinasciiError.
Proof. reflexivity. Qed.

Example b64decode_skips_garbage :
  b64decode ["Z"; "!"; "m"; "9"; x0a; "v"]%byte = Ok ["f"; "o"; "o"]%byte.
Proof. reflexivity. Qed.
End Base64Facts.
Export Base64Facts.

Module Utf8Facts.
Import Utf8.

Lemma encode_char_scalar c : scalar c <-> is_Some (encode_char c).
Proof.
  unfold scalar, encode_char, is_surrogate.
  repeat match goal with
    | |- context [?a <? ?b] => destruct (N.ltb_spec a b)
    | |- context [?a <=? ?b] => destruct (N.leb_spec a b)
    end; cbn [andb]; split; intros Hc;
    try (destruct Hc as [Hc1 Hc2]); try (destruct Hc as [x Hc]);
    try discriminate; try lia; eauto.
Qed.

Lemma cont_byte n :
  n < 64 -> is_cont (byte_of (0x80 + n)) = true /\ payload (byte_of (0x80 + n)) = n.
Proof.
  intros H. unfold is_cont, payload.
  rewrite to_N_byte_of_small by lia. split.
  - apply andb_true_iff. split; [apply N.leb_le | apply N.ltb_lt]; lia.
  - div_mod_lia.
Qed.

Ltac split_ltb :=
  match goal with
  | |- context [?a <? ?b] => destruct (N.ltb_spec a b); [|]; try (exfalso; div_mod_lia)
  end.

(** Decoding reads back the code point whose octets lead the input. *)
Lemma decode_encode_char c bs rest :
  encode_char c = Some bs ->
  decode (bs ++ rest) = (s <- decode rest ;; Ok (c :: s)).
Proof.
  unfold encode_char.
  destruct (N.ltb_spec c 0x80) as [H1|H1];
    [|destruct (N.ltb_spec c 0x800) as [H2|H2];
      [|destruct (N.ltb_spec c 0x10000) as [H3|H3];
        [destruct (is_surrogate c) eqn:Hs; [discriminate|]
        |destruct (N.ltb_spec c 0x110000) as [H4|H4]; [|discriminate]]]];
    intros [= <-]; cbn [app decode].
  - rewrite to_N_byte_of_small by lia. now split_ltb.
  - rewrite to_N_byte_of_small by div_mod_lia.
    destruct (cont_byte (c mod 64)) as [-> ->]; [div_mod_lia|].
    repeat split_ltb.
    replace (_ + _) with c by div_mod_lia. reflexivity.
  - rewrite to_N_byte_of_small by div_mod_lia.
    destruct (cont_byte (c mod 64)) as [-> ->]; [div_mod_lia|].
    destruct (cont_byte (c / 64 mod 64)) as [-> ->]; [div_mod_lia|].
    repeat split_ltb.
    replace (_ + _ + _) with c by div_mod_lia.
    rewrite Hs. destruct (N.leb_spec 0x800 c); [reflexivity | lia].
  - rewrite to_N_byte_of_small by div_mod_lia.
    destruct (cont_byte (c mod 64)) as [-> ->]; [div_mod_lia|].
    destruct (cont_byte (c / 64 mod 64)) as [-> ->]; [div_mod_lia|].
    destruct (cont_byte (c / 4096 mod 64)) as [-> ->]; [div_mod_lia|].
    replace (_ + _ + _ + _) with c by div_mod_lia.
    destruct (N.leb_spec 0x10000 c); [|lia].
    repeat split_ltb. reflexivity.
Qed.

(** What [encode] wrote, [decode] reads back. *)
Lemma decode_encode s bs : encode s = Ok bs -> decode bs = Ok s.
Proof.
  revert bs. induction s as [|c s IH]; intros bs; cbn [encode].
  - now intros [= <-].
  - destruct (encode_char c) as [cs|] eqn:Ec; [|discriminate].
    destruct (encode s) as [rest|] eqn:Es; [|discriminate].
    cbn [bind]. intros [= <-].
    rewrite (decode_encode_char _ _ _ Ec), (IH rest eq_refl). reflexivity.
Qed.

(** Text made of scalar values can always be encoded. *)
Lemma encode_total s : Forall scalar s -> exists bs, encode s = Ok bs.
Proof.
  induction 1 as [|c s Hc _ [rest IH]]; cbn [encode].
  - now exists [].
  - apply encode_char_scalar in Hc as [cs ->]. rewrite IH. cbn. eauto.
Qed.

(** A decision procedure for texts of scalar values. *)
Lemma scalar_check s :
  forallb (fun c => (c <? 0x110000) && negb (is_surrogate c)) s = true ->
  Forall scalar s.
Proof.
  intros H. apply Forall_forall. intros c Hc.
  rewrite forallb_forall in H. apply list_elem_of_In in Hc. specialize (H c Hc).
  apply andb_true_iff in H as [Hlt Hs]. split.
  - now apply N.ltb_lt.
  - now apply negb_true_iff.
Qed.

(** ASCII text and its octets are the same numbers. *)
Lemma decode_ascii bs :
  Forall (fun b => Byte.to_N b < 128) bs -> decode bs = Ok (map Byte.to_N bs).
Proof.
  induction 1 as [|b bs Hb _ IH]; cbn [decode map]; [reflexivity|].
  destruct (N.ltb_spec (Byte.to_N b) 0x80); [|lia]. now rewrite IH.
Qed.

Lemma encode_ascii bs :
  Forall (fun b => Byte.to_N b < 128) bs -> encode (map Byte.to_N bs) = Ok bs.
Proof.
  induction 1 as [|b bs Hb _ IH]; cbn [encode map]; [reflexivity|].
  unfold encode_char. destruct (N.ltb_spec (Byte.to_N b) 0x80); [|lia].
  rewrite IH. cbn. now rewrite byte_of_to_N.
Qed.

Example encode_euro : encode [0x20AC] = Ok [xe2; x82; xac].
Proof. reflexivity. Qed.

Example encode_surrogate : encode [0xD800] = Raise UnicodeError.
Proof. reflexivity. Qed.

Example decode_overlong : decode [xc0; x80] = Raise UnicodeError.
Proof. reflexivity. Qed.

End Utf8Facts.
Export Utf8Facts.

Module CacheFacts.
Import Cache.

#[global] Instance str_le_total : Total str_le.
Proof.
  intros a. induction a as [|x a IH]; intros [|y b]; unfold str_le in *; cbn;
    auto.
  destruct (N.ltb_spec x y), (N.ltb_spec y x); auto; lia.
Qed.

#[global] Instance str_le_antisymm : AntiSymm (=) str_le.
Proof.
  intros a. induction a as [|x a IH]; intros [|y b]; unfold str_le in *; cbn;
    try discriminate; auto.
  destruct (N.ltb_spec x y), (N.ltb_spec y x); try discriminate; try lia.
  intros Hab Hba. f_equal; [lia | now apply IH].
Qed.

#[global] Instance str_le_trans : Transitive str_le.
Proof.
  intros a. induction a as [|x a IH]; intros [|y b] [|z c];
    unfold str_le in *; cbn; try discriminate; auto.
  destruct (N.ltb_spec x y), (N.ltb_spec y x), (N.ltb_spec y z),
    (N.ltb_spec z y), (N.ltb_spec x z), (N.ltb_spec z x);
    try discriminate; try lia; auto.
  apply IH.
Qed.

Lemma sorted_Permutation l1 l2 : l1 ≡ₚ l2 -> sorted l1 = sorted l2.
Proof.
  intros H. unfold sorted. apply (Sorted_unique str_le).
  - apply Sorted_merge_sort, _.
  - apply Sorted_merge_sort, _.
  - now rewrite !merge_sort_Permutation.
Qed.

Lemma fold_update l acc (f : str -> bytes) :
  fold_left (fun hasher p => update hasher (f p)) l acc = acc ++ concat (map f l).
Proof.
  revert acc. induction l as [|p l IH]; intros acc; cbn.
  - now rewrite app_nil_r.
  - rewrite IH. unfold update. now rewrite <- app_assoc.
Qed.

Lemma folder_hash_hashed_bytes walk :
  _create_folder_version_hash walk = MD5.hexdigest (hashed_bytes walk).
Proof.
  unfold _create_folder_version_hash, hashed_bytes. now rewrite fold_update.
Qed.

Lemma read_In walk f :
  NoDup (map path walk) -> In f walk -> read walk (path f) = content f.
Proof.
  induction walk as [|g walk IH]; cbn; [tauto|].
  intros Hnd [->|Hin].
  - now rewrite str_eqb_refl.
  - apply NoDup_cons in Hnd as [Hg Hnd].
    destruct (str_eqb (path g) (path f)) eqn:E.
    + apply str_eqb_eq in E. exfalso. apply Hg. rewrite E.
      apply list_elem_of_In, in_map, Hin.
    + now apply IH.
Qed.

Lemma read_same_files w1 w2 p :
  NoDup (map path w1) -> same_files w1 w2 -> In p (map path w1) ->
  read w1 p = read w2 p.
Proof.
  intros Hnd Hsame Hin.
  assert (Hnd2 : NoDup (map path w2)).
  { assert (Hp : map path w1 ≡ₚ map path w2).
    { unfold same_files in Hsame.
      apply (Permutation_map fst) in Hsame. now rewrite !map_map in Hsame. }
    now rewrite <- Hp. }
  apply in_map_iff in Hin as (f & <- & Hf).
  rewrite (read_In w1 f Hnd Hf).
  assert (Hin2 : In (path f, content f) (map (fun f => (path f, content f)) w2)).
  { apply (Permutation_in _ Hsame). apply in_map_iff. eauto. }
  apply in_map_iff in Hin2 as (g & [= Hp Hc] & Hg).
  rewrite <- Hp, <- Hc. symmetry. now apply read_In.
Qed.

Lemma hashed_bytes_same_files w1 w2 :
  NoDup (map path w1) -> same_files w1 w2 -> hashed_bytes w1 = hashed_bytes w2.
Proof.
  intros Hnd Hsame. unfold hashed_bytes.
  assert (Hp : map path w1 ≡ₚ map path w2).
  { unfold same_files in Hsame.
    apply (Permutation_map fst) in Hsame. now rewrite !map_map in Hsame. }
  rewrite <- (sorted_Permutation _ _ Hp). f_equal.
  apply map_ext_in. intros p Hin. apply read_same_files; auto.
  apply (Permutation_in _ (merge_sort_Permutation str_le (map path w1))).
  exact Hin.
Qed.

Lemma same_files_refl w : same_files w w.
Proof. unfold same_files. reflexivity. Qed.

Lemma app_comma_inj (d1 d2 a1 a2 : str) :
  length d1 = length d2 ->
  d1 ++ lit "," ++ a1 = d2 ++ lit "," ++ a2 <-> d1 = d2 /\ a1 = a2.
Proof.
  intros Hlen. split.
  - intros H. apply app_inj_1 in H as [Hd Ha]; [|exact Hlen].
    split; [exact Hd | now injection Ha].
  - now intros [-> ->].
Qed.

(** X20.  For argument lists the codec can encode, the fingerprint is the
    digest of the directory, a comma, and the digest of the arguments; the
    first digests the files' bytes in the order of their sorted paths, the
    second the arguments joined.  It is the same for two walks that hold
    the same files, whatever the enumeration order and the modification
    times, with the same arguments; and two fingerprints are equal exactly
    when both digests are. *)
Theorem fingerprint_of_digests id1 id2 (w1 w2 : list File) (args1 args2 : list str) :
  Forall Utf8.scalar (join_empty args1) ->
  Forall Utf8.scalar (join_empty args2) ->
  exists a1 a2 : bytes,
    Utf8.encode (join_empty args1) = Ok a1 /\
    Utf8.encode (join_empty args2) = Ok a2 /\
    _create_folder_version_hash w1 = MD5.hexdigest (hashed_bytes w1) /\
    _calculate_dbt_ls_cache_current_version id1 w1 args1
    = Ok (_create_folder_version_hash w1 ++ lit "," ++ MD5.hexdigest a1) /\
    (NoDup (map path w1) -> same_files w1 w2 ->
     join_empty args1 = join_empty args2 ->
     _calculate_dbt_ls_cache_current_version id1 w1 args1
     = _calculate_dbt_ls_cache_current_version id2 w2 args2) /\
    (_calculate_dbt_ls_cache_current_version id1 w1 args1
     = _calculate_dbt_ls_cache_current_version id2 w2 args2
     <-> _create_folder_version_hash w1 = _create_folder_version_hash w2
         /\ MD5.hexdigest a1 = MD5.hexdigest a2).
Proof.
  intros H1 H2.
  destruct (Utf8Facts.encode_total _ H1) as [a1 E1].
  destruct (Utf8Facts.encode_total _ H2) as [a2 E2].
  exists a1, a2. unfold _calculate_dbt_ls_cache_current_version.
  rewrite E1, E2. cbn [bind].
  split; [reflexivity|]. split; [reflexivity|].
  split; [apply folder_hash_hashed_bytes|]. split; [reflexivity|]. split.
  - intros Hnd Hsame Hargs. rewrite Hargs in E1. rewrite E1 in E2.
    injection E2 as ->. rewrite !folder_hash_hashed_bytes.
    now rewrite (hashed_bytes_same_files w1 w2 Hnd Hsame).
  - split.
    + intros [= Heq]. apply app_comma_inj in Heq; [exact Heq|].
      now rewrite !folder_hash_hashed_bytes, !MD5Facts.length_hexdigest.
    + now intros [-> ->].
Qed.

Definition demo_walk (a b : string) : list File :=
  [ {| path := lit "dbt/models/b.sql"; content := map byte_of (lit b); st_mtime := 7 |};
    {| path := lit "dbt/models/a.sql"; content := map byte_of (lit a); st_mtime := 3 |} ].

Lemma fingerprint_of_digests_witness :
  exists a1 a2 : bytes,
    Utf8.encode (join_empty [lit "--select"; lit "a"]) = Ok a1 /\
    Utf8.encode (join_empty [lit "--select"; lit "a"]) = Ok a2 /\
    _create_folder_version_hash (demo_walk "select 1" "select 2")
    = MD5.hexdigest (hashed_bytes (demo_walk "select 1" "select 2")) /\
    _calculate_dbt_ls_cache_current_version (lit "dag") (demo_walk "select 1" "select 2")
      [lit "--select"; lit "a"]
    = Ok (_create_folder_version_hash (demo_walk "select 1" "select 2")
          ++ lit "," ++ MD5.hexdigest a1) /\
    (NoDup (map path (demo_walk "select 1" "select 2")) ->
     same_files (demo_walk "select 1" "select 2") (rev (demo_walk "select 1" "select 2")) ->
     join_empty [lit "--select"; lit "a"] = join_empty [lit "--select"; lit "a"] ->
     _calculate_dbt_ls_cache_current_version (lit "dag") (demo_walk "select 1" "select 2")
       [lit "--select"; lit "a"]
     = _calculate_dbt_ls_cache_current_version (lit "group")
         (rev (demo_walk "select 1" "select 2")) [lit "--select"; lit "a"]) /\
    (_calculate_dbt_ls_cache_current_version (lit "dag") (demo_walk "select 1" "select 2")
       [lit "--select"; lit "a"]
     = _calculate_dbt_ls_cache_current_version (lit "group")
         (rev (demo_walk "select 1" "select 2")) [lit "--select"; lit "a"]
     <-> _create_folder_version_hash (demo_walk "select 1" "select 2")
         = _create_folder_version_hash (rev (demo_walk "select 1" "select 2"))
         /\ MD5.hexdigest a1 = MD5.hexdigest a2).
Proof.
  apply (fingerprint_of_digests (lit "dag") (lit "group")
           (demo_walk "select 1" "select 2") (rev (demo_walk "select 1" "select 2"))
           [lit "--select"; lit "a"] [lit "--select"; lit "a"]).
  - apply Utf8Facts.scalar_check. reflexivity.
  - apply Utf8Facts.scalar_check. reflexivity.
Defined.

(** C1.  The fingerprint at inputs that differ: a selection of the tag
    [a] and of [b], against a selection of the tag [ab], with the files
    as they are; arguments split differently; and a byte moved from one
    file to the next.  In each case the two fingerprints are computed and
    are the same. *)
Lemma fingerprint_misses_a_change :
  (exists v,
     _calculate_dbt_ls_cache_current_version (lit "dag") (demo_walk "xy" "z")
       [lit "--select"; lit "tag:a"; lit "b"] = Ok v /\
     _calculate_dbt_ls_cache_current_version (lit "dag") (demo_walk "xy" "z")
       [lit "--select"; lit "tag:ab"] = Ok v /\
     was_project_modified v v = false) /\
  [lit "--select"; lit "tag:a"; lit "b"] <> [lit "--select"; lit "tag:ab"] /\
  [lit "--select"; lit "ab"; lit "c"] <> [lit "--select"; lit "a"; lit "bc"] /\
  _calculate_dbt_ls_cache_current_version (lit "dag") (demo_walk "xy" "z")
    [lit "--select"; lit "ab"; lit "c"]
  = _calculate_dbt_ls_cache_current_version (lit "dag") (demo_walk "xy" "z")
      [lit "--select"; lit "a"; lit "bc"] /\
  read (demo_walk "xy" "z") (lit "dbt/models/a.sql")
  <> read (demo_walk "x" "yz") (lit "dbt/models/a.sql") /\
  _calculate_dbt_ls_cache_current_version (lit "dag") (demo_walk "xy" "z") []
  = _calculate_dbt_ls_cache_current_version (lit "dag") (demo_walk "x" "yz") [] /\
  exists v, _calculate_dbt_ls_cache_current_version (lit "dag") (demo_walk "x" "yz") []
            = Ok v.
Proof.
  split.
  { eexists. split; [vm_compute; reflexivity|].
    split; vm_compute; reflexivity. }
  split; [discriminate|].
  split; [discriminate|].
  split; [vm_compute; reflexivity|].
  split; [vm_compute; discriminate|].
  split; [vm_compute; reflexivity|].
  eexists. vm_compute. reflexivity.
Qed.

(** *** The patch *)

Lemma patch_nodes_again path_exists project_path nodes patched nodes' :
  path_exists project_path = true ->
  patch_nodes path_exists project_path nodes = Ok (patched, nodes') ->
  patch_nodes path_exists project_path nodes' = Ok (false, nodes').
Proof.
  intros Hex. revert patched nodes'.
  induction nodes as [|[uid node] rest IH]; intros patched nodes'; cbn [patch_nodes].
  - now intros [= <- <-].
  - destruct node as [| | | |l|fields]; try discriminate. cbn [get_default bind].
    destruct (dict_get fields (lit "root_path")) as [expected|] eqn:Eget.
    2:{ destruct (patch_nodes path_exists project_path rest) as [[b rest']|] eqn:Er;
          [|discriminate].
        cbn [bind fst snd]. intros [= <- <-]. cbn [patch_nodes get_default bind].
        rewrite Eget. cbn [bind]. now rewrite (IH _ _ eq_refl). }
    destruct expected as [|b|n|p|l|o]; cbn [truthy].
    + destruct (patch_nodes path_exists project_path rest) as [[b rest']|] eqn:Er;
        [|discriminate].
      cbn [bind fst snd]. intros [= <- <-]. cbn [patch_nodes get_default bind].
      rewrite Eget. cbn [bind]. now rewrite (IH _ _ eq_refl).
    + destruct b; [discriminate|]. intros [= <- <-].
      cbn [patch_nodes get_default bind]. now rewrite Eget.
    + destruct (negb (n =? 0)%Z) eqn:En; [discriminate|]. intros [= <- <-].
      cbn [patch_nodes get_default bind truthy]. rewrite Eget. cbn [truthy].
      now rewrite En.
    + destruct p as [|c p].
      * intros [= <- <-]. cbn [patch_nodes get_default bind]. now rewrite Eget.
      * destruct (path_exists (c :: p)) eqn:Ep; cbn [negb].
        -- intros [= <- <-]. cbn [patch_nodes get_default bind]. rewrite Eget.
           cbn [truthy]. now rewrite Ep.
        -- destruct (patch_nodes path_exists project_path rest) as [[b rest']|] eqn:Er;
             [|discriminate].
           cbn [bind fst snd]. intros [= <- <-]. cbn [patch_nodes get_default bind].
           rewrite dict_get_set_eq. cbn [bind].
           destruct project_path as [|c' p']; cbn [truthy]; [reflexivity|].
           now rewrite Hex.
    + destruct l; [|discriminate]. intros [= <- <-].
      cbn [patch_nodes get_default bind]. now rewrite Eget.
    + destruct o; [|discriminate]. intros [= <- <-].
      cbn [patch_nodes get_default bind]. now rewrite Eget.
Qed.

(** C8.  When the target project directory exists, as the docstring of
    [patch_partial_parse_content] requires of it, a second run on the file
    the first run left rewrites nothing and returns [False]. *)
Theorem patch_partial_parse_content_idempotent
    path_exists partial_parse_file project_path patched patched_file :
  path_exists project_path = true ->
  patch_partial_parse_content path_exists partial_parse_file project_path
  = Ok (patched, patched_file) ->
  patch_partial_parse_content path_exists patched_file project_path
  = Ok (false, patched_file).
Proof.
  intros Hex. unfold patch_partial_parse_content at 1.
  destruct partial_parse_file as [| |data]; [discriminate | now intros [= <- <-] |].
  destruct (nodes_of data) as [nodes|] eqn:En; [|discriminate]. cbn [bind].
  destruct (patch_nodes path_exists project_path nodes) as [[b nodes']|] eqn:Ep;
    [|discriminate].
  cbn [bind fst snd]. pose proof (patch_nodes_again _ _ _ _ _ Hex Ep) as Hagain.
  destruct b.
  - destruct data as [| | | | |top]; try discriminate. intros [= <- <-].
    unfold patch_partial_parse_content, nodes_of. cbn [subscript].
    rewrite dict_get_set_eq. cbn [of_option bind]. now rewrite Hagain.
  - intros [= <- <-]. unfold patch_partial_parse_content. rewrite En. cbn [bind].
    assert (Hsame : nodes' = nodes).
    { clear -Ep. revert nodes' Ep.
      induction nodes as [|[uid node] rest IH]; intros nodes'; cbn [patch_nodes].
      - now intros [= <-].
      - destruct (get_default node (lit "root_path") JNull) as [e|]; [|discriminate].
        cbn [bind].
        destruct e as [|b|n|p|l|o]; cbn [truthy];
          repeat match goal with
            | |- context [patch_nodes ?a ?b ?c] =>
                destruct (patch_nodes a b c) as [[? ?]|] eqn:?; cbn [bind fst snd]
            | |- context [if ?c then _ else _] => destruct c
            | |- context [match ?n with JObj _ => _ | _ => _ end] => destruct n
            end;
          try discriminate; try (now intros [= <-]).
        intros [= -> <-]. f_equal. now apply IH. }
    subst nodes'. now rewrite Hagain.
Qed.

Definition demo_artifact (root : string) : artifact :=
  Packed (JObj [(lit "nodes",
    JObj [(lit "model.jaffle.a", JObj [(lit "root_path", JStr (lit root))]);
          (lit "model.jaffle.b", JObj [(lit "root_path", JStr (lit root))])]);
    (lit "metadata", JNull)]).

Lemma patch_partial_parse_content_idempotent_witness :
  patch_partial_parse_content (str_eqb (lit "/tmp/project"))
    (demo_artifact "/tmp/project") (lit "/tmp/project")
  = Ok (false, demo_artifact "/tmp/project").
Proof.
  apply (patch_partial_parse_content_idempotent (str_eqb (lit "/tmp/project"))
           (demo_artifact "/usr/app/old") (lit "/tmp/project") true).
  - reflexivity.
  - reflexivity.
Defined.

(** *** The sweep *)

(** The most recent run of a DAG: one of its runs, no other being later. *)
Definition most_recent_run (runs : list DagRun) (d : str) (t : Z) : Prop :=
  (exists r, In r runs /\ dag_id r = d /\ execution_date r = t) /\
  (forall r, In r runs -> dag_id r = d -> (execution_date r <= t)%Z).

Lemma last_dag_run_fold runs d best :
  let step := fun best r =>
    if str_eqb (dag_id r) d then
      match best with
      | Some t => Some (Z.max t (execution_date r))
      | None => Some (execution_date r)
      end
    else best in
  match fold_left step runs best with
  | Some t =>
      ((best = Some t) \/ exists r, In r runs /\ dag_id r = d /\ execution_date r = t) /\
      (forall t0, best = Some t0 -> (t0 <= t)%Z) /\
      (forall r, In r runs -> dag_id r = d -> (execution_date r <= t)%Z)
  | None => best = None /\ forall r, In r runs -> dag_id r <> d
  end.
Proof.
  intros step. revert best. induction runs as [|r runs IH]; intros best; cbn [fold_left].
  - destruct best as [t|]; [|split; [reflexivity | intros r []]].
    split; [now left|]. split; [intros t0 [= ->]; lia | intros r []].
  - specialize (IH (step best r)).
    destruct (fold_left step runs (step best r)) as [t|].
    + destruct IH as (Hsrc & Hge & Hall). unfold step in Hsrc, Hge.
      destruct (str_eqb (dag_id r) d) eqn:E.
      * apply str_eqb_eq in E. split; [|split].
        -- destruct Hsrc as [Hb|(r' & Hin & Hd & Ht)].
           ++ destruct best as [t0|]; injection Hb as Hb.
              ** destruct (Z.max_spec t0 (execution_date r)) as [[_ Hm]|[_ Hm]];
                   rewrite Hm in Hb.
                 --- right. exists r. cbn. auto.
                 --- left. now subst.
              ** right. exists r. cbn. auto.
           ++ right. exists r'. cbn. auto.
        -- intros t0 ->. specialize (Hge _ eq_refl). lia.
        -- intros r' [<-|Hin] Hd; [|now apply Hall].
           destruct best as [t0|]; specialize (Hge _ eq_refl); lia.
      * apply str_eqb_neq in E. split; [|split].
        -- destruct Hsrc as [Hb|(r' & Hin & Hd & Ht)]; [now left|].
           right. exists r'. cbn. auto.
        -- exact Hge.
        -- intros r' [<-|Hin] Hd; [contradiction | now apply Hall].
    + destruct IH as (Hb & Hall). unfold step in Hb.
      destruct (str_eqb (dag_id r) d) eqn:E.
      * destruct best; discriminate.
      * apply str_eqb_neq in E. split; [exact Hb|].
        intros r' [<-|Hin]; [exact E | now apply Hall].
Qed.

Lemma last_dag_run_Some runs d t :
  last_dag_run runs (Some d) = Some t <-> most_recent_run runs d t.
Proof.
  unfold last_dag_run, most_recent_run.
  pose proof (last_dag_run_fold runs d None) as H. cbv zeta in H.
  destruct (fold_left _ runs None) as [t'|].
  - destruct H as ([H|H] & _ & Hall); [discriminate|]. split.
    + intros [= <-]. split; [exact H | exact Hall].
    + intros [(r & Hin & Hd & Ht) Hmax]. f_equal.
      destruct H as (r' & Hin' & Hd' & Ht').
      specialize (Hmax _ Hin' Hd'). specialize (Hall _ Hin Hd). lia.
  - destruct H as [_ Hnone]. split; [discriminate|].
    intros [(r & Hin & Hd & _) _]. now destruct (Hnone r Hin).
Qed.

Lemma last_dag_run_None runs d :
  last_dag_run runs (Some d) = None <-> forall r, In r runs -> dag_id r <> d.
Proof.
  unfold last_dag_run.
  pose proof (last_dag_run_fold runs d None) as H. cbv zeta in H.
  destruct (fold_left _ runs None) as [t'|].
  - destruct H as ([H|(r & Hin & Hd & _)] & _); [discriminate|].
    split; [discriminate|]. intros Hno. now destruct (Hno r Hin).
  - destruct H as [_ Hnone]. split; auto.
Qed.

Lemma unused_spec runs now max_age dag :
  unused runs now max_age dag = true <->
  exists d t, dag = Some d /\ most_recent_run runs d t /\ (t < now - max_age)%Z.
Proof.
  unfold unused. destruct dag as [d|].
  - destruct (last_dag_run runs (Some d)) as [t|] eqn:E.
    + apply last_dag_run_Some in E. rewrite Z.ltb_lt. split.
      * intros Hlt. now exists d, t.
      * intros (d' & t' & [= <-] & Hm & Hlt).
        apply last_dag_run_Some in E, Hm. rewrite E in Hm. now injection Hm as ->.
    + split; [discriminate|]. intros (d' & t' & [= <-] & Hm & _).
      apply last_dag_run_Some in Hm. congruence.
  - cbn. split; [discriminate|]. now intros (d & t & [=] & _).
Qed.

(** The entity a stored cache belongs to, read from its metadata. *)
Definition entity (v : Var) : option str :=
  match val v with
  | Json j => match dag_id_of j with Ok d => d | Raise _ => None end
  | NotJson => None
  end.

Definition is_cache (v : Var) : bool := startswith (key v) VAR_KEY_CACHE_PREFIX.

(** A Variable the sweep reads without an exception: not a Cosmos cache,
    or JSON with a [dag_id] that is a string or null. *)
Definition readable (v : Var) : Prop :=
  is_cache v = true -> exists j d, val v = Json j /\ dag_id_of j = Ok d.

(** The caches the sweep is after. *)
Definition stale (runs : list DagRun) (now max_age : Z) (v : Var) : bool :=
  is_cache v && unused runs now max_age (entity v).

Definition entries (vars : list Var) : list (option str * str) :=
  map (fun v => (entity v, key v)) (List.filter is_cache vars).

Definition flat (groups : list (option str * list str)) : list (option str * str) :=
  concat (map (fun g => map (pair (fst g)) (snd g)) groups).

Lemma flat_group_append groups dag k :
  flat (group_append groups dag k) ≡ₚ flat groups ++ [(dag, k)].
Proof.
  unfold flat. induction groups as [|[dag' ks] groups IH]; cbn.
  - reflexivity.
  - case_bool_decide as E; cbn.
    + subst dag'. rewrite map_app. cbn. rewrite <- !app_assoc.
      apply Permutation_app_head. apply Permutation_app_comm.
    + rewrite IH. now rewrite app_assoc.
Qed.

Lemma collect_entries vars groups total :
  Forall readable vars ->
  exists groups',
    collect vars groups total = Ok (groups', (total + Z.of_nat (length (entries vars)))%Z)
    /\ flat groups' ≡ₚ flat groups ++ entries vars.
Proof.
  intros Hr. revert groups total.
  induction Hr as [|v vars Hv _ IH]; intros groups total; cbn [collect].
  - exists groups. unfold entries. cbn. rewrite Z.add_0_r, app_nil_r. auto.
  - unfold entries. cbn [List.filter]. unfold readable in Hv. unfold is_cache in *.
    destruct (startswith (key v) VAR_KEY_CACHE_PREFIX) eqn:E.
    + destruct (Hv eq_refl) as (j & d & Hj & Hd).
      rewrite Hj. cbn [json_loads bind]. rewrite Hd. cbn [bind].
      destruct (IH (group_append groups d (key v)) (total + 1)%Z) as (g' & Hc & Hp).
      exists g'. split.
      * rewrite Hc. do 2 f_equal. cbn [map length]. unfold entries, is_cache. lia.
      * rewrite Hp, flat_group_append. cbn [map]. unfold entity. rewrite Hj, Hd.
        rewrite <- app_assoc. reflexivity.
    + destruct (IH groups total) as (g' & Hc & Hp). exists g'. auto.
Qed.

Definition kept (ks : list str) (v : Var) : bool :=
  forallb (fun k => negb (str_eqb (key v) k)) ks.

Lemma delete_keys_filter ks vars deleted :
  delete_keys ks vars deleted
  = (List.filter (kept ks) vars, (deleted + Z.of_nat (length ks))%Z).
Proof.
  revert vars deleted. induction ks as [|k ks IH]; intros vars deleted;
    cbn [delete_keys].
  - f_equal; [|cbn; lia]. induction vars as [|v vars IHv]; [reflexivity|].
    cbn. now rewrite <- IHv.
  - rewrite IH. f_equal; [|cbn [length]; lia].
    unfold Variable_delete. clear.
    induction vars as [|v vars IHv]; [reflexivity|].
    cbn [List.filter kept forallb]. fold (kept ks v).
    destruct (negb (str_eqb (key v) k)); cbn [List.filter andb];
      [destruct (kept ks v)|]; now rewrite IHv.
Qed.

Lemma kept_app ks1 ks2 v : kept (ks1 ++ ks2) v = kept ks1 v && kept ks2 v.
Proof. unfold kept. apply forallb_app. Qed.

Lemma filter_filter_kept ks1 ks2 (vars : list Var) :
  List.filter (kept ks2) (List.filter (kept ks1) vars)
  = List.filter (kept (ks1 ++ ks2)) vars.
Proof.
  induction vars as [|v vars IH]; [reflexivity|].
  cbn [List.filter]. rewrite kept_app.
  destruct (kept ks1 v); cbn [List.filter andb]; [destruct (kept ks2 v)|];
    now rewrite IH.
Qed.

(** The keys of the groups whose entity was not run for too long. *)
Definition doomed (runs : list DagRun) (now max_age : Z)
    (groups : list (option str * list str)) : list str :=
  concat (map snd (List.filter (fun g => unused runs now max_age (fst g)) groups)).

Lemma sweep_filter runs now max_age groups vars deleted :
  sweep runs now max_age groups vars deleted
  = (List.filter (kept (doomed runs now max_age groups)) vars,
     (deleted + Z.of_nat (length (doomed runs now max_age groups)))%Z).
Proof.
  revert vars deleted. unfold doomed.
  induction groups as [|[dag ks] groups IH]; intros vars deleted; cbn [sweep].
  - cbn [List.filter map concat length]. rewrite Z.add_0_r. f_equal.
    induction vars as [|v vars IHv]; [reflexivity|]. cbn. now rewrite <- IHv.
  - cbn [List.filter fst]. destruct (unused runs now max_age dag) eqn:E.
    + rewrite delete_keys_filter. cbn [fst snd]. rewrite IH.
      cbn [map concat snd]. rewrite filter_filter_kept, length_app.
      f_equal. lia.
    + apply IH.
Qed.

Lemma doomed_flat runs now max_age groups :
  doomed runs now max_age groups
  = map snd (List.filter (fun e => unused runs now max_age (fst e)) (flat groups)).
Proof.
  unfold doomed, flat. induction groups as [|[dag ks] groups IH]; [reflexivity|].
  cbn [List.filter map concat fst snd]. rewrite List.filter_app, map_app, <- IH.
  destruct (unused runs now max_age dag) eqn:E; cbn [map concat snd].
  - f_equal. induction ks as [|k ks IHk]; [reflexivity|].
    cbn [map List.filter fst]. rewrite E. cbn [map snd]. now rewrite <- IHk.
  - replace (List.filter _ (map (pair dag) ks)) with (@nil (option str * str));
      [reflexivity|].
    induction ks as [|k ks IHk]; [reflexivity|].
    cbn [map List.filter fst]. now rewrite E.
Qed.

Lemma Permutation_list_filter {A} (f : A -> bool) l1 l2 :
  l1 ≡ₚ l2 -> List.filter f l1 ≡ₚ List.filter f l2.
Proof.
  induction 1 as [|x l1 l2 _ IH|x y l|l1 l2 l3 _ IH1 _ IH2]; cbn [List.filter].
  - reflexivity.
  - destruct (f x); [now constructor | exact IH].
  - destruct (f x), (f y); try reflexivity. constructor.
  - now rewrite IH1.
Qed.

Lemma stale_entries runs now max_age vars :
  map snd (List.filter (fun e => unused runs now max_age (fst e)) (entries vars))
  = map key (List.filter (stale runs now max_age) vars).
Proof.
  unfold entries, stale. induction vars as [|v vars IH]; [reflexivity|].
  cbn [List.filter]. destruct (is_cache v); cbn [map List.filter fst andb].
  - destruct (unused runs now max_age (entity v)); cbn [map snd]; now rewrite IH.
  - exact IH.
Qed.

Lemma kept_spec ks v : kept ks v = true <-> ~ In (key v) ks.
Proof.
  unfold kept. induction ks as [|k ks IH]; cbn [forallb In]; [tauto|].
  rewrite andb_true_iff, IH, negb_true_iff, str_eqb_neq. split.
  - intros [Hne Hn] [Heq|Hin]; [now apply Hne | contradiction].
  - intros Hn. split; [intros Heq | intros Hin]; apply Hn; [left | right]; auto.
Qed.

Lemma key_inj vars v v' :
  NoDup (map key vars) -> In v vars -> In v' vars -> key v = key v' -> v = v'.
Proof.
  induction vars as [|w vars IH]; cbn [map In]; [tauto|].
  intros Hnd. apply NoDup_cons in Hnd as [Hw Hnd].
  intros [<-|Hv] [<-|Hv'] Hk; auto.
  - exfalso. apply Hw. rewrite Hk. apply list_elem_of_In, in_map, Hv'.
  - exfalso. apply Hw. rewrite <- Hk. apply list_elem_of_In, in_map, Hv.
Qed.

(** C5.  When no two Variables share a key and every Cosmos cache among
    them is JSON with a [dag_id], the sweep ends normally, the Variables
    left are those that are not stale, and the number returned is the
    number of stale ones; a Variable is stale exactly when it is a Cosmos
    cache whose [dag_id] names a DAG with a run, the most recent of them
    strictly before [now - max_age_last_usage].  A cache of a DAG with no
    run is therefore kept. *)
Theorem delete_unused_dbt_ls_cache_deletes_stale max_age_last_usage now (s : Session) :
  NoDup (map key (variables s)) ->
  Forall readable (variables s) ->
  delete_unused_dbt_ls_cache max_age_last_usage now (Some s)
  = Ok (Z.of_nat (length (List.filter (stale (dag_runs s) now max_age_last_usage)
                            (variables s))),
        Some {| variables :=
                  List.filter (fun v => negb (stale (dag_runs s) now max_age_last_usage v))
                    (variables s);
                dag_runs := dag_runs s |})
  /\ (forall v, stale (dag_runs s) now max_age_last_usage v = true <->
       is_cache v = true /\
       exists d t, entity v = Some d /\ most_recent_run (dag_runs s) d t
                   /\ (t < now - max_age_last_usage)%Z)
  /\ (forall v d, entity v = Some d ->
       (forall r, In r (dag_runs s) -> dag_id r <> d) ->
       stale (dag_runs s) now max_age_last_usage v = false).
Proof.
  intros Hnd Hr. split; [|split].
  - unfold delete_unused_dbt_ls_cache.
    destruct (collect_entries (variables s) [] 0%Z Hr) as (groups & Hc & Hp).
    rewrite Hc. cbn [bind fst snd]. rewrite sweep_filter. cbn [fst snd].
    cbn [flat map concat app] in Hp.
    assert (Hd : doomed (dag_runs s) now max_age_last_usage groups
                 ≡ₚ map key (List.filter (stale (dag_runs s) now max_age_last_usage)
                              (variables s))).
    { rewrite doomed_flat, <- stale_entries.
      apply Permutation_map, Permutation_list_filter, Hp. }
    do 2 f_equal.
    + rewrite (Permutation_length Hd), length_map. lia.
    + do 2 f_equal. apply filter_ext_in. intros v Hv.
      destruct (stale (dag_runs s) now max_age_last_usage v) eqn:Es; cbn [negb].
      * apply not_true_iff_false. rewrite kept_spec. intros Hn. apply Hn.
        apply (Permutation_in _ (Permutation_sym Hd)).
        apply in_map. apply filter_In. auto.
      * apply kept_spec. intros Hin.
        apply (Permutation_in _ Hd) in Hin.
        apply in_map_iff in Hin as (v' & Hk & Hv').
        apply filter_In in Hv' as [Hv' Hs'].
        assert (v' = v) by (eapply key_inj; eauto). subst v'. congruence.
  - intros v. unfold stale. rewrite andb_true_iff, unused_spec. split.
    + intros [Hc (d & t & Hd & Hm & Hlt)]. split; [exact Hc|]. now exists d, t.
    + intros [Hc (d & t & Hd & Hm & Hlt)]. split; [exact Hc|]. now exists d, t.
  - intros v d Hd Hno. unfold stale, unused. rewrite Hd.
    apply last_dag_run_None in Hno. rewrite Hno. apply andb_false_r.
Qed.

(** The Variables of the docstring of [delete_unused_dbt_ls_cache] and one
    that is no cache; the DAG was run a week ago, the DAG of the two task
    groups an hour ago, times in seconds. *)
Definition cache_of (k dag : string) : Var :=
  {| key := lit k; val := Json (JObj [(lit "version", JStr (lit "v"));
                                      (lit "dag_id", JStr (lit dag))]) |}.

Definition demo_session : Session :=
  {| variables :=
       [ cache_of "cosmos_cache__basic_cosmos_dag" "basic_cosmos_dag";
         {| key := lit "unrelated"; val := NotJson |};
         cache_of "cosmos_cache__basic_cosmos_task_group__orders" "basic_cosmos_task_group";
         cache_of "cosmos_cache__basic_cosmos_task_group__customers" "basic_cosmos_task_group";
         cache_of "cosmos_cache__never_run" "never_run" ];
     dag_runs :=
       [ {| dag_id := lit "basic_cosmos_dag"; execution_date := 1000000 - 1209600 |};
         {| dag_id := lit "basic_cosmos_task_group"; execution_date := 1000000 - 3600 |};
         {| dag_id := lit "basic_cosmos_dag"; execution_date := 1000000 - 604800 |} ] |}.

Lemma readable_check vars :
  forallb (fun v =>
    negb (is_cache v) ||
    match val v with
    | Json j => match dag_id_of j with Ok _ => true | Raise _ => false end
    | NotJson => false
    end) vars = true ->
  Forall readable vars.
Proof.
  intros H. apply Forall_forall. intros v Hv. apply list_elem_of_In in Hv.
  rewrite forallb_forall in H. specialize (H v Hv). intros Hc. rewrite Hc in H.
  cbn [negb orb] in H. destruct (val v) as [j|]; [|discriminate].
  destruct (dag_id_of j) as [d|] eqn:Ed; [|discriminate]. now exists j, d.
Qed.

Lemma delete_unused_dbt_ls_cache_deletes_stale_witness :
  delete_unused_dbt_ls_cache 432000 1000000 (Some demo_session)
  = Ok (1%Z, Some {| variables := tl (variables demo_session);
                     dag_runs := dag_runs demo_session |}).
Proof.
  apply (delete_unused_dbt_ls_cache_deletes_stale 432000 1000000 demo_session).
  - apply (bool_decide_eq_true_1 (NoDup (map key (variables demo_session)))).
    vm_compute. reflexivity.
  - apply readable_check. reflexivity.
Defined.

End CacheFacts.
Export CacheFacts.

Module GraphFacts.
Import Graph.

(** *** Running a computation *)

Lemma run_bind {A B} (m : M A) (f : A -> M B) w :
  (m ≫= f) w =
  match m w with
  | (Ok a, w') => f a w'
  | (Raise e, w') => (Raise e, w')
  end.
Proof. reflexivity. Qed.

Lemma run_lift_bind {A B} (r : result A) (f : A -> M B) w :
  (lift r ≫= f) w =
  match r with
  | Ok a => f a w
  | Raise e => (Raise e, w)
  end.
Proof. unfold mbind, M_bind, lift. now destruct r. Qed.

Lemma run_modify_bind {B} (g : World -> World) (f : unit -> M B) w :
  (modify g ≫= f) w = f tt (g w).
Proof. reflexivity. Qed.

Lemma run_read_bind {A B} (g : World -> A) (f : A -> M B) w :
  (read g ≫= f) w = f (g w) w.
Proof. reflexivity. Qed.

Lemma run_ret {A} (a : A) w : (mret a : M A) w = (Ok a, w).
Proof. reflexivity. Qed.

(** *** The Variables *)

Lemma Variable_text_set vars k value :
  Variable_text (Variable_set vars k value) k = Some (Cache.Json value).
Proof.
  induction vars as [|v vars IH]; cbn.
  - now rewrite str_eqb_refl.
  - destruct (str_eqb (Cache.key v) k) eqn:E; cbn.
    + now rewrite str_eqb_refl.
    + now rewrite E.
Qed.

Lemma Variable_get_set vars k value :
  Variable_get (Variable_set vars k value) k = Ok value.
Proof. unfold Variable_get. now rewrite Variable_text_set. Qed.

Lemma dict_get_update_None {V} (d e : dict V) k :
  dict_get e k = None -> dict_get (dict_update d e) k = dict_get d k.
Proof.
  unfold dict_update. revert d. induction e as [|[k' v'] e IH]; intros d; cbn.
  - reflexivity.
  - destruct (str_eqb k' k) eqn:E; [discriminate|]. intros H.
    rewrite (IH _ H). apply dict_get_set_ne. now apply str_eqb_neq.
Qed.

Lemma dict_get_del_ne {V} (d : dict V) k k' :
  k <> k' -> dict_get (dict_del d k) k' = dict_get d k'.
Proof.
  intros Hne. induction d as [|[k0 v0] d IH]; cbn; [reflexivity|].
  destruct (str_eqb k0 k) eqn:E; cbn.
  - apply str_eqb_eq in E. subst k0. apply str_eqb_neq in Hne. now rewrite Hne.
  - now rewrite IH.
Qed.

(** C2.  For a text of Unicode scalar values, a [zlib] that decompresses
    what it compressed and never writes nothing, metadata that does not
    carry a [dbt_ls_compressed] of their own and arguments whose version
    can be computed: [save_dbt_ls_cache] stores the record, and
    [get_dbt_ls_cache] then returns a record whose [dbt_ls] is the text. *)
Theorem dbt_ls_cache_round_trip (E : Env) (w : World) (dbt_ls_output : str) :
  (forall data, zlib_decompress E (zlib_compress E data) = Some data) ->
  (forall data, zlib_compress E data <> []) ->
  Forall Utf8.scalar dbt_ls_output ->
  dict_get (airflow_metadata E) (lit "dbt_ls_compressed") = None ->
  (exists version, current_version E = Ok version) ->
  exists w' cache_dict,
    save_dbt_ls_cache E dbt_ls_output w = (Ok tt, w') /\
    get_dbt_ls_cache E (airflow_variables w') = Ok cache_dict /\
    dict_get cache_dict (lit "dbt_ls") = Some (JStr dbt_ls_output).
Proof.
  intros Hzlib Hnonempty Hscalar Hmeta [version Hversion].
  destruct (Utf8Facts.encode_total _ Hscalar) as [utf8 Hutf8].
  pose proof (Base64Facts.b64encode_ascii (zlib_compress E utf8)) as Hascii.
  pose proof (Base64Facts.b64encode_nonempty _ (Hnonempty utf8)) as Hne.
  unfold save_dbt_ls_cache.
  rewrite run_lift_bind, Hutf8, run_lift_bind.
  rewrite (Utf8Facts.decode_ascii _ Hascii), run_lift_bind, Hversion.
  eexists _, _. split; [reflexivity|].
  unfold modify, set_airflow_variables, get_dbt_ls_cache. cbn [airflow_variables].
  rewrite Variable_get_set. unfold decompress_record.
  rewrite dict_get_update_None by exact Hmeta. cbn [dict_get].
  replace (str_eqb (lit "version") (lit "dbt_ls_compressed")) with false by reflexivity.
  rewrite str_eqb_refl.
  destruct (map Byte.to_N (Base64.b64encode (zlib_compress E utf8))) as [|c text] eqn:Etext.
  { destruct (Base64.b64encode (zlib_compress E utf8)); [congruence | discriminate]. }
  cbn [truthy]. rewrite <- Etext.
  rewrite (Utf8Facts.encode_ascii _ Hascii). cbn [bind].
  rewrite Base64Facts.b64decode_b64encode. cbn [bind].
  rewrite Hzlib. cbn [of_option bind].
  rewrite (Utf8Facts.decode_encode _ _ Hutf8). cbn [bind].
  split; [reflexivity|]. apply dict_get_set_eq.
Qed.

Lemma dbt_ls_cache_round_trip_witness :
  exists w' cache_dict,
    save_dbt_ls_cache (demo_env [(lit "dag_id", JStr (lit "jaffle_dag"))] None [] [])
      (lit "model a" ++ [0x20AC; 10] ++ lit "test t a") (new_graph []) = (Ok tt, w') /\
    get_dbt_ls_cache (demo_env [(lit "dag_id", JStr (lit "jaffle_dag"))] None [] [])
      (airflow_variables w') = Ok cache_dict /\
    dict_get cache_dict (lit "dbt_ls")
    = Some (JStr (lit "model a" ++ [0x20AC; 10] ++ lit "test t a")).
Proof.
  apply (dbt_ls_cache_round_trip
           (demo_env [(lit "dag_id", JStr (lit "jaffle_dag"))] None [] [])
           (new_graph []) (lit "model a" ++ [0x20AC; 10] ++ lit "test t a")).
  - intros data. reflexivity.
  - intros data. discriminate.
  - apply Utf8Facts.scalar_check. reflexivity.
  - reflexivity.
  - eexists. vm_compute. reflexivity.
Defined.

(** A stored value that is JSON and that the [else] branch of
    [get_dbt_ls_cache] cannot read, with the exception it meets: a value
    that is not a mapping has no [pop] of two arguments, and the payload,
    when it is a string that is not empty, has to be encoded, decoded
    from base64, decompressed and decoded. *)
Inductive unreadable (E : Env) : json -> exn -> Prop :=
| unreadable_list l : unreadable E (JArr l) TypeError
| unreadable_null : unreadable E JNull AttributeError
| unreadable_bool b : unreadable E (JBool b) AttributeError
| unreadable_number n : unreadable E (JNum n) AttributeError
| unreadable_string s : unreadable E (JStr s) AttributeError
| unreadable_text record text e :
    dict_get record (lit "dbt_ls_compressed") = Some (JStr text) -> text <> [] ->
    Utf8.encode text = Raise e ->
    unreadable E (JObj record) e
| unreadable_base64 record text ascii e :
    dict_get record (lit "dbt_ls_compressed") = Some (JStr text) -> text <> [] ->
    Utf8.encode text = Ok ascii -> Base64.b64decode ascii = Raise e ->
    unreadable E (JObj record) e
| unreadable_zlib record text ascii encoded_data :
    dict_get record (lit "dbt_ls_compressed") = Some (JStr text) -> text <> [] ->
    Utf8.encode text = Ok ascii -> Base64.b64decode ascii = Ok encoded_data ->
    zlib_decompress E encoded_data = None ->
    unreadable E (JObj record) ZlibError
| unreadable_utf8 record text ascii encoded_data raw e :
    dict_get record (lit "dbt_ls_compressed") = Some (JStr text) -> text <> [] ->
    Utf8.encode text = Ok ascii -> Base64.b64decode ascii = Ok encoded_data ->
    zlib_decompress E encoded_data = Some raw -> Utf8.decode raw = Raise e ->
    unreadable E (JObj record) e.

Lemma decompress_record_unreadable E stored e :
  unreadable E stored e -> decompress_record E stored = Raise e.
Proof.
  intros H. destruct H as [l| |b|n|s|record text e Hget Hne He
                           |record text ascii e Hget Hne Ha He
                           |record text ascii encoded_data Hget Hne Ha Hb Hz
                           |record text ascii encoded_data raw e Hget Hne Ha Hb Hz He];
    try reflexivity; unfold decompress_record; rewrite Hget;
    (destruct text as [|c text]; [congruence|]); cbn [truthy].
  - now rewrite He.
  - rewrite Ha. cbn [bind]. now rewrite He.
  - rewrite Ha. cbn [bind]. rewrite Hb. cbn [bind]. now rewrite Hz.
  - rewrite Ha. cbn [bind]. rewrite Hb. cbn [bind]. rewrite Hz. cbn [of_option bind].
    now rewrite He.
Qed.

(** C4, as amended.  When no Variable has the key of the cache, or the
    one that has it does not hold JSON, [get_dbt_ls_cache] returns the
    empty mapping, and [load_via_dbt_ls_cache] reports a miss and leaves
    the graph as it was.  When the Variable holds JSON that cannot be
    read, [get_dbt_ls_cache] raises the exception met, and so do
    [load_via_dbt_ls_cache], when the cache is in use, and the [load]
    that asked for it. *)
Theorem get_dbt_ls_cache_miss_when_absent_or_not_json (E : Env) (w : World) :
  (Variable_text (airflow_variables w) (dbt_ls_cache_key E) = None \/
   Variable_text (airflow_variables w) (dbt_ls_cache_key E) = Some Cache.NotJson ->
   get_dbt_ls_cache E (airflow_variables w) = Ok [] /\
   (forall p, project_path E = Ok p -> load_via_dbt_ls_cache E w = (Ok false, w))) /\
  (forall stored e,
     Variable_text (airflow_variables w) (dbt_ls_cache_key E) = Some (Cache.Json stored) ->
     unreadable E stored e ->
     get_dbt_ls_cache E (airflow_variables w) = Raise e /\
     (should_use_dbt_ls_cache E = true ->
      forall p, project_path E = Ok p ->
        load_via_dbt_ls_cache E w = (Raise e, w) /\
        forall mode,
          load E DBT_LS mode w = (Raise e, w) /\
          load E DBT_LS_CACHE mode w = (Raise e, w))).
Proof.
  split.
  - intros H.
    assert (Hget : get_dbt_ls_cache E (airflow_variables w) = Ok []).
    { unfold get_dbt_ls_cache, Variable_get. now destruct H as [-> | ->]. }
    split; [exact Hget|]. intros p Hp. unfold load_via_dbt_ls_cache.
    destruct (should_use_dbt_ls_cache E); [|reflexivity].
    rewrite run_lift_bind, Hp, run_read_bind, run_lift_bind, Hget. reflexivity.
  - intros stored e Hstored Hbad.
    assert (Hget : get_dbt_ls_cache E (airflow_variables w) = Raise e).
    { unfold get_dbt_ls_cache, Variable_get. rewrite Hstored. cbn [Cache.json_loads].
      now apply decompress_record_unreadable. }
    split; [exact Hget|]. intros Hon p Hp.
    assert (Hcache : load_via_dbt_ls_cache E w = (Raise e, w)).
    { unfold load_via_dbt_ls_cache. rewrite Hon.
      rewrite run_lift_bind, Hp, run_read_bind, run_lift_bind, Hget. reflexivity. }
    split; [exact Hcache|]. intros mode. unfold load. cbn [load_strategy].
    unfold load_via_dbt_ls. rewrite !run_bind, Hcache. split; reflexivity.
Qed.

Lemma get_dbt_ls_cache_miss_when_absent_or_not_json_witness :
  (get_dbt_ls_cache (demo_env [] None [] [])
     [ {| Cache.key := Cache.create_cache_key (lit "jaffle_dag");
          Cache.val := Cache.NotJson |} ] = Ok [] /\
   (forall p, project_path (demo_env [] None [] []) = Ok p ->
    load_via_dbt_ls_cache (demo_env [] None [] [])
      (new_graph [ {| Cache.key := Cache.create_cache_key (lit "jaffle_dag");
                      Cache.val := Cache.NotJson |} ])
    = (Ok false,
       new_graph [ {| Cache.key := Cache.create_cache_key (lit "jaffle_dag");
                      Cache.val := Cache.NotJson |} ]))) /\
  get_dbt_ls_cache (demo_env [] None [] [])
    [ {| Cache.key := Cache.create_cache_key (lit "jaffle_dag");
         Cache.val := Cache.Json (JArr []) |} ] = Raise TypeError.
Proof.
  split.
  - apply (proj1 (get_dbt_ls_cache_miss_when_absent_or_not_json (demo_env [] None [] [])
                    (new_graph [ {| Cache.key := Cache.create_cache_key (lit "jaffle_dag");
                                    Cache.val := Cache.NotJson |} ]))).
    right. reflexivity.
  - apply (proj2 (get_dbt_ls_cache_miss_when_absent_or_not_json (demo_env [] None [] [])
                    (new_graph [ {| Cache.key := Cache.create_cache_key (lit "jaffle_dag");
                                    Cache.val := Cache.Json (JArr []) |} ]))
             (JArr []) TypeError).
    + reflexivity.
    + constructor.
Defined.

(** A record whose payload lost all but one character. *)
Definition truncated_record : list Cache.Var :=
  [ {| Cache.key := Cache.create_cache_key (lit "jaffle_dag");
       Cache.val := Cache.Json (JObj [ (lit "version", JStr (lit "v1"));
                                       (lit "dbt_ls_compressed", JStr (lit "e")) ]) |} ].

(** C4 as stated fails: a stored record that is JSON with a damaged
    payload makes [get_dbt_ls_cache] raise, and the load that asked for
    the cache ends with that exception. *)
Lemma get_dbt_ls_cache_corrupt_payload_raises :
  get_dbt_ls_cache (demo_env [] None [] []) truncated_record = Raise BinasciiError /\
  fst (load (demo_env [] None [] []) DBT_LS LOCAL (new_graph truncated_record))
  = Raise BinasciiError.
Proof. split; vm_compute; reflexivity. Qed.

(** What a hit of the cache means. *)
Lemma load_via_dbt_ls_cache_hit (E : Env) (w w' : World) :
  load_via_dbt_ls_cache E w = (Ok true, w') ->
  exists cache_dict version ls_stdout p d w1,
    get_dbt_ls_cache E (airflow_variables w) = Ok cache_dict /\
    current_version E = Ok version /\
    dict_get cache_dict (lit "version") = Some (JStr version) /\
    dict_get cache_dict (lit "dbt_ls") = Some (JStr ls_stdout) /\
    project_path E = Ok p /\
    parse_dbt_ls_output E p ls_stdout (set_load_method DBT_LS_CACHE w) = (Ok d, w1) /\
    w' = set_filtered_nodes d (set_nodes d w1).
Proof.
  unfold load_via_dbt_ls_cache.
  destruct (should_use_dbt_ls_cache E); [|discriminate].
  rewrite run_lift_bind. destruct (project_path E) as [p|] eqn:Ep; [|discriminate].
  rewrite run_read_bind, run_lift_bind.
  destruct (get_dbt_ls_cache E (airflow_variables w)) as [cache_dict|] eqn:Eg;
    [|discriminate].
  destruct cache_dict as [|entry cache_dict]; [discriminate|].
  set (cd := entry :: cache_dict) in *.
  rewrite run_lift_bind.
  destruct (current_version E) as [version|] eqn:Ev; [|discriminate].
  destruct (dict_get cd (lit "dbt_ls")) as [payload|] eqn:Epayload; [|discriminate].
  destruct (truthy payload) eqn:Etruthy; [|discriminate].
  rewrite run_lift_bind.
  destruct (dict_get cd (lit "version")) as [stored|] eqn:Estored;
    [|discriminate].
  destruct stored as [| | |stored| |]; try discriminate.
  cbn [version_modified]. unfold Cache.was_project_modified.
  rewrite negb_involutive.
  destruct (str_eqb stored version) eqn:Esame; [|discriminate].
  apply str_eqb_eq in Esame. subst stored.
  rewrite run_lift_bind.
  destruct payload as [| | |ls_stdout|l|o]; try discriminate.
  rewrite run_modify_bind, run_lift_bind, run_bind.
  destruct (parse_dbt_ls_output E p ls_stdout (set_load_method DBT_LS_CACHE w))
    as [[d|e] w1] eqn:Eparse; [|discriminate].
  rewrite !run_modify_bind, run_ret. intros [= <-].
  now exists cd, version, ls_stdout, p, d, w1.
Qed.

(** A miss leaves the graph as it was. *)
Lemma load_via_dbt_ls_cache_miss (E : Env) (w w' : World) :
  load_via_dbt_ls_cache E w = (Ok false, w') -> w' = w.
Proof.
  unfold load_via_dbt_ls_cache.
  destruct (should_use_dbt_ls_cache E); [|now intros [= <-]].
  rewrite run_lift_bind. destruct (project_path E) as [p|]; [|discriminate].
  rewrite run_read_bind, run_lift_bind.
  destruct (get_dbt_ls_cache E (airflow_variables w)) as [cache_dict|]; [|discriminate].
  destruct cache_dict as [|entry cache_dict]; [now intros [= <-]|].
  rewrite run_lift_bind. destruct (current_version E) as [version|]; [|discriminate].
  destruct (dict_get (entry :: cache_dict) (lit "dbt_ls")) as [payload|];
    [|now intros [= <-]].
  destruct (truthy payload); [|now intros [= <-]].
  rewrite run_lift_bind.
  destruct (version_modified _ version) as [modified|]; [|discriminate].
  destruct modified; cbn [negb]; [now intros [= <-]|].
  rewrite run_lift_bind.
  match goal with |- context [match ?r with Ok _ => _ | Raise _ => _ end] =>
    destruct r; [|discriminate] end.
  rewrite run_modify_bind, run_lift_bind.
  match goal with |- context [match ?r with Ok _ => _ | Raise _ => _ end] =>
    destruct r; [|discriminate] end.
  rewrite run_bind.
  destruct (parse_dbt_ls_output E p _ _) as [[d|e] w1]; [|discriminate].
  rewrite !run_modify_bind, run_ret. discriminate.
Qed.




End GraphFacts.
Export GraphFacts.

Module PropagationFacts.
Import Graph.

(** *** Objects and dictionaries after a step *)

Lemma update_eq {A} (f : nat -> A) i a : update f i a i = a.
Proof. unfold update. now rewrite Nat.eqb_refl. Qed.

Lemma update_ne {A} (f : nat -> A) i j a : j <> i -> update f i a j = f j.
Proof. intros H. unfold update. apply Nat.eqb_neq in H. now rewrite H. Qed.

Lemma data_le_refl n : data_le n n.
Proof. unfold data_le. tauto. Qed.

Lemma data_le_trans n1 n2 n3 : data_le n1 n2 -> data_le n2 n3 -> data_le n1 n3.
Proof.
  unfold data_le. intros (U1 & R1 & D1 & F1 & T1 & C1 & H1) (U2 & R2 & D2 & F2 & T2 & C2 & H2).
  repeat split; try congruence. auto.
Qed.

Lemma data_le_is_test n n' : data_le n n' -> is_test n' = is_test n.
Proof. intros (_ & R & _). unfold is_test. now rewrite R. Qed.

Lemma data_le_unique_id n n' : data_le n n' -> unique_id n' = unique_id n.
Proof. now intros (U & _). Qed.

Lemma data_le_depends_on n n' : data_le n n' -> depends_on n' = depends_on n.
Proof. now intros (_ & _ & D & _). Qed.

Lemma data_le_has_test n n' : data_le n n' -> has_test n = true -> has_test n' = true.
Proof. intros (_ & _ & _ & _ & _ & _ & H). exact H. Qed.

Lemma set_has_test_objects t w r : data_le (objects w r) (objects (set_has_test t w) r).
Proof.
  unfold set_has_test. cbn [objects]. unfold update.
  destruct (r =? t)%nat eqn:E; [|apply data_le_refl].
  apply Nat.eqb_eq in E. subst r. unfold data_le. cbn. tauto.
Qed.

Lemma set_has_test_marks t w : has_test (objects (set_has_test t w) t) = true.
Proof. unfold set_has_test. cbn [objects]. now rewrite update_eq. Qed.

Lemma dict_store_filtered d k v w :
  d = filtered_nodes w ->
  filtered_entries (dict_store d k v w) = dict_set (filtered_entries w) k v.
Proof.
  intros ->. unfold filtered_entries, dict_store. cbn [dicts filtered_nodes].
  now rewrite update_eq.
Qed.

Lemma dict_store_other d k v w d' : d' <> d -> dicts (dict_store d k v w) d' = dicts w d'.
Proof. intros H. unfold dict_store. cbn [dicts]. now apply update_ne. Qed.

Lemma In_dict_set {V} (d : dict V) k v k' v' :
  In (k', v') (dict_set d k v) -> In (k', v') d \/ (k' = k /\ v' = v).
Proof.
  induction d as [|[k0 v0] d IH]; cbn.
  - intros [[= <- <-]|[]]. now right.
  - destruct (str_eqb k0 k) eqn:E; cbn.
    + apply str_eqb_eq in E. subst k0. intros [[= <- <-]|H]; auto.
    + intros [H|H]; auto. destruct (IH H); auto.
Qed.

Lemma dict_set_same {V} (d : dict V) k v : dict_get d k = Some v -> dict_set d k v = d.
Proof.
  induction d as [|[k0 v0] d IH]; cbn; [discriminate|].
  destruct (str_eqb k0 k) eqn:E.
  - now intros [= ->].
  - intros H. now rewrite (IH H).
Qed.

Lemma keys_dict_set_incl {V} (d : dict V) k v k' :
  In k' (keys d) -> In k' (keys (dict_set d k v)).
Proof.
  rewrite keys_dict_set. destruct (dict_mem d k); [auto|]. intros H.
  apply in_or_app. now left.
Qed.

(** *** The two loops, step by step

    What holds of the world [w] during the propagation started in [w0]
    over the entries [items]. *)
Record during (w0 : World) (items : list (str * nat)) (w : World) : Prop := {
  during_nodes : nodes w = nodes w0;
  during_filtered : filtered_nodes w = filtered_nodes w0;
  during_load_method : load_method w = load_method w0;
  during_objects : forall r, data_le (objects w0 r) (objects w r);
  during_dicts : forall d, d <> filtered_nodes w0 -> dicts w d = dicts w0 d;
  during_keys :
    forall k, In k (keys (filtered_entries w0)) -> In k (keys (filtered_entries w));
  during_entries :
    forall k v, In (k, v) (filtered_entries w) ->
      In (k, v) (filtered_entries w0) \/
      (exists k0, In (k0, v) items /\ is_test (objects w0 v) = true
                  /\ unique_id (objects w0 v) = k);
  during_get :
    forall k v, dict_get (filtered_entries w) k = Some v ->
      dict_get (filtered_entries w0) k = Some v \/
      (exists k0, In (k0, v) items /\ is_test (objects w0 v) = true
                  /\ unique_id (objects w0 v) = k);
  during_frame :
    forall k,
      (forall k0 v, In (k0, v) items -> is_test (objects w0 v) = true ->
         unique_id (objects w0 v) <> k) ->
      dict_get (filtered_entries w) k = dict_get (filtered_entries w0) k
}.

Lemma during_start w0 items : during w0 items w0.
Proof. split; auto using data_le_refl. Qed.

Lemma during_set_has_test w0 items w t :
  during w0 items w -> during w0 items (set_has_test t w).
Proof.
  intros [Hn Hf Hl Ho Hd Hk He Hg Hfr]. split; auto.
  intros r. eapply data_le_trans; [apply Ho | apply set_has_test_objects].
Qed.

Lemma during_dict_store w0 items w k node :
  In (k, node) items -> is_test (objects w0 node) = true ->
  during w0 items w ->
  during w0 items
    (dict_store (filtered_nodes w) (unique_id (objects w node)) node w).
Proof.
  intros Hin Htest [Hn Hf Hl Ho Hd Hk He Hg Hfr].
  assert (Huid : unique_id (objects w node) = unique_id (objects w0 node))
    by apply data_le_unique_id, Ho.
  split; auto.
  - intros d Hne. rewrite dict_store_other by congruence. now apply Hd.
  - intros k' Hk'. rewrite dict_store_filtered by reflexivity.
    apply keys_dict_set_incl. now apply Hk.
  - intros k' v. rewrite dict_store_filtered by reflexivity. intros Hs.
    apply In_dict_set in Hs as [Hs|[-> ->]]; [now apply He|].
    right. exists k. now rewrite Huid.
  - intros k' v. rewrite dict_store_filtered by reflexivity.
    rewrite dict_get_set. destruct (str_eqb _ k') eqn:E; [|now apply Hg].
    apply str_eqb_eq in E. intros [= <-]. right. exists k. now rewrite <- E, Huid.
  - intros k' Hfree. rewrite dict_store_filtered by reflexivity.
    rewrite dict_get_set_ne; [now apply Hfr|].
    rewrite Huid. now apply (Hfree k node).
Qed.

Lemma mark_dependencies_during w0 items k node ids w :
  In (k, node) items -> is_test (objects w0 node) = true ->
  during w0 items w -> during w0 items (mark_dependencies node ids w).
Proof.
  intros Hin Htest. revert w. induction ids as [|id ids IH]; intros w Hw;
    cbn [mark_dependencies]; [exact Hw|].
  destruct (dict_get (dicts w (filtered_nodes w)) id) as [target|]; [|now apply IH].
  apply IH.
  apply (during_dict_store w0 items (set_has_test target w) k node Hin Htest).
  now apply during_set_has_test.
Qed.

Lemma visit_nodes_during_tail w0 items rest w :
  (forall kv, In kv rest -> In kv items) ->
  during w0 items w -> during w0 items (visit_nodes rest w).
Proof.
  revert w. induction rest as [|[k node] rest IH]; intros w Hsub Hw;
    cbn [visit_nodes]; [exact Hw|].
  assert (Hrest : forall kv, In kv rest -> In kv items) by (intros; apply Hsub; now right).
  destruct (is_test (objects w node)) eqn:Et; [|now apply IH].
  apply IH; [exact Hrest|].
  apply (mark_dependencies_during w0 items k node); [apply Hsub; now left | | exact Hw].
  rewrite <- Et. symmetry. apply data_le_is_test, (during_objects _ _ _ Hw).
Qed.

(** The world after the propagation, seen from the world before it. *)
Lemma visit_nodes_during items w : during w items (visit_nodes items w).
Proof. apply visit_nodes_during_tail; [auto | apply during_start]. Qed.

Lemma In_keys_dict_get {V} (d : dict V) k :
  In k (keys d) <-> exists v, dict_get d k = Some v.
Proof.
  rewrite <- dict_mem_keys. unfold dict_mem.
  destruct (dict_get d k) as [v|]; split; eauto; try discriminate.
  intros [v [=]].
Qed.

Lemma In_entries_keys {V} (d : dict V) k v : In (k, v) d -> In k (keys d).
Proof. intros H. unfold keys. now apply (in_map fst) in H. Qed.

Lemma In_keys_entries {V} (d : dict V) k : In k (keys d) -> exists v, In (k, v) d.
Proof.
  unfold keys. intros H. apply in_map_iff in H as ([k' v] & <- & H). now exists v.
Qed.

Lemma mark_dependencies_objects node ids w r :
  data_le (objects w r) (objects (mark_dependencies node ids w) r).
Proof.
  revert w. induction ids as [|id ids IH]; intros w; cbn [mark_dependencies];
    [apply data_le_refl|].
  destruct (dict_get (dicts w (filtered_nodes w)) id) as [target|]; [|apply IH].
  eapply data_le_trans; [|apply IH]. apply set_has_test_objects.
Qed.

(** *** A test node with a selected dependency enters [filtered_nodes] *)

Lemma mark_dependencies_keeps node ids w :
  dict_get (filtered_entries w) (unique_id (objects w node)) = Some node ->
  dict_get (filtered_entries (mark_dependencies node ids w)) (unique_id (objects w node))
  = Some node.
Proof.
  revert w. induction ids as [|id ids IH]; intros w Hw; cbn [mark_dependencies];
    [exact Hw|].
  destruct (dict_get (dicts w (filtered_nodes w)) id) as [target|]; [|now apply IH].
  set (w1 := set_has_test target w).
  assert (Huid : unique_id (objects w1 node) = unique_id (objects w node))
    by apply data_le_unique_id, set_has_test_objects.
  rewrite <- Huid.
  set (w2 := dict_store _ _ _ _).
  assert (Huid2 : unique_id (objects w2 node) = unique_id (objects w1 node)) by reflexivity.
  rewrite <- Huid2. apply IH. rewrite Huid2. unfold w2.
  rewrite dict_store_filtered by reflexivity. apply dict_get_set_eq.
Qed.

Lemma mark_dependencies_inserts node ids w id :
  In id ids -> In id (keys (filtered_entries w)) ->
  dict_get (filtered_entries (mark_dependencies node ids w)) (unique_id (objects w node))
  = Some node.
Proof.
  revert w. induction ids as [|id0 ids IH]; intros w Hin Hkey; [destruct Hin|].
  cbn [mark_dependencies].
  destruct (dict_get (dicts w (filtered_nodes w)) id0) as [target|] eqn:Eget.
  - set (w1 := set_has_test target w).
    assert (Huid : unique_id (objects w1 node) = unique_id (objects w node))
      by apply data_le_unique_id, set_has_test_objects.
    rewrite <- Huid.
    set (w2 := dict_store _ _ _ _).
    assert (Huid2 : unique_id (objects w2 node) = unique_id (objects w1 node)) by reflexivity.
    rewrite <- Huid2. apply mark_dependencies_keeps. rewrite Huid2. unfold w2.
    rewrite dict_store_filtered by reflexivity. apply dict_get_set_eq.
  - destruct Hin as [->|Hin]; [|now apply IH].
    apply In_keys_dict_get in Hkey as [v Hv]. unfold filtered_entries in Hv. congruence.
Qed.

Lemma visit_nodes_readmits w0 items rest w k r id :
  (forall kv, In kv rest -> In kv items) ->
  during w0 items w ->
  In (k, r) rest -> is_test (objects w0 r) = true ->
  In id (depends_on (objects w0 r)) -> In id (keys (filtered_entries w0)) ->
  exists r',
    dict_get (filtered_entries (visit_nodes rest w)) (unique_id (objects w0 r)) = Some r' /\
    (exists k', In (k', r') items) /\
    is_test (objects w0 r') = true /\
    unique_id (objects w0 r') = unique_id (objects w0 r).
Proof.
  intros Hsub Hw Hin Htest Hid Hkey. revert w Hsub Hw Hin.
  induction rest as [|[k0 node] rest IH]; intros w Hsub Hw Hin; [destruct Hin|].
  assert (Hrest : forall kv, In kv rest -> In kv items) by (intros; apply Hsub; now right).
  assert (Hnode : is_test (objects w node) = is_test (objects w0 node))
    by apply data_le_is_test, (during_objects _ _ _ Hw).
  cbn [visit_nodes]. destruct Hin as [[= -> ->]|Hin].
  - rewrite Hnode, Htest.
    set (w1 := mark_dependencies r (depends_on (objects w r)) w).
    assert (Hw1 : during w0 items w1).
    { apply (mark_dependencies_during w0 items k r); auto. apply Hsub. now left. }
    assert (Hget : dict_get (filtered_entries w1) (unique_id (objects w0 r)) = Some r).
    { rewrite <- (data_le_unique_id _ _ (during_objects _ _ _ Hw r)).
      apply (mark_dependencies_inserts r _ w id).
      - now rewrite (data_le_depends_on _ _ (during_objects _ _ _ Hw r)).
      - now apply (during_keys _ _ _ Hw). }
    pose proof (visit_nodes_during rest w1) as Hend.
    assert (Hsome : In (unique_id (objects w0 r)) (keys (filtered_entries (visit_nodes rest w1)))).
    { apply (during_keys _ _ _ Hend). apply In_keys_dict_get. eauto. }
    apply In_keys_dict_get in Hsome as [r' Hr'].
    exists r'. split; [exact Hr'|].
    destruct (during_get _ _ _ Hend _ _ Hr') as [Hsame|(k' & Hk' & Ht' & Hu')].
    + rewrite Hget in Hsame. injection Hsame as <-.
      split; [exists k; apply Hsub; now left | auto].
    + split; [exists k'; now apply Hrest|].
      rewrite <- (data_le_is_test _ _ (during_objects _ _ _ Hw1 r')).
      rewrite <- (data_le_unique_id _ _ (during_objects _ _ _ Hw1 r')). auto.
  - destruct (is_test (objects w node)); [|now apply IH].
    apply IH; auto.
    apply (mark_dependencies_during w0 items k0 node);
      first [exact Hw | congruence | apply Hsub; now left].
Qed.

(** *** The dependencies of a test node are marked *)

Lemma mark_dependencies_marks node ids w id t :
  In id ids ->
  dict_get (filtered_entries w) id = Some t ->
  id <> unique_id (objects w node) ->
  has_test (objects (mark_dependencies node ids w) t) = true.
Proof.
  revert w. induction ids as [|id0 ids IH]; intros w Hin Hget Hne; [destruct Hin|].
  cbn [mark_dependencies].
  destruct (dict_get (dicts w (filtered_nodes w)) id0) as [target|] eqn:Eget.
  - set (w1 := set_has_test target w).
    set (w2 := dict_store (filtered_nodes w1) (unique_id (objects w1 node)) node w1).
    assert (Huid : unique_id (objects w2 node) = unique_id (objects w node))
      by apply data_le_unique_id, set_has_test_objects.
    destruct Hin as [->|Hin].
    + unfold filtered_entries in Hget. rewrite Hget in Eget. injection Eget as <-.
      apply (data_le_has_test _ _ (mark_dependencies_objects node ids w2 t)).
      apply set_has_test_marks.
    + apply IH; [exact Hin | | congruence].
      unfold w2. rewrite dict_store_filtered by reflexivity.
      rewrite dict_get_set_ne; [exact Hget|].
      intros Heq. apply Hne. rewrite <- Heq.
      apply data_le_unique_id, set_has_test_objects.
  - destruct Hin as [->|Hin]; [|now apply IH].
    unfold filtered_entries in Hget. congruence.
Qed.

Lemma visit_nodes_marks w0 items rest w k r id t :
  (forall k1 r1 k2 r2, In (k1, r1) items -> In (k2, r2) items ->
     is_test (objects w0 r1) = true -> is_test (objects w0 r2) = true ->
     ~ In (unique_id (objects w0 r2)) (depends_on (objects w0 r1))) ->
  (forall kv, In kv rest -> In kv items) ->
  during w0 items w ->
  In (k, r) rest -> is_test (objects w0 r) = true ->
  In id (depends_on (objects w0 r)) ->
  dict_get (filtered_entries w0) id = Some t ->
  has_test (objects (visit_nodes rest w) t) = true.
Proof.
  intros Hapart Hsub Hw Hin Htest Hid Hget. revert w Hsub Hw Hin.
  induction rest as [|[k0 node] rest IH]; intros w Hsub Hw Hin; [destruct Hin|].
  assert (Hrest : forall kv, In kv rest -> In kv items) by (intros; apply Hsub; now right).
  assert (Hnode : is_test (objects w node) = is_test (objects w0 node))
    by apply data_le_is_test, (during_objects _ _ _ Hw).
  cbn [visit_nodes]. destruct Hin as [[= -> ->]|Hin].
  - rewrite Hnode, Htest.
    assert (Hitem : In (k, r) items) by (apply Hsub; now left).
    apply (data_le_has_test _ _ (during_objects _ _ _ (visit_nodes_during rest _) t)).
    apply (mark_dependencies_marks r _ w id t).
    + now rewrite (data_le_depends_on _ _ (during_objects _ _ _ Hw r)).
    + rewrite (during_frame _ _ _ Hw); [exact Hget|].
      intros k2 r2 Hin2 Ht2 Heq. apply (Hapart k r k2 r2); auto. now rewrite Heq.
    + rewrite (data_le_unique_id _ _ (during_objects _ _ _ Hw r)).
      intros Heq. apply (Hapart k r k r); auto. now rewrite <- Heq.
  - destruct (is_test (objects w node)); [|now apply IH].
    apply IH; auto.
    apply (mark_dependencies_during w0 items k0 node);
      first [exact Hw | congruence | apply Hsub; now left].
Qed.

(** The entries of [nodes] after the propagation name nodes that were
    among its entries before. *)
Lemma node_entries_after w k r :
  In (k, r) (node_entries (visit_nodes (node_entries w) w)) ->
  exists k0, In (k0, r) (node_entries w).
Proof.
  pose proof (visit_nodes_during (node_entries w) w) as D. intros Hin.
  unfold node_entries in Hin at 1. rewrite (during_nodes _ _ _ D) in Hin.
  destruct (Nat.eq_dec (nodes w) (filtered_nodes w)) as [Heq|Hne].
  - assert (Hf : In (k, r) (filtered_entries (visit_nodes (node_entries w) w))).
    { unfold filtered_entries. rewrite (during_filtered _ _ _ D), <- Heq. exact Hin. }
    destruct (during_entries _ _ _ D _ _ Hf) as [H|(k0 & H & _)]; [|eauto].
    exists k. unfold filtered_entries in H. unfold node_entries. now rewrite Heq.
  - rewrite (during_dicts _ _ _ D _ Hne) in Hin. eauto.
Qed.

(** What the propagation guarantees when no test node names a test node
    among its dependencies. *)
Lemma update_node_dependency_marks w k r id t :
  tests_apart w ->
  In (k, r) (node_entries (visit_nodes (node_entries w) w)) ->
  is_test (objects (visit_nodes (node_entries w) w) r) = true ->
  In id (depends_on (objects (visit_nodes (node_entries w) w) r)) ->
  dict_get (filtered_entries (visit_nodes (node_entries w) w)) id = Some t ->
  has_test (objects (visit_nodes (node_entries w) w) t) = true.
Proof.
  intros Hapart Hin Htest Hid Hget.
  pose proof (visit_nodes_during (node_entries w) w) as D.
  destruct (node_entries_after w k r Hin) as [k0 Hk0].
  rewrite (data_le_is_test _ _ (during_objects _ _ _ D r)) in Htest.
  rewrite (data_le_depends_on _ _ (during_objects _ _ _ D r)) in Hid.
  apply (visit_nodes_marks w (node_entries w) (node_entries w) w k0 r id t); auto.
  - apply during_start.
  - rewrite <- (during_frame _ _ _ D); [exact Hget|].
    intros k2 r2 Hin2 Ht2 Heq. apply (Hapart k0 r k2 r2); auto. now rewrite Heq.
Qed.

(** C10.  A test node of [nodes] one of whose dependencies is a key of
    [filtered_nodes] is stored in [filtered_nodes] under its [unique_id] by
    [update_node_dependency]: the entry found there afterwards is a test
    node of [nodes] with that [unique_id], and the node itself when no other
    test node of [nodes] has the same [unique_id]. *)
Theorem update_node_dependency_readmits_tests (w : World) k r id :
  In (k, r) (node_entries w) ->
  is_test (objects w r) = true ->
  In id (depends_on (objects w r)) ->
  In id (keys (filtered_entries w)) ->
  exists w' r',
    update_node_dependency w = (Ok tt, w') /\
    dict_get (filtered_entries w') (unique_id (objects w r)) = Some r' /\
    (exists k', In (k', r') (node_entries w)) /\
    is_test (objects w' r') = true /\
    unique_id (objects w' r') = unique_id (objects w r) /\
    ((forall k2 r2, In (k2, r2) (node_entries w) -> is_test (objects w r2) = true ->
        unique_id (objects w r2) = unique_id (objects w r) -> r2 = r) ->
     r' = r).
Proof.
  intros Hin Htest Hid Hkey.
  pose proof (visit_nodes_during (node_entries w) w) as D.
  destruct (visit_nodes_readmits w (node_entries w) (node_entries w) w k r id)
    as (r' & Hget & [k' Hk'] & Ht' & Hu'); auto using during_start.
  exists (visit_nodes (node_entries w) w), r'.
  split; [reflexivity|]. split; [exact Hget|]. split; [eauto|].
  split; [now rewrite (data_le_is_test _ _ (during_objects _ _ _ D r'))|].
  split; [now rewrite (data_le_unique_id _ _ (during_objects _ _ _ D r'))|].
  intros Huniq. now apply (Huniq k' r').
Qed.

(** *** Properties kept by every step of the propagation *)

Lemma update_node_dependency_readmits_tests_witness :
  exists w' r',
    update_node_dependency demo_selected = (Ok tt, w') /\
    dict_get (filtered_entries demo_selected) (lit "test.jaffle.t") = None /\
    dict_get (filtered_entries w') (lit "test.jaffle.t") = Some r' /\
    is_test (objects w' r') = true /\ r' = 2%nat.
Proof.
  destruct (update_node_dependency_readmits_tests demo_selected
              (lit "test.jaffle.t") 2 (lit "model.jaffle.a"))
    as (w' & r' & Hrun & Hget & _ & Htest & _ & Hsame).
  - vm_compute. auto 10.
  - vm_compute. reflexivity.
  - vm_compute. auto.
  - vm_compute. auto.
  - assert (Hu : unique_id (objects demo_selected 2) = lit "test.jaffle.t")
      by (vm_compute; reflexivity).
    rewrite Hu in Hget.
    exists w', r'. split; [exact Hrun|]. split; [vm_compute; reflexivity|].
    split; [exact Hget|]. split; [exact Htest|].
    apply Hsame. intros k2 r2 Hin Ht _. vm_compute in Hin.
    repeat match goal with
           | H : _ \/ _ |- _ => destruct H
           | H : False |- _ => destruct H
           | H : (_, _) = (_, _) |- _ => injection H as <- <-
           end; first [reflexivity | vm_compute in Ht; discriminate Ht].
Defined.

Lemma mark_dependencies_invariant (Q : World -> Prop) w0 items k node ids w :
  (forall w t, during w0 items w -> Q w -> Q (set_has_test t w)) ->
  (forall w k node, In (k, node) items -> is_test (objects w0 node) = true ->
     during w0 items w -> Q w ->
     Q (dict_store (filtered_nodes w) (unique_id (objects w node)) node w)) ->
  In (k, node) items -> is_test (objects w0 node) = true ->
  during w0 items w -> Q w -> Q (mark_dependencies node ids w).
Proof.
  intros Hmark Hstore Hin Htest. revert w.
  induction ids as [|id ids IH]; intros w Hw HQ; cbn [mark_dependencies]; [exact HQ|].
  destruct (dict_get (dicts w (filtered_nodes w)) id) as [target|]; [|now apply IH].
  apply IH.
  - apply (during_dict_store w0 items _ k node Hin Htest).
    now apply during_set_has_test.
  - apply (Hstore _ k node Hin Htest); [now apply during_set_has_test | now apply Hmark].
Qed.

Lemma visit_nodes_invariant_tail (Q : World -> Prop) w0 items rest w :
  (forall w t, during w0 items w -> Q w -> Q (set_has_test t w)) ->
  (forall w k node, In (k, node) items -> is_test (objects w0 node) = true ->
     during w0 items w -> Q w ->
     Q (dict_store (filtered_nodes w) (unique_id (objects w node)) node w)) ->
  (forall kv, In kv rest -> In kv items) ->
  during w0 items w -> Q w -> Q (visit_nodes rest w).
Proof.
  intros Hmark Hstore. revert w.
  induction rest as [|[k node] rest IH]; intros w Hsub Hw HQ; cbn [visit_nodes];
    [exact HQ|].
  assert (Hrest : forall kv, In kv rest -> In kv items) by (intros; apply Hsub; now right).
  assert (Hnode : is_test (objects w node) = is_test (objects w0 node))
    by apply data_le_is_test, (during_objects _ _ _ Hw).
  destruct (is_test (objects w node)) eqn:Et; [|now apply IH].
  assert (Hin : In (k, node) items) by (apply Hsub; now left).
  apply IH; [exact Hrest | |].
  - apply (mark_dependencies_during w0 items k node); auto.
  - apply (mark_dependencies_invariant Q w0 items k node); auto.
Qed.

Lemma visit_nodes_invariant (Q : World -> Prop) w0 :
  (forall w t, during w0 (node_entries w0) w -> Q w -> Q (set_has_test t w)) ->
  (forall w k node, In (k, node) (node_entries w0) ->
     is_test (objects w0 node) = true ->
     during w0 (node_entries w0) w -> Q w ->
     Q (dict_store (filtered_nodes w) (unique_id (objects w node)) node w)) ->
  Q w0 -> Q (visit_nodes (node_entries w0) w0).
Proof.
  intros Hmark Hstore HQ.
  apply (visit_nodes_invariant_tail Q w0 (node_entries w0)); auto using during_start.
Qed.

Lemma well_keyed_get acc w k r :
  well_keyed acc w -> In (k, r) acc -> dict_get acc k = Some r.
Proof.
  intros [Hnd _]. induction acc as [|[k0 r0] acc IH]; cbn; [tauto|].
  cbn in Hnd. apply NoDup_cons in Hnd as [Hk0 Hnd].
  intros [[= -> ->]|Hin].
  - now rewrite str_eqb_refl.
  - destruct (str_eqb k0 k) eqn:E; [|now apply IH].
    apply str_eqb_eq in E. subst k0. exfalso. apply Hk0.
    apply list_elem_of_In. apply (in_map fst) in Hin. exact Hin.
Qed.

(** The propagation leaves the entries of [nodes] as they were when they
    are well keyed. *)
Lemma visit_nodes_node_entries w :
  well_keyed (node_entries w) w ->
  node_entries (visit_nodes (node_entries w) w) = node_entries w.
Proof.
  intros Hwk. pose proof (visit_nodes_during (node_entries w) w) as D.
  unfold node_entries at 1. rewrite (during_nodes _ _ _ D).
  destruct (Nat.eq_dec (nodes w) (filtered_nodes w)) as [Heq|Hne];
    [|now apply (during_dicts _ _ _ D)].
  enough (H : filtered_entries (visit_nodes (node_entries w) w) = filtered_entries w).
  { unfold filtered_entries in H. rewrite (during_filtered _ _ _ D), <- Heq in H.
    exact H. }
  apply (visit_nodes_invariant (fun w' => filtered_entries w' = filtered_entries w)).
  - intros w' t _ H. exact H.
  - intros w' k node Hin Htest Hw' H.
    rewrite dict_store_filtered by reflexivity. rewrite H.
    apply dict_set_same.
    rewrite (data_le_unique_id _ _ (during_objects _ _ _ Hw' node)).
    destruct Hwk as [Hnd Hacc]. destruct (Hacc k node Hin) as [-> _].
    unfold filtered_entries. rewrite <- Heq.
    apply (well_keyed_get _ w); [split; assumption | exact Hin].
  - reflexivity.
Qed.

(** The propagation keeps a keyed graph keyed. *)
Lemma visit_nodes_keyed w : keyed w -> keyed (visit_nodes (node_entries w) w).
Proof.
  intros [Hsub Huid]. pose proof (visit_nodes_during (node_entries w) w) as D.
  set (w' := visit_nodes (node_entries w) w) in *.
  assert (Hinserted : forall v k0, In (k0, v) (node_entries w) ->
            is_test (objects w v) = true ->
            In (unique_id (objects w v)) (keys (node_entries w))) by eauto.
  destruct (Nat.eq_dec (nodes w) (filtered_nodes w)) as [Heq|Hne].
  - assert (Hsame : node_entries w' = filtered_entries w').
    { unfold node_entries, filtered_entries.
      now rewrite (during_nodes _ _ _ D), (during_filtered _ _ _ D), Heq. }
    assert (Hsame0 : node_entries w = filtered_entries w).
    { unfold node_entries, filtered_entries. now rewrite Heq. }
    split; [now rewrite Hsame|].
    intros k r Hin Htest. rewrite Hsame in *.
    rewrite (data_le_is_test _ _ (during_objects _ _ _ D r)) in Htest.
    rewrite (data_le_unique_id _ _ (during_objects _ _ _ D r)).
    apply (during_keys _ _ _ D). rewrite <- Hsame0.
    destruct (during_entries _ _ _ D _ _ Hin) as [H|(k0 & H & _)].
    + rewrite <- Hsame0 in H. eauto.
    + eauto.
  - assert (Hsame : node_entries w' = node_entries w).
    { unfold node_entries. rewrite (during_nodes _ _ _ D).
      now apply (during_dicts _ _ _ D). }
    split.
    + intros k Hk. rewrite Hsame. apply In_keys_entries in Hk as [v Hv].
      destruct (during_entries _ _ _ D _ _ Hv) as [H|(k0 & H & Ht & <-)].
      * apply Hsub. now apply In_entries_keys in H.
      * eauto.
    + intros k r Hin Htest. rewrite Hsame in *.
      rewrite (data_le_is_test _ _ (during_objects _ _ _ D r)) in Htest.
      rewrite (data_le_unique_id _ _ (during_objects _ _ _ D r)). eauto.
Qed.

End PropagationFacts.
Export PropagationFacts.

Module LoadFacts.
Import Graph.

(** *** Building a mapping of new nodes *)

Lemma extends_refl w : extends w w.
Proof. unfold extends. repeat split; auto. Qed.

Lemma extends_trans w1 w2 w3 : extends w1 w2 -> extends w2 w3 -> extends w1 w3.
Proof.
  unfold extends. intros (N1 & F1 & L1 & D1 & X1 & O1 & H1) (N2 & F2 & L2 & D2 & X2 & O2 & H2).
  repeat split; try congruence; try lia.
  intros r Hr. rewrite H2 by lia. now apply H1.
Qed.

Lemma new_object_extends node w :
  extends w (snd (new_object node w)) /\
  fst (new_object node w) = Ok (next_object w) /\
  objects (snd (new_object node w)) (next_object w) = node /\
  next_object (snd (new_object node w)) = S (next_object w).
Proof.
  unfold new_object, extends. cbn. repeat split; auto.
  - intros r Hr. apply update_ne. lia.
  - apply update_eq.
Qed.

Lemma NoDup_keys_dict_set {V} (d : dict V) k v :
  NoDup (keys d) -> NoDup (keys (dict_set d k v)).
Proof.
  intros H. rewrite keys_dict_set. destruct (dict_mem d k) eqn:E; [exact H|].
  apply NoDup_app. split; [exact H|]. split; [|apply NoDup_singleton].
  intros x Hx Hk. apply list_elem_of_In in Hx. apply list_elem_of_In in Hk.
  destruct Hk as [<-|[]]. apply dict_mem_keys in Hx. congruence.
Qed.

Lemma well_keyed_nil w : well_keyed [] w.
Proof. split; [apply NoDup_nil_2 | intros k r []]. Qed.

Lemma well_keyed_extends acc w w' : extends w w' -> well_keyed acc w -> well_keyed acc w'.
Proof.
  intros (_ & _ & _ & _ & _ & Hle & Hobj) [Hnd Hacc]. split; [exact Hnd|].
  intros k r Hin. destruct (Hacc k r Hin) as [Hu Hr]. rewrite Hobj by exact Hr.
  split; [exact Hu | lia].
Qed.

Lemma well_keyed_new_object acc w node :
  well_keyed acc w ->
  well_keyed (dict_set acc (unique_id node) (next_object w)) (snd (new_object node w)).
Proof.
  intros Hacc. destruct (new_object_extends node w) as (Hext & _ & Hobj & Hnext).
  pose proof (well_keyed_extends _ _ _ Hext Hacc) as [Hnd Hold].
  split; [now apply NoDup_keys_dict_set|].
  intros k r Hin. apply In_dict_set in Hin as [Hin|[-> ->]]; [now apply Hold|].
  rewrite Hobj, Hnext. split; [reflexivity | lia].
Qed.

Lemma parse_lines_extends E p lines acc w acc' w' :
  parse_lines E p lines acc w = (Ok acc', w') ->
  well_keyed acc w -> extends w w' /\ well_keyed acc' w'.
Proof.
  revert acc w. induction lines as [|line lines IH]; intros acc w; cbn [parse_lines].
  - intros [= <- <-] H. split; [apply extends_refl | exact H].
  - destruct (parse_line E line) as [node_dict|]; [|apply IH].
    rewrite run_lift_bind.
    destruct (node_of_ls_line p node_dict) as [node|]; [|discriminate].
    rewrite run_bind.
    destruct (new_object_extends node w) as (Hext & Hfst & _).
    destruct (new_object node w) as [r w1] eqn:Enew. cbn [fst snd] in *. subst r.
    intros Hrun Hacc.
    pose proof (well_keyed_new_object acc w node Hacc) as Hacc1.
    rewrite Enew in Hacc1. cbn [snd] in Hacc1.
    destruct (IH _ _ Hrun Hacc1) as [Hext' Hacc'].
    split; [eapply extends_trans; eauto | exact Hacc'].
Qed.

Lemma manifest_nodes_extends p resources acc w acc' w' :
  manifest_nodes p resources acc w = (Ok acc', w') ->
  well_keyed acc w -> extends w w' /\ well_keyed acc' w'.
Proof.
  revert acc w. induction resources as [|[uid node_dict] resources IH]; intros acc w;
    cbn [manifest_nodes].
  - intros [= <- <-] H. split; [apply extends_refl | exact H].
  - rewrite run_lift_bind.
    destruct (node_of_manifest_entry p uid node_dict) as [node|]; [|discriminate].
    rewrite run_bind.
    destruct (new_object_extends node w) as (Hext & Hfst & _).
    destruct (new_object node w) as [r w1] eqn:Enew. cbn [fst snd] in *. subst r.
    intros Hrun Hacc.
    pose proof (well_keyed_new_object acc w node Hacc) as Hacc1.
    rewrite Enew in Hacc1. cbn [snd] in Hacc1.
    destruct (IH _ _ Hrun Hacc1) as [Hext' Hacc'].
    split; [eapply extends_trans; eauto | exact Hacc'].
Qed.

(** *** What each strategy leaves *)

Ltac run_step H :=
  first
    [ rewrite run_lift_bind in H;
      match type of H with
      | match ?r with Ok _ => _ | Raise _ => _ end = _ =>
          let E := fresh "E" in destruct r eqn:E; [|discriminate H]
      end
    | rewrite run_modify_bind in H
    | rewrite run_read_bind in H ].

Lemma parse_dbt_ls_output_keyed E p ls_stdout w d w' :
  parse_dbt_ls_output E p ls_stdout w = (Ok d, w') ->
  well_keyed (dicts w' d) w' /\ load_method w' = load_method w.
Proof.
  unfold parse_dbt_ls_output. rewrite run_bind.
  destruct (parse_lines E p (split_on 10 ls_stdout) [] w) as [[acc|e] w1] eqn:Ep;
    [|discriminate].
  destruct (parse_lines_extends _ _ _ _ _ _ _ Ep (well_keyed_nil w)) as [Hext Hacc].
  unfold new_dict. intros [= <- <-]. cbn [dicts load_method]. rewrite update_eq.
  split; [exact Hacc | apply Hext].
Qed.

Lemma assigned_keyed w d :
  well_keyed (dicts w d) w -> keyed (set_filtered_nodes d (set_nodes d w)).
Proof.
  intros [_ Hacc]. unfold keyed, node_entries, filtered_entries. cbn.
  split; [auto|]. intros k r Hin _. destruct (Hacc k r Hin) as [-> _].
  now apply In_entries_keys in Hin.
Qed.

Lemma load_via_dbt_ls_cache_keyed E w w' :
  load_via_dbt_ls_cache E w = (Ok true, w') ->
  keyed w' /\ load_method w' = DBT_LS_CACHE.
Proof.
  intros H. apply load_via_dbt_ls_cache_hit in H
    as (cd & version & ls_stdout & p & d & w1 & _ & _ & _ & _ & _ & Hparse & ->).
  apply parse_dbt_ls_output_keyed in Hparse as [Hacc Hm].
  split; [now apply assigned_keyed | exact Hm].
Qed.

Lemma save_dbt_ls_cache_frame E dbt_ls_output w w' :
  save_dbt_ls_cache E dbt_ls_output w = (Ok tt, w') ->
  exists vars, w' = set_airflow_variables vars w.
Proof.
  unfold save_dbt_ls_cache. intros H. repeat run_step H.
  unfold modify in H. injection H as <-. eauto.
Qed.

Lemma run_dbt_ls_keyed E p w d w' :
  run_dbt_ls E p w = (Ok d, w') ->
  well_keyed (dicts w' d) w' /\ load_method w' = load_method w.
Proof.
  unfold run_dbt_ls. intros H. run_step H. rewrite run_bind in H.
  destruct (should_use_dbt_ls_cache E).
  - destruct (save_dbt_ls_cache E a w) as [[[]|e] w1] eqn:Esave; [|discriminate H].
    apply save_dbt_ls_cache_frame in Esave as [vars ->].
    now apply parse_dbt_ls_output_keyed in H.
  - cbn [mret M_ret] in H. now apply parse_dbt_ls_output_keyed in H.
Qed.

Lemma load_via_dbt_ls_without_cache_keyed E w w' :
  load_via_dbt_ls_without_cache E w = (Ok tt, w') ->
  keyed w' /\ load_method w' = DBT_LS.
Proof.
  unfold load_via_dbt_ls_without_cache. intros H. repeat run_step H.
  destruct (profile_config E); [|discriminate H].
  rewrite run_bind in H. cbn [mret M_ret] in H. rewrite run_bind in H.
  destruct (run_dbt_ls E a0 (set_load_method DBT_LS w)) as [[d|e] w2] eqn:Erun;
    [|discriminate H].
  repeat run_step H. unfold lift in H. injection H as _ <-.
  apply run_dbt_ls_keyed in Erun as [Hacc Hm].
  split; [now apply assigned_keyed | exact Hm].
Qed.

Lemma load_via_dbt_ls_file_keyed E w w' :
  load_via_dbt_ls_file E w = (Ok tt, w') ->
  keyed w' /\ load_method w' = DBT_LS_FILE.
Proof.
  unfold load_via_dbt_ls_file. intros H. run_step H.
  destruct (dbt_ls_file E) as [dbt_ls_output|]; [|discriminate H].
  destruct (render_project_path E) as [p|]; [|discriminate H].
  rewrite run_bind in H.
  destruct (parse_dbt_ls_output E p _ _) as [[d|e] w2] eqn:Eparse; [|discriminate H].
  repeat run_step H. unfold modify in H. injection H as <-.
  apply parse_dbt_ls_output_keyed in Eparse as [Hacc Hm].
  split; [now apply assigned_keyed | exact Hm].
Qed.

(** Selection binds [filtered_nodes] and touches no entry of [nodes]. *)
Lemma select_into_filtered_nodes_keyed E p d w w' :
  select_into_filtered_nodes E p d w = (Ok tt, w') ->
  nodes w = d -> (d < next_dict w)%nat -> well_keyed (dicts w d) w ->
  keyed w' /\ load_method w' = load_method w /\
  node_entries w' = dicts w d /\ objects w' = objects w /\
  next_object w' = next_object w.
Proof.
  unfold select_into_filtered_nodes. intros H Hd Hlt [Hnd Hacc].
  rewrite run_read_bind in H. run_step H. destruct a as [kept|].
  - rewrite run_bind in H. unfold new_dict, modify in H. injection H as <-.
    unfold keyed, node_entries, filtered_entries. cbn. rewrite update_eq.
    rewrite Hd, update_ne by lia.
    repeat split; auto.
    + intros k Hk. unfold keys in *. apply in_map_iff in Hk as ([k0 r] & <- & Hin).
      apply List.filter_In in Hin as [Hin _]. now apply (in_map fst) in Hin.
    + intros k r Hin _. destruct (Hacc k r Hin) as [-> _].
      now apply In_entries_keys in Hin.
  - unfold modify in H. injection H as <-.
    unfold keyed, node_entries, filtered_entries. cbn. rewrite Hd.
    repeat split; auto.
    intros k r Hin _. destruct (Hacc k r Hin) as [-> _].
    now apply In_entries_keys in Hin.
Qed.

(** What [load_from_dbt_manifest] leaves: [nodes] holds what the manifest
    lists, whatever is selected. *)
Lemma load_from_dbt_manifest_result E w w' :
  load_from_dbt_manifest E w = (Ok tt, w') ->
  keyed w' /\ load_method w' = DBT_MANIFEST /\
  exists doc resources p acc w0,
    manifest E = Some (Some doc) /\ manifest_resources doc = Ok resources /\
    execution_project_path E = Some p /\
    manifest_nodes p resources [] (set_load_method DBT_MANIFEST w) = (Ok acc, w0) /\
    node_entries w' = acc /\ well_keyed acc w' /\ objects w' = objects w0.
Proof.
  unfold load_from_dbt_manifest. intros H. run_step H.
  destruct (selector E); [discriminate H|].
  destruct (manifest E) as [[doc|]|]; [| |discriminate H].
  2:{ destruct (execution_project_path E); discriminate H. }
  destruct (execution_project_path E) as [p|]; [|discriminate H].
  rewrite run_lift_bind in H. cbn [of_option] in H.
  rewrite run_lift_bind in H.
  destruct (manifest_resources doc) as [a|] eqn:Eres; [|discriminate H].
  rewrite run_bind in H.
  destruct (manifest_nodes p a [] _) as [[acc|e] w0] eqn:Enodes; [|discriminate H].
  destruct (manifest_nodes_extends _ _ _ _ _ _ Enodes (well_keyed_nil _)) as [Hext Hacc].
  rewrite run_bind in H. unfold new_dict at 1 in H. rewrite run_modify_bind in H.
  apply select_into_filtered_nodes_keyed in H as (Hk & Hm & Hn & Ho & Hx).
  - cbn in Hm, Hn, Ho, Hx. rewrite update_eq in Hn.
    split; [exact Hk|]. split; [rewrite Hm; apply Hext|].
    exists doc, a, p, acc, w0.
    split; [reflexivity|]. split; [exact Eres|]. split; [reflexivity|].
    split; [exact Enodes|]. split; [exact Hn|]. split; [|exact Ho].
    destruct Hacc as [Hnd Hacc]. split; [exact Hnd|].
    intros k r Hin. rewrite Ho, Hx. now apply Hacc.
  - reflexivity.
  - cbn. lia.
  - cbn. rewrite update_eq. exact Hacc.
Qed.

Lemma load_via_custom_parser_method E w w' :
  load_via_custom_parser E w = (Ok tt, w') -> load_method w' = CUSTOM.
Proof.
  unfold load_via_custom_parser. intros H. run_step H.
  destruct (selector E); [discriminate H|].
  destruct (render_project_path E) as [rp|]; [|discriminate H].
  destruct (execution_project_path E) as [p|]; [|discriminate H].
  run_step H. rewrite run_bind in H.
  destruct (custom_nodes E rp p a [] _) as [[acc|e] w0] eqn:Enodes; [|discriminate H].
  assert (Hm : load_method w0 = CUSTOM).
  { clear H.
    enough (G : forall models w1 acc0,
              custom_nodes E rp p models acc0 w1 = (Ok acc, w0) ->
              load_method w0 = load_method w1).
    { now rewrite (G _ _ _ Enodes). }
    induction models as [|[name model] models IH]; intros w1 acc0; cbn [custom_nodes].
    - now intros [= _ <-].
    - rewrite run_bind. unfold new_object at 1. intros Hrun.
      now rewrite (IH _ _ Hrun). }
  rewrite run_bind in H. unfold new_dict at 1 in H. rewrite run_modify_bind in H.
  unfold select_into_filtered_nodes in H. rewrite run_read_bind in H. run_step H.
  destruct a0 as [kept|].
  - rewrite run_bind in H. unfold new_dict, modify in H. injection H as <-. exact Hm.
  - unfold modify in H. injection H as <-. exact Hm.
Qed.

(** *** [load] *)

Lemma load_via_dbt_ls_keyed E w w' :
  load_via_dbt_ls E w = (Ok tt, w') -> keyed w'.
Proof.
  unfold load_via_dbt_ls. rewrite run_bind.
  destruct (load_via_dbt_ls_cache E w) as [[[|]|e] w1] eqn:Ehit; [| |discriminate].
  - intros [= <-]. now apply load_via_dbt_ls_cache_keyed in Ehit.
  - apply load_via_dbt_ls_cache_miss in Ehit as ->.
    intros H. now apply load_via_dbt_ls_without_cache_keyed in H.
Qed.

(** A strategy that did not end in the custom parser leaves a keyed
    graph. *)
Lemma load_strategy_keyed E m mode w w1 :
  keyed w -> load_strategy E m mode w = (Ok tt, w1) ->
  load_method w1 <> CUSTOM -> keyed w1.
Proof.
  intros Hw H Hm. destruct m; cbn [load_strategy] in H.
  - destruct (is_manifest_available E).
    { now apply load_from_dbt_manifest_result in H. }
    assert (Hcustom : load_via_custom_parser E w = (Ok tt, w1) -> keyed w1).
    { intros Hc. now apply load_via_custom_parser_method in Hc. }
    destruct mode; [|auto]. destruct (profile_config E); [|auto].
    unfold try_except in H.
    destruct (load_via_dbt_ls E w) as [[[]|e] w2] eqn:Els.
    + injection H as <-. now apply load_via_dbt_ls_keyed in Els.
    + destruct (is_FileNotFoundError e); [|discriminate H].
      now apply load_via_custom_parser_method in H.
  - now apply load_via_custom_parser_method in H.
  - now apply load_via_dbt_ls_keyed in H.
  - now apply load_via_dbt_ls_file_keyed in H.
  - rewrite run_bind in H.
    destruct (load_via_dbt_ls_cache E w) as [[[|]|e] w2] eqn:Ehit; [| |discriminate H].
    + injection H as <-. now apply load_via_dbt_ls_cache_keyed in Ehit.
    + injection H as <-. now apply load_via_dbt_ls_cache_miss in Ehit as ->.
  - now apply load_from_dbt_manifest_result in H.
Qed.

(** A [load] that returns has run its strategy and then the
    propagation. *)
Lemma load_inv E m mode w w' :
  load E m mode w = (Ok tt, w') ->
  exists w1, load_strategy E m mode w = (Ok tt, w1) /\
             w' = visit_nodes (node_entries w1) w1.
Proof.
  unfold load. rewrite run_bind.
  destruct (load_strategy E m mode w) as [[[]|e] w1]; [|discriminate].
  unfold update_node_dependency, modify. intros [= <-]. now exists w1.
Qed.

(** A strategy that raises ends the [load]: nothing is propagated. *)
Lemma load_raises E m mode w e w1 :
  load_strategy E m mode w = (Raise e, w1) -> load E m mode w = (Raise e, w1).
Proof. unfold load. rewrite run_bind. now intros ->. Qed.

Ltac split_In :=
  repeat match goal with
         | H : _ \/ _ |- _ => destruct H
         | H : False |- _ => destruct H
         | H : (_, _) = (_, _) |- _ => injection H as <- <-
         end.

(** C6.  When the strategy of a [load] returns, the [load] returns what
    [update_node_dependency] makes of the graph the strategy left, for
    every method.  If no test node of [nodes] names a test node of [nodes]
    among its dependencies, then afterwards each dependency of a test node
    of [nodes] that is a key of [filtered_nodes] has its [has_test] set. *)
Theorem load_propagates_has_test E m mode w w1 :
  load_strategy E m mode w = (Ok tt, w1) ->
  tests_apart w1 ->
  exists w',
    load E m mode w = (Ok tt, w') /\
    update_node_dependency w1 = (Ok tt, w') /\
    forall k r id t,
      In (k, r) (node_entries w') ->
      is_test (objects w' r) = true ->
      In id (depends_on (objects w' r)) ->
      dict_get (filtered_entries w') id = Some t ->
      has_test (objects w' t) = true.
Proof.
  intros Hs Hapart. exists (visit_nodes (node_entries w1) w1).
  split; [|split; [reflexivity|]].
  - unfold load. rewrite run_bind, Hs. reflexivity.
  - intros k r id t. now apply update_node_dependency_marks.
Qed.

Lemma load_propagates_has_test_witness :
  exists w',
    load (demo_env [] (Some (Some demo_manifest)) [lit "model.jaffle.a"] [])
      DBT_MANIFEST LOCAL (new_graph []) = (Ok tt, w') /\
    has_test (objects demo_selected 0) = false /\
    has_test (objects w' 0) = true.
Proof.
  destruct (load_propagates_has_test
              (demo_env [] (Some (Some demo_manifest)) [lit "model.jaffle.a"] [])
              DBT_MANIFEST LOCAL (new_graph []) demo_selected)
    as (w' & Hload & _ & Hmarks).
  - vm_compute. reflexivity.
  - intros k r k' r' Hin Hin' Ht Ht' Hdep.
    vm_compute in Hin. vm_compute in Hin'. split_In;
      vm_compute in Ht; try discriminate Ht;
      vm_compute in Ht'; try discriminate Ht';
      vm_compute in Hdep; split_In; discriminate.
  - exists w'. split; [exact Hload|]. split; [vm_compute; reflexivity|].
    assert (Hw' : w' = snd (load (demo_env [] (Some (Some demo_manifest))
                                    [lit "model.jaffle.a"] [])
                              DBT_MANIFEST LOCAL (new_graph []))) by now rewrite Hload.
    apply (Hmarks (lit "test.jaffle.t") 2%nat (lit "model.jaffle.a") 0%nat);
      rewrite Hw'; vm_compute; auto 10.
Defined.

(** The first test names the second, which is stored in [filtered_nodes]
    after the first was visited: it is a key of [filtered_nodes] in the end
    and its flag is not set. *)
Lemma load_leaves_a_named_test_unmarked :
  exists w' r t,
    load (demo_env [] (Some (Some chained_tests_manifest)) [lit "model.jaffle.a"] [])
      DBT_MANIFEST LOCAL (new_graph []) = (Ok tt, w') /\
    In (lit "test.jaffle.t1", r) (node_entries w') /\
    is_test (objects w' r) = true /\
    In (lit "test.jaffle.t2") (depends_on (objects w' r)) /\
    dict_get (filtered_entries w') (lit "test.jaffle.t2") = Some t /\
    has_test (objects w' t) = false.
Proof.
  exists (snd (load (demo_env [] (Some (Some chained_tests_manifest))
                       [lit "model.jaffle.a"] [])
                 DBT_MANIFEST LOCAL (new_graph []))), 1%nat, 2%nat.
  vm_compute. auto 10.
Qed.

(** X21.  A [load] that returns and did not end in the custom parser
    keeps a graph keyed: when, before it, the keys of [filtered_nodes] are
    keys of [nodes] and [nodes] has a key for the [unique_id] of each of
    its test nodes, as in a new graph, then so it is after it.  After a
    load from the manifest, [nodes] holds what the manifest lists,
    whatever is selected. *)
Theorem load_filtered_nodes_within_nodes E m mode w w' :
  keyed w ->
  load E m mode w = (Ok tt, w') ->
  load_method w' <> CUSTOM ->
  keyed w' /\
  (m = DBT_MANIFEST ->
   exists doc resources p acc w0,
     manifest E = Some (Some doc) /\ manifest_resources doc = Ok resources /\
     execution_project_path E = Some p /\
     manifest_nodes p resources [] (set_load_method DBT_MANIFEST w) = (Ok acc, w0) /\
     node_entries w' = acc).
Proof.
  intros Hw Hload Hm. apply load_inv in Hload as (w1 & Hs & ->).
  pose proof (visit_nodes_during (node_entries w1) w1) as D.
  rewrite (during_load_method _ _ _ D) in Hm.
  split.
  - apply visit_nodes_keyed. eapply load_strategy_keyed; eauto.
  - intros ->. cbn [load_strategy] in Hs.
    apply load_from_dbt_manifest_result in Hs
      as (_ & _ & doc & resources & p & acc & w0 & Hdoc & Hres & Hp & Hnodes & Hn & Hwk & _).
    exists doc, resources, p, acc, w0. repeat (split; [assumption|]).
    rewrite visit_nodes_node_entries; [exact Hn | now rewrite Hn].
Qed.

Lemma load_filtered_nodes_within_nodes_witness :
  exists w',
    load (demo_env [] (Some (Some demo_manifest)) [lit "model.jaffle.a"] [])
      DBT_MANIFEST LOCAL (new_graph []) = (Ok tt, w') /\
    keys (filtered_entries w') = [lit "model.jaffle.a"; lit "test.jaffle.t"] /\
    In (lit "test.jaffle.t") (keys (node_entries w')).
Proof.
  exists (snd (load (demo_env [] (Some (Some demo_manifest)) [lit "model.jaffle.a"] [])
                 DBT_MANIFEST LOCAL (new_graph []))).
  split; [vm_compute; reflexivity|]. split; [vm_compute; reflexivity|].
  destruct (load_filtered_nodes_within_nodes
              (demo_env [] (Some (Some demo_manifest)) [lit "model.jaffle.a"] [])
              DBT_MANIFEST LOCAL (new_graph [])
              (snd (load (demo_env [] (Some (Some demo_manifest))
                            [lit "model.jaffle.a"] [])
                      DBT_MANIFEST LOCAL (new_graph []))))
    as [[Hsub _] _].
  - split; [intros k []|intros k r []].
  - vm_compute. reflexivity.
  - vm_compute. discriminate.
  - apply Hsub. vm_compute. auto.
Defined.

(** C7.  The custom parser lists its nodes under the names of their
    models, and the propagation stores a test node under its [unique_id]:
    at a project of one model and one test of it, with the model
    selected, the [load] leaves in [filtered_nodes] a key that [nodes]
    does not have. *)
Lemma load_via_custom_parser_filtered_key_not_in_nodes :
  exists w',
    load (demo_env [] None [lit "a"] demo_models) CUSTOM LOCAL (new_graph [])
    = (Ok tt, w') /\
    keys (node_entries w') = [lit "a"; lit "t"] /\
    keys (filtered_entries w') = [lit "a"; lit "test.jaffle.t"] /\
    In (lit "test.jaffle.t") (keys (filtered_entries w')) /\
    ~ In (lit "test.jaffle.t") (keys (node_entries w')).
Proof.
  exists (snd (load (demo_env [] None [lit "a"] demo_models) CUSTOM LOCAL (new_graph []))).
  vm_compute. repeat split; auto.
  intros [H|[H|[]]]; discriminate H.
Qed.

End LoadFacts.
Export LoadFacts.

Module ManifestFacts.
Import Graph.

(** *** Merging mappings *)

Lemma dict_get_app {V} (d e : dict V) k :
  dict_get (d ++ e) k =
  match dict_get d k with Some v => Some v | None => dict_get e k end.
Proof.
  induction d as [|[k' v'] d IH]; cbn; [reflexivity|].
  now destruct (str_eqb k' k).
Qed.

(** In [{**d, **e}] the entries of [e] come over those of [d], and of two
    entries of [e] under one key the later one. *)
Lemma dict_get_dict_update {V} (d e : dict V) k :
  dict_get (dict_update d e) k =
  match dict_get (rev e) k with Some v => Some v | None => dict_get d k end.
Proof.
  unfold dict_update. revert d. induction e as [|[k0 v0] e IH]; intros d; cbn [fold_left rev].
  - reflexivity.
  - rewrite IH, dict_get_app. cbn [fst snd dict_get].
    rewrite dict_get_set.
    destruct (dict_get (rev e) k); [reflexivity|].
    now destruct (str_eqb k0 k).
Qed.

Lemma NoDup_keys_dict_update {V} (d e : dict V) :
  NoDup (keys d) -> NoDup (keys (dict_update d e)).
Proof.
  unfold dict_update. revert d. induction e as [|[k0 v0] e IH]; intros d H; cbn.
  - exact H.
  - apply IH. now apply NoDup_keys_dict_set.
Qed.

Lemma keys_dict_update {V} (d e : dict V) k :
  In k (keys (dict_update d e)) <-> In k (keys d) \/ In k (keys e).
Proof.
  unfold dict_update. revert d.
  induction e as [|[k0 v0] e IH]; intros d; cbn [fold_left fst snd].
  - cbn. tauto.
  - rewrite IH. change (keys ((k0, v0) :: e)) with (k0 :: keys e). cbn [In].
    rewrite <- !(dict_mem_keys (dict_set d k0 v0)), <- !(dict_mem_keys d), dict_mem_set.
    destruct (str_eqb k0 k) eqn:E; cbn.
    + apply str_eqb_eq in E. tauto.
    + apply str_eqb_neq in E. tauto.
Qed.

(** *** One entry of the manifest *)

Lemma node_of_manifest_entry_requires p uid d f :
  In f [lit "resource_type"; lit "original_file_path"; lit "tags"; lit "config"] ->
  dict_get d f = None ->
  exists e, node_of_manifest_entry p uid (JObj d) = Raise e.
Proof.
  intros Hf Hnone. unfold node_of_manifest_entry. cbn [subscript].
  destruct (dict_get d (lit "resource_type")) as [rt|] eqn:Ert; cbn [of_option bind];
    [|eauto].
  destruct (as_str rt); cbn [bind]; [|eauto].
  destruct (depends_on_nodes (JObj d)); cbn [bind]; [|eauto].
  destruct (dict_get d (lit "original_file_path")) as [ofp|] eqn:Eofp;
    cbn [of_option bind]; [|eauto].
  destruct (as_str ofp); cbn [bind]; [|eauto].
  destruct (dict_get d (lit "tags")) as [tgs|] eqn:Etags; cbn [of_option bind]; [|eauto].
  destruct (dict_get d (lit "config")) as [cfg|] eqn:Ecfg; cbn [of_option bind]; [|eauto].
  exfalso. destruct Hf as [<-|[<-|[<-|[<-|[]]]]]; congruence.
Qed.

Lemma node_of_manifest_entry_unique_id p uid entry n :
  node_of_manifest_entry p uid entry = Ok n ->
  unique_id n = uid /\ has_test n = false.
Proof.
  unfold node_of_manifest_entry.
  repeat match goal with
         | |- context [bind ?r _] => destruct r; cbn [bind]; [|discriminate]
         end.
  now intros [= <-].
Qed.

Lemma node_of_manifest_entry_defaults p uid d n :
  dict_get d (lit "depends_on") = None ->
  node_of_manifest_entry p uid (JObj d) = Ok n -> depends_on n = [].
Proof.
  intros Hnone. unfold node_of_manifest_entry, depends_on_nodes.
  cbn [get_default]. rewrite Hnone. cbn [bind get_default dict_get as_str_list as_strs].
  repeat match goal with
         | |- context [bind ?r _] => destruct r; cbn [bind]; [|discriminate]
         end.
  now intros [= <-].
Qed.

(** *** The loop over the merged entries *)

Lemma manifest_nodes_raises p resources uid entry e :
  In (uid, entry) resources ->
  node_of_manifest_entry p uid entry = Raise e ->
  forall acc w, exists e' w', manifest_nodes p resources acc w = (Raise e', w').
Proof.
  induction resources as [|[uid0 entry0] resources IH]; intros Hin Hraise acc w; [destruct Hin|].
  cbn [manifest_nodes]. rewrite run_lift_bind.
  destruct (node_of_manifest_entry p uid0 entry0) as [n|e0] eqn:En; [|eauto].
  destruct Hin as [[= -> ->]|Hin]; [congruence|].
  rewrite run_bind. unfold new_object at 1. now apply IH.
Qed.

Lemma manifest_nodes_keeps p resources k :
  ~ In k (keys resources) ->
  forall acc w acc' w',
    manifest_nodes p resources acc w = (Ok acc', w') ->
    dict_get acc' k = dict_get acc k.
Proof.
  induction resources as [|[uid0 entry0] resources IH]; intros Hk acc w acc' w';
    cbn [manifest_nodes].
  - now intros [= <- _].
  - rewrite run_lift_bind.
    destruct (node_of_manifest_entry p uid0 entry0) as [n|] eqn:En; [|discriminate].
    rewrite run_bind. unfold new_object at 1. intros H.
    apply IH in H; [|intros Hin; apply Hk; now right].
    rewrite H. apply dict_get_set_ne.
    destruct (node_of_manifest_entry_unique_id _ _ _ _ En) as [-> _].
    intros ->. apply Hk. now left.
Qed.

Lemma manifest_nodes_entries p resources :
  NoDup (keys resources) ->
  forall acc w acc' w',
    manifest_nodes p resources acc w = (Ok acc', w') ->
    (forall k, In k (keys resources) -> ~ In k (keys acc)) ->
    keys acc' = keys acc ++ keys resources /\
    forall uid entry, In (uid, entry) resources ->
      exists r n, dict_get acc' uid = Some r /\
                  node_of_manifest_entry p uid entry = Ok n /\
                  objects w' r = n.
Proof.
  induction resources as [|[uid0 entry0] resources IH]; intros Hnd acc w acc' w';
    cbn [manifest_nodes].
  - intros [= <- _] _. split; [now rewrite app_nil_r | intros uid entry []].
  - cbn in Hnd. apply NoDup_cons in Hnd as [Hfresh Hnd].
    rewrite run_lift_bind.
    destruct (node_of_manifest_entry p uid0 entry0) as [n|] eqn:En; [|discriminate].
    destruct (node_of_manifest_entry_unique_id _ _ _ _ En) as [Huid _].
    rewrite run_bind.
    destruct (new_object_extends n w) as (_ & _ & Hobj & Hnext).
    destruct (new_object n w) as [r0 w1] eqn:Enew.
    assert (Hr0 : r0 = Ok (next_object w)) by (unfold new_object in Enew; congruence).
    subst r0. cbn [snd] in Hobj, Hnext. rewrite Huid.
    intros Hrun Hdisj.
    assert (Hnew : ~ In uid0 (keys acc)) by (apply Hdisj; now left).
    assert (Hkeys : keys (dict_set acc uid0 (next_object w)) = keys acc ++ [uid0]).
    { rewrite keys_dict_set. destruct (dict_mem acc uid0) eqn:Em; [|reflexivity].
      now apply dict_mem_keys in Em. }
    destruct (IH Hnd _ _ _ _ Hrun) as [Hk Hentries].
    { intros k Hk. rewrite Hkeys. intros Hin. apply in_app_or in Hin as [Hin|[<-|[]]].
      - apply (Hdisj k); [now right | exact Hin].
      - apply Hfresh. now apply list_elem_of_In. }
    split.
    + rewrite Hk, Hkeys, <- app_assoc. reflexivity.
    + intros uid entry [[= -> ->]|Hin]; [|now apply Hentries].
      exists (next_object w), n. split; [|split; [exact En|]].
      * rewrite (manifest_nodes_keeps _ _ _ ltac:(rewrite <- list_elem_of_In; exact Hfresh)
                   _ _ _ _ Hrun).
        apply dict_get_set_eq.
      * enough (Hobjs : forall resources acc w1 acc' w',
                   manifest_nodes p resources acc w1 = (Ok acc', w') ->
                   forall r, (r < next_object w1)%nat -> objects w' r = objects w1 r).
        { rewrite (Hobjs _ _ _ _ _ Hrun) by lia. exact Hobj. }
        clear. induction resources as [|[u e] resources IH]; intros acc w1 acc' w';
          cbn [manifest_nodes].
        -- now intros [= _ <-].
        -- rewrite run_lift_bind.
           destruct (node_of_manifest_entry p u e); [|discriminate].
           rewrite run_bind. unfold new_object at 1. intros Hrun r Hr.
           rewrite (IH _ _ _ _ Hrun) by (cbn; lia). cbn. apply update_ne. lia.
Qed.

(** *** [load_from_dbt_manifest] *)

Lemma load_from_dbt_manifest_raises E p doc resources uid entry e w :
  selector E = None -> execution_project_path E = Some p ->
  manifest E = Some (Some doc) -> manifest_resources doc = Ok resources ->
  In (uid, entry) resources -> node_of_manifest_entry p uid entry = Raise e ->
  exists e' w', load_from_dbt_manifest E w = (Raise e', w').
Proof.
  intros Hsel Hp Hdoc Hres Hin Hraise. unfold load_from_dbt_manifest.
  rewrite run_modify_bind, Hsel, Hdoc, Hp, run_lift_bind. cbn [of_option].
  rewrite run_lift_bind, Hres, run_bind.
  destruct (manifest_nodes_raises p resources uid entry e Hin Hraise []
              (set_load_method DBT_MANIFEST w)) as (e' & w' & ->).
  eauto.
Qed.

(** C9.  Loading from a manifest: a file that is not JSON raises
    [JSONDecodeError]; an entry of the merged sections without
    [resource_type], [original_file_path], [tags] or [config] makes the
    load raise, to the caller of [load] too; and a load that returns has
    put in [nodes] one node for each key of the merged [nodes], [sources]
    and [exposures] sections, a later section coming over an earlier one,
    built from its entry, with [depends_on] empty when the entry has
    none. *)
Theorem load_from_dbt_manifest_merges_sections E p w :
  selector E = None -> execution_project_path E = Some p ->
  (manifest E = Some None ->
   fst (load_from_dbt_manifest E w) = Raise JSONDecodeError /\
   forall mode, fst (load E DBT_MANIFEST mode w) = Raise JSONDecodeError) /\
  (forall doc ns ss es,
     manifest E = Some (Some doc) ->
     manifest_section doc "nodes" = Ok ns ->
     manifest_section doc "sources" = Ok ss ->
     manifest_section doc "exposures" = Ok es ->
     let resources := dict_update (dict_update (dict_update [] ns) ss) es in
     (forall uid,
        dict_get resources uid =
        match dict_get (rev es) uid, dict_get (rev ss) uid with
        | Some entry, _ => Some entry
        | None, Some entry => Some entry
        | None, None => dict_get (rev ns) uid
        end) /\
     (forall uid d f,
        dict_get resources uid = Some (JObj d) ->
        In f [lit "resource_type"; lit "original_file_path"; lit "tags"; lit "config"] ->
        dict_get d f = None ->
        exists e, fst (load_from_dbt_manifest E w) = Raise e /\
                  forall mode, fst (load E DBT_MANIFEST mode w) = Raise e) /\
     (forall w',
        load_from_dbt_manifest E w = (Ok tt, w') ->
        keys (node_entries w') = keys resources /\
        forall uid entry,
          dict_get resources uid = Some entry ->
          exists r n,
            dict_get (node_entries w') uid = Some r /\
            node_of_manifest_entry p uid entry = Ok n /\
            objects w' r = n /\
            (forall d, entry = JObj d -> dict_get d (lit "depends_on") = None ->
               depends_on n = []))).
Proof.
  intros Hsel Hp. split.
  - intros Hdoc.
    assert (Hrun : load_from_dbt_manifest E w
                   = (Raise JSONDecodeError, set_load_method DBT_MANIFEST w)).
    { unfold load_from_dbt_manifest. now rewrite run_modify_bind, Hsel, Hdoc, Hp. }
    split; [now rewrite Hrun|].
    intros mode. now rewrite (load_raises E DBT_MANIFEST mode w _ _ Hrun).
  - intros doc ns ss es Hdoc Hns Hss Hes resources.
    assert (Hres : manifest_resources doc = Ok resources).
    { unfold manifest_resources. now rewrite Hns, Hss, Hes. }
    split; [|split].
    + intros uid. unfold resources. rewrite !dict_get_dict_update. cbn [dict_get].
      now destruct (dict_get (rev es) uid), (dict_get (rev ss) uid),
        (dict_get (rev ns) uid).
    + intros uid d f Hget Hf Hnone.
      destruct (node_of_manifest_entry_requires p uid d f Hf Hnone) as [e He].
      destruct (load_from_dbt_manifest_raises E p doc resources uid (JObj d) e w)
        as (e' & w' & Hrun); auto using dict_get_In.
      exists e'. split; [now rewrite Hrun|].
      intros mode. now rewrite (load_raises E DBT_MANIFEST mode w _ _ Hrun).
    + intros w' Hload.
      apply load_from_dbt_manifest_result in Hload
        as (_ & _ & doc' & resources' & p' & acc & w0 & Hdoc' & Hres' & Hp' & Hnodes
            & Hn & _ & Hobj).
      assert (doc' = doc) by congruence. subst doc'.
      assert (resources' = resources) by congruence. subst resources'.
      assert (p' = p) by congruence. subst p'.
      assert (Hnd : NoDup (keys resources)).
      { unfold resources. repeat apply NoDup_keys_dict_update. apply NoDup_nil_2. }
      destruct (manifest_nodes_entries p resources Hnd _ _ _ _ Hnodes)
        as [Hkeys Hentries].
      { intros k _ []. }
      rewrite Hn. split; [exact Hkeys|].
      intros uid entry Hget.
      destruct (Hentries uid entry (dict_get_In _ _ _ Hget)) as (r & n & Hr & Hnode & Hobjr).
      exists r, n. split; [exact Hr|]. split; [exact Hnode|].
      split; [now rewrite Hobj|].
      intros d -> Hnone. now apply (node_of_manifest_entry_defaults p uid d).
Qed.

Lemma load_from_dbt_manifest_merges_sections_witness :
  keys (node_entries demo_selected)
  = [ lit "model.jaffle.a"; lit "model.jaffle.b"; lit "test.jaffle.t";
      lit "source.jaffle.raw" ].
Proof.
  pose proof (load_from_dbt_manifest_merges_sections
                (demo_env [] (Some (Some demo_manifest)) [lit "model.jaffle.a"] [])
                (lit "/dbt/jaffle") (new_graph []) eq_refl eq_refl) as [_ H].
  destruct (H demo_manifest _ _ _ eq_refl eq_refl eq_refl eq_refl) as (_ & _ & Hloaded).
  destruct (Hloaded demo_selected) as [Hkeys _].
  - vm_compute. reflexivity.
  - rewrite Hkeys. vm_compute. reflexivity.
Defined.

(** An entry without [depends_on], in a manifest without [sources] and
    [exposures], is loaded, with no dependencies. *)
Lemma load_from_dbt_manifest_defaults_depends_on :
  exists w' r,
    load (demo_env [] (Some (Some bare_manifest)) [] []) DBT_MANIFEST LOCAL (new_graph [])
    = (Ok tt, w') /\
    subscript bare_manifest (lit "sources") = Raise KeyError /\
    (exists entry,
       subscript bare_manifest (lit "nodes") = Ok (JObj [(lit "model.jaffle.a", entry)]) /\
       subscript entry (lit "depends_on") = Raise KeyError) /\
    dict_get (node_entries w') (lit "model.jaffle.a") = Some r /\
    depends_on (objects w' r) = [].
Proof.
  exists (snd (load (demo_env [] (Some (Some bare_manifest)) [] [])
                 DBT_MANIFEST LOCAL (new_graph []))), 0%nat.
  split; [vm_compute; reflexivity|]. split; [reflexivity|].
  split; [eexists; split; reflexivity|].
  split; vm_compute; reflexivity.
Qed.

End ManifestFacts.
Export ManifestFacts.

(** ** Names: cache identifiers and node names *)

Module NameFacts.
Import Graph CacheDir NodeName.

Lemma startswith_app p s : startswith (p ++ s) p = true.
Proof.
  induction p as [|c p IH]; cbn; [now destruct s|].
  now rewrite N.eqb_refl.
Qed.

(** [s.replace(c, new)] leaves no [c] when [new] has none. *)
Lemma replace_fuel_char_absent c new fuel s :
  ~ In c new -> (length s <= fuel)%nat -> ~ In c (replace_fuel fuel s [c] new).
Proof.
  intros Hnew. revert s. induction fuel as [|fuel IH]; intros [|x s] Hlen;
    cbn [replace_fuel]; cbn [length] in Hlen; [intros [] | lia | intros [] |].
  cbn [startswith]. replace (startswith s []) with true by now destruct s.
  destruct (c =? x) eqn:Ec; cbn [andb].
  - cbn. intros Hin. apply in_app_or in Hin as [Hin|Hin]; [auto|].
    apply (IH s); [lia | exact Hin].
  - intros [Hx|Hin].
    + apply N.eqb_neq in Ec. congruence.
    + apply (IH s); [lia | exact Hin].
Qed.

Lemma replace_char_absent c new s :
  ~ In c new -> ~ In c (replace s [c] new).
Proof. intros Hnew. unfold replace. now apply replace_fuel_char_absent. Qed.

Lemma In_join sep parts c :
  In c (join sep parts) -> In c sep \/ exists part, In part parts /\ In c part.
Proof.
  induction parts as [|part [|next rest] IH]; cbn [join]; [intros []| |].
  - intros H. right. exists part. split; [now left | exact H].
  - intros H. apply in_app_or in H as [H|H].
    + right. exists part. split; [now left | exact H].
    + apply in_app_or in H as [H|H]; [now left|].
      destruct (IH H) as [Hs|(p & Hp & Hc)]; [now left|].
      right. exists p. split; [now right | exact Hc].
Qed.

Lemma metadata_dag_id dag task_group :
  metadata_get (_get_airflow_metadata dag task_group) (lit "dag_id")
  = match task_group with
    | Some tg => TaskGroup.dag_id tg
    | None => Some (DAG.dag_id dag)
    end.
Proof. now destruct task_group as [[[d|] [g|]]|]. Qed.

Lemma metadata_task_group_id dag task_group :
  metadata_get (_get_airflow_metadata dag task_group) (lit "task_group_id")
  = match task_group with
    | Some tg => TaskGroup.group_id tg
    | None => None
    end.
Proof. now destruct task_group as [[[d|] [g|]]|]. Qed.

(** X1.  The identifier of the cache of a [DbtDag] is the [dag_id]; that
    of a task group is made of its [dag_id] and its [group_id] with every
    dot replaced, so a dot in an identifier can only come from the
    [dag_id]. *)
Theorem _create_cache_identifier_dots dag task_group :
  (task_group = None -> _create_cache_identifier dag task_group = DAG.dag_id dag) /\
  (forall tg d c g,
     task_group = Some tg ->
     TaskGroup.dag_id tg = Some (d :: c) -> TaskGroup.group_id tg = Some g ->
     g <> [] ->
     _create_cache_identifier dag task_group
     = (d :: c) ++ lit "__" ++ replace g (lit ".") (lit "__")) /\
  (In 46 (_create_cache_identifier dag task_group) ->
   In 46 (match task_group with
          | Some tg => match TaskGroup.dag_id tg with Some d => d | None => [] end
          | None => DAG.dag_id dag
          end)).
Proof.
  unfold _create_cache_identifier.
  rewrite metadata_dag_id, metadata_task_group_id.
  split; [|split].
  - intros ->. now destruct (DAG.dag_id dag).
  - intros tg d c g -> -> -> Hne. destruct g; [congruence | reflexivity].
  - intros Hin. apply In_join in Hin as [Hin|(part & Hpart & Hin)].
    { exfalso. revert Hin. change (lit "__") with [95; 95]. cbn.
      intros [H|[H|[]]]; discriminate H. }
    assert (Hgroup : forall g, ~ In 46 (replace g (lit ".") (lit "__"))).
    { intros g. apply (replace_char_absent 46). change (lit "__") with [95; 95]. cbn.
      intros [H|[H|[]]]; discriminate H. }
    destruct task_group as [[[d|] [g|]]|]; cbn [TaskGroup.dag_id TaskGroup.group_id] in *.
    + destruct d as [|x d], g as [|y g]; cbn [app In] in Hpart;
        repeat (destruct Hpart as [<-|Hpart]); try contradiction; auto.
      all: exfalso; eapply Hgroup; exact Hin.
    + destruct d as [|x d]; cbn [app In] in Hpart;
        repeat (destruct Hpart as [<-|Hpart]); try contradiction; auto.
    + destruct g as [|y g]; cbn [app In] in Hpart;
        repeat (destruct Hpart as [<-|Hpart]); try contradiction.
      exfalso; eapply Hgroup; exact Hin.
    + destruct Hpart.
    + destruct (DAG.dag_id dag) as [|x d]; cbn [app In] in Hpart;
        repeat (destruct Hpart as [<-|Hpart]); try contradiction; auto.
Qed.

Lemma _create_cache_identifier_dots_witness :
  _create_cache_identifier {| DAG.dag_id := lit "jaffle_dag" |}
    (Some {| TaskGroup.dag_id := Some (lit "jaffle_dag");
             TaskGroup.group_id := Some (lit "marts.orders") |})
  = lit "jaffle_dag__marts__orders".
Proof.
  apply (proj1 (proj2 (_create_cache_identifier_dots
                         {| DAG.dag_id := lit "jaffle_dag" |}
                         (Some {| TaskGroup.dag_id := Some (lit "jaffle_dag");
                                  TaskGroup.group_id := Some (lit "marts.orders") |})))
           {| TaskGroup.dag_id := Some (lit "jaffle_dag");
              TaskGroup.group_id := Some (lit "marts.orders") |}
           106 (lit "affle_dag") (lit "marts.orders"));
    first [reflexivity | discriminate].
Defined.

(** *** [split] *)

Lemma split_max_cut sep s n :
  (~ In sep s /\ split_max sep s (S n) = [s]) \/
  exists t rest, s = t ++ sep :: rest /\ ~ In sep t /\
                 split_max sep s (S n) = t :: split_max sep rest n.
Proof.
  induction s as [|c s IH].
  - left. split; [intros []|reflexivity].
  - cbn [split_max]. destruct (c =? sep) eqn:Ec.
    + apply N.eqb_eq in Ec. subst c. right. exists [], s.
      split; [reflexivity|]. split; [intros []|reflexivity].
    + apply N.eqb_neq in Ec. destruct IH as [[Hs ->]|(t & rest & -> & Ht & ->)].
      * left. split; [|reflexivity]. intros [H|H]; [congruence | contradiction].
      * right. exists (c :: t), rest. split; [reflexivity|].
        split; [|reflexivity]. intros [H|H]; [congruence | contradiction].
Qed.

Lemma split_max_O sep s : split_max sep s 0 = [s].
Proof. now destruct s. Qed.

Lemma cut_unique (sep : N) t1 r1 t2 r2 :
  t1 ++ sep :: r1 = t2 ++ sep :: r2 -> ~ In sep t1 -> ~ In sep t2 ->
  t1 = t2 /\ r1 = r2.
Proof.
  revert t2. induction t1 as [|x t1 IH]; intros [|y t2]; cbn.
  - now intros [= ->].
  - intros [= <- _] _ H. exfalso. apply H. now left.
  - intros [= -> _] H _. exfalso. apply H. now left.
  - intros [= -> Heq] H1 H2. destruct (IH t2 Heq) as [-> ->]; auto.
Qed.

Lemma resource_name_iff node r :
  resource_name node = Some r <->
  exists t p, unique_id node = t ++ lit "." ++ p ++ lit "." ++ r /\
              ~ In 46 t /\ ~ In 46 p.
Proof.
  unfold resource_name. split.
  - intros H.
    destruct (split_max_cut 46 (unique_id node) 1) as [[_ E]|(t & rest & Hs & Ht & E)];
      rewrite E in H; [discriminate H|].
    destruct (split_max_cut 46 rest 0) as [[_ E']|(p & rest' & Hr & Hp & E')];
      rewrite E' in H; [discriminate H|].
    rewrite split_max_O in H. injection H as <-.
    exists t, p. rewrite Hs, Hr. auto.
  - intros (t & p & Hs & Ht & Hp).
    change (lit ".") with [46] in Hs. cbn [app] in Hs.
    destruct (split_max_cut 46 (unique_id node) 1) as [[Hn _]|(t' & rest & Hs' & Ht' & E)].
    { exfalso. apply Hn. rewrite Hs. apply in_or_app. right. now left. }
    rewrite E. rewrite Hs in Hs'.
    destruct (cut_unique _ _ _ _ _ Hs' Ht Ht') as [<- <-].
    destruct (split_max_cut 46 (p ++ 46 :: r) 0) as [[Hn _]|(p' & rest' & Hr & Hp' & E')].
    { exfalso. apply Hn. apply in_or_app. right. now left. }
    rewrite E'. destruct (cut_unique _ _ _ _ _ Hr Hp Hp') as [<- <-].
    now rewrite split_max_O.
Qed.

(** X2.  [resource_name] is what follows the second dot of the
    [unique_id], dots included, and the [IndexError] is for a [unique_id]
    with fewer than two dots; [name] is the [resource_name] without its
    dots. *)
Theorem resource_name_after_second_dot node :
  (forall r,
     resource_name node = Some r <->
     exists t p, unique_id node = t ++ lit "." ++ p ++ lit "." ++ r /\
                 ~ In 46 t /\ ~ In 46 p) /\
  (resource_name node = None <->
   forall t p r, ~ In 46 t -> ~ In 46 p ->
                 unique_id node <> t ++ lit "." ++ p ++ lit "." ++ r) /\
  (forall n, name node = Some n ->
             ~ In 46 n /\
             exists r, resource_name node = Some r /\ n = replace r (lit ".") (lit "_")).
Proof.
  split; [exact (resource_name_iff node)|]. split.
  - split.
    + intros Hnone t p r Ht Hp Hs.
      assert (H : resource_name node = Some r) by (apply resource_name_iff; eauto).
      congruence.
    + intros Hno. destruct (resource_name node) as [r|] eqn:E; [|reflexivity].
      apply resource_name_iff in E as (t & p & Hs & Ht & Hp).
      exfalso. now apply (Hno t p r).
  - intros n. unfold name. destruct (resource_name node) as [r|]; [|discriminate].
    intros [= <-]. split; [|now exists r].
    apply (replace_char_absent 46). cbn. intros [H|[]]. discriminate H.
Qed.

(** X3.  A node of the custom parser is named after its model: when
    neither the type nor the project name has a dot, its [resource_name]
    is the name it is listed under. *)
Theorem custom_parser_resource_name E render_path execution_path model_name model :
  ~ In 46 (type_value model) -> ~ In 46 (project_name E) ->
  resource_name (node_of_legacy_model E render_path execution_path model_name model)
  = Some model_name /\
  name (node_of_legacy_model E render_path execution_path model_name model)
  = Some (replace model_name (lit ".") (lit "_")).
Proof.
  intros Ht Hp.
  assert (H : resource_name
                (node_of_legacy_model E render_path execution_path model_name model)
              = Some model_name).
  { apply resource_name_iff. exists (type_value model), (project_name E). auto. }
  split; [exact H|]. unfold name. now rewrite H.
Qed.

Lemma custom_parser_resource_name_witness :
  resource_name
    (node_of_legacy_model (demo_env [] None [] []) (lit "/dbt/jaffle") (lit "/dbt/jaffle")
       (lit "orders.v2")
       {| type_value := lit "model"; config_selectors := []; upstream_models := [];
          model_path := lit "/dbt/jaffle/models/orders.sql" |})
  = Some (lit "orders.v2") /\
  name
    (node_of_legacy_model (demo_env [] None [] []) (lit "/dbt/jaffle") (lit "/dbt/jaffle")
       (lit "orders.v2")
       {| type_value := lit "model"; config_selectors := []; upstream_models := [];
          model_path := lit "/dbt/jaffle/models/orders.sql" |})
  = Some (lit "orders_v2").
Proof.
  apply (custom_parser_resource_name (demo_env [] None [] [])).
  - vm_compute. intros H. repeat (destruct H as [H|H]; [discriminate H|]). exact H.
  - vm_compute. intros H. repeat (destruct H as [H|H]; [discriminate H|]). exact H.
Defined.

Lemma replace_fuel_same fuel s old : replace_fuel fuel s old old = s.
Proof.
  revert s. induction fuel as [|fuel IH]; intros s; cbn [replace_fuel]; [reflexivity|].
  destruct s as [|c s]; [reflexivity|].
  destruct (startswith (c :: s) old) eqn:E; [|now rewrite IH].
  rewrite IH. clear IH. revert E. generalize (c :: s). clear.
  induction old as [|x old IH]; intros s; [reflexivity|].
  destruct s as [|y s]; cbn [startswith]; [discriminate|].
  intros E. apply andb_true_iff in E as [Exy E]. apply N.eqb_eq in Exy. subst y.
  cbn [length skipn app]. f_equal. now apply IH.
Qed.

(** X19.  When the project is rendered where it is executed, the custom
    parser leaves the path of every model as it is. *)
Theorem custom_parser_keeps_paths E project_path model_name model :
  file_path (node_of_legacy_model E project_path project_path model_name model)
  = model_path model.
Proof.
  cbn [file_path node_of_legacy_model]. unfold replace.
  destruct project_path; [reflexivity | apply replace_fuel_same].
Qed.

End NameFacts.
Export NameFacts.

(** ** The partial parse: the newest file and the patch *)

Module PartialParseFacts.
Import Cache CacheDir.

Lemma nonzero_true t : nonzero t = true <-> ~ (t == 0)%Q.
Proof.
  unfold nonzero. rewrite negb_true_iff. split.
  - apply Qeq_bool_neq.
  - intros H. destruct (Qeq_bool t 0) eqn:E; [|reflexivity].
    apply Qeq_bool_iff in E. contradiction.
Qed.

Lemma nonzero_false t : nonzero t = false <-> (t == 0)%Q.
Proof. unfold nonzero. rewrite negb_false_iff. apply Qeq_bool_iff. Qed.

(** X4.  [_get_latest_partial_parse] answers [None] exactly when neither
    file has a modification time other than zero (a missing file has
    zero); otherwise it answers with a file that has one, the project's
    when the cached one has none or is strictly older, the cached one
    when the project's has none or is not newer. *)
Theorem _get_latest_partial_parse_newest get_partial_parse_path stat
    dbt_project_path cache_dir :
  let project := get_partial_parse_path dbt_project_path in
  let cached := get_partial_parse_path cache_dir in
  let latest :=
    _get_latest_partial_parse get_partial_parse_path stat dbt_project_path cache_dir in
  (latest = None <->
   (_get_timestamp stat project == 0)%Q /\ (_get_timestamp stat cached == 0)%Q) /\
  (latest = Some project /\ project <> cached ->
   ~ (_get_timestamp stat project == 0)%Q /\
   ((_get_timestamp stat cached == 0)%Q \/
    (_get_timestamp stat cached < _get_timestamp stat project)%Q)) /\
  (latest = Some cached /\ project <> cached ->
   ~ (_get_timestamp stat cached == 0)%Q /\
   ((_get_timestamp stat project == 0)%Q \/
    (_get_timestamp stat project <= _get_timestamp stat cached)%Q)) /\
  (forall p, latest = Some p -> p = project \/ p = cached).
Proof.
  intros project cached latest. subst latest. unfold _get_latest_partial_parse.
  fold project cached.
  set (tp := _get_timestamp stat project). set (tc := _get_timestamp stat cached).
  assert (Hlt : Qle_bool tp tc = false -> (tc < tp)%Q).
  { intros H. apply Qnot_le_lt. intros Hle. apply Qle_bool_iff in Hle. congruence. }
  destruct (nonzero tp) eqn:Ep, (nonzero tc) eqn:Ec; cbn [andb];
    [destruct (Qle_bool tp tc) eqn:Ele; cbn [negb]| | |];
    repeat match goal with
           | H : nonzero _ = true |- _ => apply nonzero_true in H
           | H : nonzero _ = false |- _ => apply nonzero_false in H
           | H : Qle_bool _ _ = true |- _ => apply Qle_bool_iff in H
           | H : Qle_bool _ _ = false |- _ => apply Hlt in H
           end;
    (split; [split; [first [discriminate | intros _; tauto]
                    | first [intros _; reflexivity | tauto]]|]);
    (split; [first [ intros [H _]; discriminate H | intros _; tauto
                   | intros [H Hne]; injection H as H; congruence ]|]);
    (split; [first [ intros [H _]; discriminate H | intros _; tauto
                   | intros [H Hne]; injection H as H; congruence ]|]);
    intros p H; first [discriminate H | injection H as <-; auto].
Qed.

(** *** What the patch rewrites *)

(** A record the patch rewrites: an object whose [root_path] is a
    non-empty string naming no existing path. *)
Definition outdated (path_exists : str -> bool) (fields : dict json) (p : str) : Prop :=
  dict_get fields (lit "root_path") = Some (JStr p) /\ p <> [] /\ path_exists p = false.

Lemma patch_nodes_entries path_exists project_path nodes patched nodes' :
  patch_nodes path_exists project_path nodes = Ok (patched, nodes') ->
  keys nodes' = keys nodes /\
  (patched = false -> nodes' = nodes) /\
  (forall uid node', In (uid, node') nodes' ->
     In (uid, node') nodes \/
     exists fields p,
       In (uid, JObj fields) nodes /\ outdated path_exists fields p /\
       node' = JObj (dict_set fields (lit "root_path") (JStr project_path))).
Proof.
  revert patched nodes'.
  induction nodes as [|[uid node] rest IH]; intros patched nodes'; cbn [patch_nodes].
  - intros [= <- <-]. auto.
  - destruct (get_default node (lit "root_path") JNull) as [e|] eqn:Eget; [|discriminate].
    cbn [bind].
    assert (Hskip : forall b rest',
              patch_nodes path_exists project_path rest = Ok (b, rest') ->
              keys ((uid, node) :: rest') = keys ((uid, node) :: rest) /\
              (b = false -> (uid, node) :: rest' = (uid, node) :: rest) /\
              forall uid0 node', In (uid0, node') ((uid, node) :: rest') ->
                In (uid0, node') ((uid, node) :: rest) \/
                exists fields p,
                  In (uid0, JObj fields) ((uid, node) :: rest) /\
                  outdated path_exists fields p /\
                  node' = JObj (dict_set fields (lit "root_path") (JStr project_path))).
    { intros b rest' Hr. destruct (IH _ _ Hr) as (Hk & Hsame & Hin).
      split; [unfold keys in *; cbn [map]; now rewrite Hk|]. split; [intros Hb; now rewrite Hsame|].
      intros uid0 node' [H|H]; [left; now left|].
      destruct (Hin _ _ H) as [H'|(fields & p & H' & Hout & ->)]; [left; now right|].
      right. exists fields, p. split; [now right | auto]. }
    destruct e as [|b|n|p|l|o]; cbn [truthy].
    + destruct (patch_nodes path_exists project_path rest) as [[b rest']|] eqn:Er;
        [|discriminate].
      cbn [bind fst snd]. intros [= <- <-]. now apply Hskip.
    + destruct b; [discriminate|]. intros [= <- <-]. auto.
    + destruct (negb (n =? 0)%Z); [discriminate|]. intros [= <- <-]. auto.
    + destruct p as [|c p]; [intros [= <- <-]; auto|].
      destruct node as [| | | | |fields]; try discriminate.
      destruct (path_exists (c :: p)) eqn:Ep; cbn [negb]; [intros [= <- <-]; auto|].
      destruct (patch_nodes path_exists project_path rest) as [[b rest']|] eqn:Er;
        [|discriminate].
      cbn [bind fst snd]. intros [= <- <-].
      destruct (IH _ _ eq_refl) as (Hk & _ & Hin).
      split; [unfold keys in *; cbn [map]; now rewrite Hk|]. split; [discriminate|].
      assert (Hout : outdated path_exists fields (c :: p)).
      { unfold outdated. cbn [get_default] in Eget.
        destruct (dict_get fields (lit "root_path")) as [v|]; [|discriminate Eget].
        injection Eget as ->. repeat split; [discriminate | exact Ep]. }
      intros uid0 node' [[= <- <-]|H].
      * right. exists fields, (c :: p). split; [now left | auto].
      * destruct (Hin _ _ H) as [H'|(fields' & p' & H' & Hout' & ->)]; [left; now right|].
        right. exists fields', p'. split; [now right | auto].
    + destruct l; [|discriminate]. intros [= <- <-]. auto.
    + destruct o; [|discriminate]. intros [= <- <-]. auto.
Qed.

(** X5.  When [patch_partial_parse_content] returns [False] the file is
    as it was; when it returns [True] the file written holds the document
    read with [nodes] replaced: the same keys in the same order, each
    record either as it was or an outdated one with [root_path] set to
    the project path. *)
Theorem patch_partial_parse_content_rewrites_outdated
    path_exists partial_parse_file project_path patched patched_file :
  patch_partial_parse_content path_exists partial_parse_file project_path
  = Ok (patched, patched_file) ->
  (patched = false -> patched_file = partial_parse_file) /\
  (patched = true ->
   exists top nodes nodes',
     partial_parse_file = Packed (JObj top) /\
     dict_get top (lit "nodes") = Some (JObj nodes) /\
     patched_file = Packed (JObj (dict_set top (lit "nodes") (JObj nodes'))) /\
     keys nodes' = keys nodes /\
     forall uid node', In (uid, node') nodes' ->
       In (uid, node') nodes \/
       exists fields p,
         In (uid, JObj fields) nodes /\ outdated path_exists fields p /\
         node' = JObj (dict_set fields (lit "root_path") (JStr project_path))).
Proof.
  unfold patch_partial_parse_content.
  destruct partial_parse_file as [| |data]; [discriminate | |].
  { intros [= <- <-]. split; [reflexivity | discriminate]. }
  destruct (nodes_of data) as [nodes|] eqn:En; [|discriminate]. cbn [bind].
  destruct (patch_nodes path_exists project_path nodes) as [[b nodes']|] eqn:Ep;
    [|discriminate].
  cbn [bind fst snd]. destruct (patch_nodes_entries _ _ _ _ _ Ep) as (Hk & _ & Hin).
  destruct b.
  - destruct data as [| | | | |top]; try discriminate. intros [= <- <-].
    split; [discriminate|]. intros _. exists top, nodes, nodes'.
    split; [reflexivity|]. split; [|auto].
    unfold nodes_of in En. cbn [subscript] in En.
    destruct (dict_get top (lit "nodes")) as [[| | | | |d]|]; try discriminate.
    cbn in En. congruence.
  - intros [= <- <-]. split; [reflexivity | discriminate].
Qed.

Lemma patch_partial_parse_content_rewrites_outdated_witness :
  exists top nodes nodes',
    demo_artifact "/usr/app/old" = Packed (JObj top) /\
    dict_get top (lit "nodes") = Some (JObj nodes) /\
    demo_artifact "/tmp/project"
    = Packed (JObj (dict_set top (lit "nodes") (JObj nodes'))) /\
    keys nodes' = keys nodes.
Proof.
  destruct (proj2 (patch_partial_parse_content_rewrites_outdated
                     (str_eqb (lit "/tmp/project")) (demo_artifact "/usr/app/old")
                     (lit "/tmp/project") true (demo_artifact "/tmp/project") eq_refl)
              eq_refl)
    as (top & nodes & nodes' & Hfile & Hnodes & Hpatched & Hkeys & _).
  exists top, nodes, nodes'. auto.
Defined.

(** X6.  The loop of the patch ends at the first record whose
    [root_path] is in place: that record and every record after it are
    left as they are, outdated or not. *)
Theorem patch_nodes_stops_at_first_in_place
    path_exists project_path before uid fields p after patched nodes' :
  dict_get fields (lit "root_path") = Some (JStr p) ->
  path_exists p = true ->
  patch_nodes path_exists project_path (before ++ (uid, JObj fields) :: after)
  = Ok (patched, nodes') ->
  exists before',
    nodes' = before' ++ (uid, JObj fields) :: after /\
    patch_nodes path_exists project_path before = Ok (patched, before').
Proof.
  intros Hget Hex. revert patched nodes'.
  induction before as [|[uid0 node] before IH]; intros patched nodes';
    cbn [app patch_nodes].
  - cbn [get_default bind]. rewrite Hget.
    destruct p as [|c p]; cbn [truthy].
    + intros [= <- <-]. now exists [].
    + rewrite Hex. cbn [negb]. intros [= <- <-]. now exists [].
  - destruct (get_default node (lit "root_path") JNull) as [e|]; [|discriminate].
    cbn [bind].
    destruct e as [|b|n|q|l|o]; cbn [truthy].
    + destruct (patch_nodes path_exists project_path (before ++ _)) as [[b rest']|] eqn:Er;
        [|discriminate].
      cbn [bind fst snd]. intros [= <- <-].
      destruct (IH _ _ eq_refl) as (before' & -> & Hb). rewrite Hb. cbn [bind fst snd].
      now exists ((uid0, node) :: before').
    + destruct b; [discriminate|]. intros [= <- <-]. now exists ((uid0, node) :: before).
    + destruct (negb (n =? 0)%Z); [discriminate|]. intros [= <- <-].
      now exists ((uid0, node) :: before).
    + destruct q as [|c q]; [intros [= <- <-]; now exists ((uid0, node) :: before)|].
      destruct node as [| | | | |fields0]; try discriminate.
      destruct (path_exists (c :: q)); cbn [negb];
        [intros [= <- <-]; now exists ((uid0, JObj fields0) :: before)|].
      destruct (patch_nodes path_exists project_path (before ++ _)) as [[b rest']|] eqn:Er;
        [|discriminate].
      cbn [bind fst snd]. intros [= <- <-].
      destruct (IH _ _ eq_refl) as (before' & -> & Hb). rewrite Hb. cbn [bind fst snd].
      now eexists (_ :: before').
    + destruct l; [|discriminate]. intros [= <- <-]. now exists ((uid0, node) :: before).
    + destruct o; [|discriminate]. intros [= <- <-]. now exists ((uid0, node) :: before).
Qed.

Lemma patch_nodes_stops_at_first_in_place_witness :
  patch_nodes (str_eqb (lit "/tmp/project")) (lit "/tmp/project")
    [ (lit "model.jaffle.a", JObj [(lit "root_path", JStr (lit "/usr/app/old"))]);
      (lit "model.jaffle.b", JObj [(lit "root_path", JStr (lit "/tmp/project"))]);
      (lit "model.jaffle.c", JObj [(lit "root_path", JStr (lit "/usr/app/old"))]) ]
  = Ok (true,
        [ (lit "model.jaffle.a", JObj [(lit "root_path", JStr (lit "/tmp/project"))]);
          (lit "model.jaffle.b", JObj [(lit "root_path", JStr (lit "/tmp/project"))]);
          (lit "model.jaffle.c", JObj [(lit "root_path", JStr (lit "/usr/app/old"))]) ]).
Proof.
  destruct (patch_nodes_stops_at_first_in_place
              (str_eqb (lit "/tmp/project")) (lit "/tmp/project")
              [ (lit "model.jaffle.a", JObj [(lit "root_path", JStr (lit "/usr/app/old"))]) ]
              (lit "model.jaffle.b") [(lit "root_path", JStr (lit "/tmp/project"))]
              (lit "/tmp/project")
              [ (lit "model.jaffle.c", JObj [(lit "root_path", JStr (lit "/usr/app/old"))]) ]
              true
              [ (lit "model.jaffle.a", JObj [(lit "root_path", JStr (lit "/tmp/project"))]);
                (lit "model.jaffle.b", JObj [(lit "root_path", JStr (lit "/tmp/project"))]);
                (lit "model.jaffle.c", JObj [(lit "root_path", JStr (lit "/usr/app/old"))]) ])
    as (before' & _ & _); reflexivity.
Defined.

End PartialParseFacts.
Export PartialParseFacts.

(** ** The sweep and the records it reads *)

Module SweepFacts.
Import Graph Cache CacheDir.

Lemma collect_app before after groups total :
  collect (before ++ after) groups total
  = match collect before groups total with
    | Ok r => collect after (fst r) (snd r)
    | Raise e => Raise e
    end.
Proof.
  revert groups total. induction before as [|v before IH]; intros groups total;
    cbn [app collect]; [reflexivity|].
  destruct (startswith (key v) VAR_KEY_CACHE_PREFIX); [|apply IH].
  destruct (json_loads (val v)) as [j|]; cbn [bind]; [|reflexivity].
  destruct (dag_id_of j) as [d|]; cbn [bind]; [apply IH | reflexivity].
Qed.

(** X7.  The sweep reads every Cosmos cache before it deletes any: the
    first one that is not JSON ends it with [JSONDecodeError], the first
    one that is an object without [dag_id] with [KeyError]. *)
Theorem delete_unused_dbt_ls_cache_unreadable
    max_age_last_usage now (s : Session) before v after :
  variables s = before ++ v :: after ->
  Forall readable before ->
  is_cache v = true ->
  (val v = NotJson ->
   delete_unused_dbt_ls_cache max_age_last_usage now (Some s) = Raise JSONDecodeError) /\
  (forall d, val v = Json (JObj d) -> dict_get d (lit "dag_id") = None ->
   delete_unused_dbt_ls_cache max_age_last_usage now (Some s) = Raise KeyError).
Proof.
  intros Hvars Hbefore Hcache. unfold delete_unused_dbt_ls_cache.
  rewrite Hvars, collect_app.
  destruct (collect_entries before [] 0%Z Hbefore) as (groups & -> & _).
  cbn [fst snd collect]. unfold is_cache in Hcache. rewrite Hcache.
  split.
  - now intros ->.
  - intros d -> Hnone. cbn [json_loads bind]. unfold dag_id_of. cbn [subscript].
    now rewrite Hnone.
Qed.

Lemma delete_unused_dbt_ls_cache_unreadable_witness :
  delete_unused_dbt_ls_cache 432000 1000000
    (Some {| variables := variables demo_session ++
                          [ {| key := lit "cosmos_cache__broken"; val := NotJson |} ];
             dag_runs := dag_runs demo_session |})
  = Raise JSONDecodeError.
Proof.
  destruct (delete_unused_dbt_ls_cache_unreadable 432000 1000000
              {| variables := variables demo_session ++
                              [ {| key := lit "cosmos_cache__broken"; val := NotJson |} ];
                 dag_runs := dag_runs demo_session |}
              (variables demo_session)
              {| key := lit "cosmos_cache__broken"; val := NotJson |} [])
    as [Hraises _].
  - reflexivity.
  - apply readable_check. reflexivity.
  - reflexivity.
  - apply Hraises. reflexivity.
Defined.

(** *** What [save_dbt_ls_cache] stores *)

Lemma In_Variable_set vars k value :
  In {| key := k; val := Json value |} (Variable_set vars k value).
Proof.
  induction vars as [|v vars IH]; cbn [Variable_set]; [now left|].
  destruct (str_eqb (key v) k); [now left | now right].
Qed.

Lemma Forall_Variable_set (P : Var -> Prop) vars k value :
  Forall P vars -> P {| key := k; val := Json value |} ->
  Forall P (Variable_set vars k value).
Proof.
  intros Hvars Hnew. induction Hvars as [|v vars Hv Hvars IH]; cbn [Variable_set].
  - now constructor.
  - destruct (str_eqb (key v) k); now constructor.
Qed.

Lemma In_keys_Variable_set vars k value x :
  In x (map key (Variable_set vars k value)) -> x = k \/ In x (map key vars).
Proof.
  induction vars as [|v vars IH]; cbn [Variable_set map In key];
    [intuition congruence|].
  destruct (str_eqb (key v) k) eqn:E; cbn [map In key].
  - intuition congruence.
  - intros [H|H]; [tauto|]. destruct (IH H); tauto.
Qed.

Lemma NoDup_keys_Variable_set vars k value :
  NoDup (map key vars) -> NoDup (map key (Variable_set vars k value)).
Proof.
  induction vars as [|v vars IH]; cbn [Variable_set map]; [intros _; apply NoDup_singleton|].
  intros Hnd. apply NoDup_cons in Hnd as [Hv Hnd].
  destruct (str_eqb (key v) k) eqn:E; cbn [map key].
  - apply str_eqb_eq in E. rewrite <- E. now apply NoDup_cons.
  - apply str_eqb_neq in E. apply NoDup_cons. split; [|now apply IH].
    intros Hin. apply list_elem_of_In in Hin.
    apply In_keys_Variable_set in Hin as [Hk|Hin]; [congruence|].
    apply Hv. now apply list_elem_of_In.
Qed.

Lemma dag_id_of_saved base dag task_group :
  dict_get base (lit "dag_id") = None ->
  dag_id_of (JObj (dict_update base
                     (json_of_metadata (_get_airflow_metadata dag task_group))))
  = Ok match task_group with
       | Some tg => TaskGroup.dag_id tg
       | None => Some (DAG.dag_id dag)
       end.
Proof.
  intros Hbase. unfold dag_id_of. cbn [subscript]. rewrite dict_get_dict_update.
  destruct task_group as [[[d|] [g|]]|]; cbn; try rewrite Hbase; reflexivity.
Qed.

(** X8.  What [save_dbt_ls_cache] stores for a graph whose metadata are
    those of [_get_airflow_metadata] is a record the sweep can read: JSON
    with the [dag_id] of the DAG, of a task group too.  Saving keeps the
    keys of the Variables distinct and the Variables readable, and the
    key is one the sweep takes for a Cosmos cache when it was made by
    [create_cache_key]. *)
Theorem save_dbt_ls_cache_stores_a_readable_record
    E dag task_group dbt_ls_output w w' :
  airflow_metadata E = json_of_metadata (_get_airflow_metadata dag task_group) ->
  save_dbt_ls_cache E dbt_ls_output w = (Ok tt, w') ->
  exists v,
    In v (airflow_variables w') /\
    key v = dbt_ls_cache_key E /\
    (forall cache_identifier,
       dbt_ls_cache_key E = create_cache_key cache_identifier -> is_cache v = true) /\
    readable v /\
    entity v = match task_group with
               | Some tg => TaskGroup.dag_id tg
               | None => Some (DAG.dag_id dag)
               end /\
    (Forall readable (airflow_variables w) -> Forall readable (airflow_variables w')) /\
    (NoDup (map key (airflow_variables w)) -> NoDup (map key (airflow_variables w'))).
Proof.
  intros Hmeta. unfold save_dbt_ls_cache.
  rewrite run_lift_bind. destruct (Utf8.encode dbt_ls_output) as [utf8|]; [|discriminate].
  rewrite run_lift_bind.
  destruct (Utf8.decode (Base64.b64encode (zlib_compress E utf8))) as [text|];
    [|discriminate].
  rewrite run_lift_bind. destruct (current_version E) as [version|]; [|discriminate].
  unfold modify. intros [= <-]. cbn [airflow_variables set_airflow_variables].
  rewrite Hmeta.
  set (record := JObj (dict_update _ _)).
  assert (Hdag : dag_id_of record
                 = Ok match task_group with
                      | Some tg => TaskGroup.dag_id tg
                      | None => Some (DAG.dag_id dag)
                      end) by (apply dag_id_of_saved; reflexivity).
  assert (Hreadable : readable {| key := dbt_ls_cache_key E; val := Json record |}).
  { intros _. eexists _, _. split; [reflexivity | exact Hdag]. }
  exists {| key := dbt_ls_cache_key E; val := Json record |}.
  split; [apply In_Variable_set|]. split; [reflexivity|].
  split; [intros id Hid; unfold is_cache; cbn [key]; rewrite Hid; apply startswith_app|].
  split; [exact Hreadable|].
  split; [unfold entity; cbn [val]; now rewrite Hdag|].
  split; [intros H; now apply Forall_Variable_set | apply NoDup_keys_Variable_set].
Qed.

Lemma save_dbt_ls_cache_stores_a_readable_record_witness :
  exists v,
    In v (airflow_variables
            (snd (save_dbt_ls_cache
                    (demo_env (json_of_metadata
                                 (_get_airflow_metadata
                                    {| DAG.dag_id := lit "jaffle_dag" |} None))
                       None [] [])
                    (lit "model a ") (new_graph [])))) /\
    key v = create_cache_key (lit "jaffle_dag") /\
    entity v = Some (lit "jaffle_dag").
Proof.
  destruct (save_dbt_ls_cache_stores_a_readable_record
              (demo_env (json_of_metadata
                           (_get_airflow_metadata {| DAG.dag_id := lit "jaffle_dag" |} None))
                 None [] [])
              {| DAG.dag_id := lit "jaffle_dag" |} None (lit "model a ") (new_graph [])
              (snd (save_dbt_ls_cache
                      (demo_env (json_of_metadata
                                   (_get_airflow_metadata
                                      {| DAG.dag_id := lit "jaffle_dag" |} None))
                         None [] [])
                      (lit "model a ") (new_graph []))))
    as (v & Hin & Hkey & _ & _ & Hentity & _).
  - reflexivity.
  - vm_compute. reflexivity.
  - exists v. auto.
Defined.

End SweepFacts.
Export SweepFacts.

(** ** What a load leaves alone *)

Module FrameFacts.
Import Graph.

(** A relation between the world before and the world after that a
    computation keeps, whatever its outcome. *)
Definition preserves {A} (R : World -> World -> Prop) (m : M A) : Prop :=
  forall w r w', m w = (r, w') -> R w w'.

Section preserves.
Variable R : World -> World -> Prop.
Hypothesis R_refl : forall w, R w w.
Hypothesis R_trans : forall w1 w2 w3, R w1 w2 -> R w2 w3 -> R w1 w3.

Lemma preserves_ret {A} (a : A) : preserves R (mret a).
Proof. intros w r w' [= _ <-]. apply R_refl. Qed.

Lemma preserves_lift {A} (x : result A) : preserves R (lift x).
Proof. intros w r w' [= _ <-]. apply R_refl. Qed.

Lemma preserves_raise {A} e : preserves R (raise e : M A).
Proof. intros w r w' [= _ <-]. apply R_refl. Qed.

Lemma preserves_read {A} (f : World -> A) : preserves R (read f).
Proof. intros w r w' [= _ <-]. apply R_refl. Qed.

Lemma preserves_modify f : (forall w, R w (f w)) -> preserves R (modify f).
Proof. intros H w r w' [= _ <-]. apply H. Qed.

Lemma preserves_bind {A B} (m : M A) (f : A -> M B) :
  preserves R m -> (forall a, preserves R (f a)) -> preserves R (m ≫= f).
Proof.
  intros Hm Hf w r w'. rewrite run_bind.
  destruct (m w) as [[a|e] w1] eqn:Em.
  - intros H. eapply R_trans; [exact (Hm _ _ _ Em) | exact (Hf _ _ _ _ H)].
  - intros [= _ <-]. exact (Hm _ _ _ Em).
Qed.

Lemma preserves_try_except {A} (m : M A) handled (handler : M A) :
  preserves R m -> preserves R handler -> preserves R (try_except m handled handler).
Proof.
  intros Hm Hh w r w'. unfold try_except.
  destruct (m w) as [[a|e] w1] eqn:Em.
  - intros [= _ <-]. exact (Hm _ _ _ Em).
  - destruct (handled e).
    + intros H. eapply R_trans; [exact (Hm _ _ _ Em) | exact (Hh _ _ _ H)].
    + intros [= _ <-]. exact (Hm _ _ _ Em).
Qed.

(** What is kept by every step but a write of the Variables. *)
Hypothesis R_variables :
  forall w w', airflow_variables w' = airflow_variables w -> R w w'.

Variable E : Env.
Hypothesis R_save :
  should_use_dbt_ls_cache E = true ->
  forall dbt_ls_output, preserves R (save_dbt_ls_cache E dbt_ls_output).

Lemma preserves_new_object node : preserves R (new_object node).
Proof. intros w r w' [= _ <-]. now apply R_variables. Qed.

Lemma preserves_new_dict d : preserves R (new_dict d).
Proof. intros w r w' [= _ <-]. now apply R_variables. Qed.

Ltac step :=
  first
    [ apply preserves_ret | apply preserves_lift | apply preserves_raise
    | apply preserves_read | apply preserves_new_object | apply preserves_new_dict
    | apply preserves_modify; intros; apply R_variables; reflexivity
    | apply preserves_bind; [|intros] ].

Lemma preserves_parse_lines p lines acc : preserves R (parse_lines E p lines acc).
Proof.
  revert acc. induction lines as [|line lines IH]; intros acc; cbn [parse_lines].
  - step.
  - destruct (parse_line E line); [|apply IH].
    step; [step|]. step; [apply preserves_new_object | apply IH].
Qed.

Lemma preserves_parse_dbt_ls_output p ls_stdout :
  preserves R (parse_dbt_ls_output E p ls_stdout).
Proof.
  unfold parse_dbt_ls_output. step; [apply preserves_parse_lines | apply preserves_new_dict].
Qed.

Lemma preserves_load_via_dbt_ls_cache : preserves R (load_via_dbt_ls_cache E).
Proof.
  unfold load_via_dbt_ls_cache. destruct (should_use_dbt_ls_cache E); [|step].
  do 3 (step; [step|]).
  match goal with
  | |- preserves _ (match ?x with [] => _ | _ :: _ => _ end) => destruct x
  end; [step|].
  step; [step|].
  match goal with |- preserves _ (if ?c then _ else _) => destruct c end; [|step].
  step; [step|].
  match goal with |- preserves _ (if ?c then _ else _) => destruct c end; [|step].
  step; [step|]. step; [step|]. step; [step|].
  step; [apply preserves_parse_dbt_ls_output|]. repeat step.
Qed.

Lemma preserves_run_dbt_ls p : preserves R (run_dbt_ls E p).
Proof.
  unfold run_dbt_ls. step; [step|]. step; [|apply preserves_parse_dbt_ls_output].
  destruct (should_use_dbt_ls_cache E) eqn:Euse; [now apply R_save | step].
Qed.

Lemma preserves_load_via_dbt_ls_without_cache :
  preserves R (load_via_dbt_ls_without_cache E).
Proof.
  unfold load_via_dbt_ls_without_cache. do 3 (step; [step|]).
  step; [destruct (profile_config E); step|].
  step; [apply preserves_run_dbt_ls|]. repeat step.
Qed.

Lemma preserves_load_via_dbt_ls : preserves R (load_via_dbt_ls E).
Proof.
  unfold load_via_dbt_ls. step; [apply preserves_load_via_dbt_ls_cache|].
  match goal with |- preserves _ (if ?c then _ else _) => destruct c end;
    [step | apply preserves_load_via_dbt_ls_without_cache].
Qed.

Lemma preserves_load_via_dbt_ls_file : preserves R (load_via_dbt_ls_file E).
Proof.
  unfold load_via_dbt_ls_file. step; [step|].
  destruct (dbt_ls_file E); [|step]. destruct (render_project_path E); [|step].
  step; [apply preserves_parse_dbt_ls_output|]. repeat step.
Qed.

Lemma preserves_select_into_filtered_nodes p d :
  preserves R (select_into_filtered_nodes E p d).
Proof.
  unfold select_into_filtered_nodes. do 2 (step; [step|]).
  match goal with
  | |- preserves _ (match ?x with Some _ => _ | None => _ end) => destruct x
  end; repeat step.
Qed.

Lemma preserves_custom_nodes rp ep models acc :
  preserves R (custom_nodes E rp ep models acc).
Proof.
  revert acc. induction models as [|[model_name model] models IH]; intros acc;
    cbn [custom_nodes]; [step|].
  step; [apply preserves_new_object | apply IH].
Qed.

Lemma preserves_load_via_custom_parser : preserves R (load_via_custom_parser E).
Proof.
  unfold load_via_custom_parser. step; [step|].
  destruct (selector E); [step|].
  destruct (render_project_path E); [|step].
  destruct (execution_project_path E); [|step].
  step; [step|]. step; [apply preserves_custom_nodes|].
  step; [apply preserves_new_dict|]. step; [step|].
  apply preserves_select_into_filtered_nodes.
Qed.

Lemma preserves_manifest_nodes p resources acc :
  preserves R (manifest_nodes p resources acc).
Proof.
  revert acc. induction resources as [|[uid node_dict] resources IH]; intros acc;
    cbn [manifest_nodes]; [step|].
  step; [step|]. step; [apply preserves_new_object | apply IH].
Qed.

Lemma preserves_load_from_dbt_manifest : preserves R (load_from_dbt_manifest E).
Proof.
  unfold load_from_dbt_manifest. step; [step|].
  destruct (selector E); [step|]. destruct (manifest E); [|step].
  destruct (execution_project_path E); [|step].
  do 2 (step; [step|]). step; [apply preserves_manifest_nodes|].
  step; [apply preserves_new_dict|]. step; [step|].
  apply preserves_select_into_filtered_nodes.
Qed.

Lemma preserves_update_node_dependency : preserves R update_node_dependency.
Proof.
  unfold update_node_dependency. apply preserves_modify. intros w. apply R_variables.
  generalize (dicts w (nodes w)). intros items. revert w.
  induction items as [|[k node] items IH]; intros w; cbn [visit_nodes]; [reflexivity|].
  destruct (is_test (objects w node)); [|apply IH]. rewrite IH.
  generalize (depends_on (objects w node)). intros ids. revert w.
  induction ids as [|id ids IHids]; intros w; cbn [mark_dependencies]; [reflexivity|].
  destruct (dict_get (dicts w (filtered_nodes w)) id); [|apply IHids].
  now rewrite IHids.
Qed.

Lemma preserves_load method mode : preserves R (load E method mode).
Proof.
  unfold load. step; [|apply preserves_update_node_dependency].
  destruct method; cbn [load_strategy].
  - destruct (is_manifest_available E); [apply preserves_load_from_dbt_manifest|].
    destruct mode; [|apply preserves_load_via_custom_parser].
    destruct (profile_config E); [|apply preserves_load_via_custom_parser].
    apply preserves_try_except;
      [apply preserves_load_via_dbt_ls | apply preserves_load_via_custom_parser].
  - apply preserves_load_via_custom_parser.
  - apply preserves_load_via_dbt_ls.
  - apply preserves_load_via_dbt_ls_file.
  - step; [apply preserves_load_via_dbt_ls_cache | step].
  - apply preserves_load_from_dbt_manifest.
Qed.

End preserves.

End FrameFacts.
Export FrameFacts.

(** ** What a load writes and records *)

Module OutcomeFacts.
Import Graph.

Lemma Variable_text_set_ne vars k value k' :
  k' <> k -> Variable_text (Variable_set vars k value) k' = Variable_text vars k'.
Proof.
  intros Hne. induction vars as [|v vars IH]; cbn [Variable_set Variable_text Cache.key].
  - apply str_eqb_neq in Hne. destruct (str_eqb k k') eqn:E; [|reflexivity].
    apply str_eqb_eq in E. apply str_eqb_neq in Hne. congruence.
  - destruct (str_eqb (Cache.key v) k) eqn:E; cbn [Variable_text Cache.key].
    + apply str_eqb_eq in E. rewrite E.
      destruct (str_eqb k k') eqn:E'; [|reflexivity].
      apply str_eqb_eq in E'. congruence.
    + now rewrite IH.
Qed.

(** The Variables other than the one of the cache are as they were. *)
Definition other_variables_kept (E : Env) (w w' : World) : Prop :=
  forall k, k <> dbt_ls_cache_key E ->
    Variable_text (airflow_variables w') k = Variable_text (airflow_variables w) k.

Definition variables_kept (w w' : World) : Prop :=
  airflow_variables w' = airflow_variables w.

Lemma save_dbt_ls_cache_other_variables E dbt_ls_output :
  preserves (other_variables_kept E) (save_dbt_ls_cache E dbt_ls_output).
Proof.
  intros w r w' H. unfold save_dbt_ls_cache in H.
  rewrite run_lift_bind in H. destruct (Utf8.encode dbt_ls_output); [|now injection H as _ <-].
  rewrite run_lift_bind in H.
  destruct (Utf8.decode _); [|now injection H as _ <-].
  rewrite run_lift_bind in H. destruct (current_version E); [|now injection H as _ <-].
  unfold modify in H. injection H as _ <-. intros k Hk. cbn [airflow_variables set_airflow_variables].
  now apply Variable_text_set_ne.
Qed.

(** X9.  Whatever the method and the outcome, a [load] leaves every
    Variable but the one of its cache as it was, and all of them when the
    cache is not in use: the settings disable it, or the graph has no
    cache identifier. *)
Theorem load_writes_only_its_variable E method mode w :
  (forall k, k <> dbt_ls_cache_key E ->
     Variable_text (airflow_variables (snd (load E method mode w))) k
     = Variable_text (airflow_variables w) k) /\
  (should_use_dbt_ls_cache E = false ->
   airflow_variables (snd (load E method mode w)) = airflow_variables w).
Proof.
  split.
  - apply (preserves_load (other_variables_kept E)) with (r := fst (load E method mode w))
      (E := E) (method := method) (mode := mode).
    + intros w0 k _. reflexivity.
    + intros w1 w2 w3 H12 H23 k Hk. now rewrite (H23 k Hk), (H12 k Hk).
    + intros w1 w2 Hv k _. now rewrite Hv.
    + intros _. apply save_dbt_ls_cache_other_variables.
    + now destruct (load E method mode w).
  - intros Hoff.
    apply (preserves_load variables_kept) with (r := fst (load E method mode w))
      (E := E) (method := method) (mode := mode).
    + intros w0. reflexivity.
    + intros w1 w2 w3 H12 H23. unfold variables_kept in *. congruence.
    + intros w1 w2 Hv. exact Hv.
    + intros Hon. congruence.
    + now destruct (load E method mode w).
Qed.

(** X10.  After a [load] that returns, [load_method] names the strategy
    that filled the graph: the one asked for, the cache or [dbt ls] for
    [DBT_LS], and for [AUTOMATIC] the manifest when there is one, else
    the cache, [dbt ls] or the custom parser.  A miss of [DBT_LS_CACHE]
    leaves it as it was. *)
Theorem load_records_its_strategy E method mode w w' :
  load E method mode w = (Ok tt, w') ->
  match method with
  | AUTOMATIC =>
      if is_manifest_available E then load_method w' = DBT_MANIFEST
      else load_method w' = DBT_LS_CACHE \/ load_method w' = DBT_LS \/
           load_method w' = CUSTOM
  | CUSTOM => load_method w' = CUSTOM
  | DBT_LS => load_method w' = DBT_LS_CACHE \/ load_method w' = DBT_LS
  | DBT_LS_FILE => load_method w' = DBT_LS_FILE
  | DBT_LS_CACHE =>
      load_method w' = DBT_LS_CACHE \/
      (load_via_dbt_ls_cache E w = (Ok false, w) /\ load_method w' = load_method w)
  | DBT_MANIFEST => load_method w' = DBT_MANIFEST
  end.
Proof.
  intros Hload. apply load_inv in Hload as (w1 & Hs & ->).
  rewrite (during_load_method _ _ _ (visit_nodes_during (node_entries w1) w1)).
  assert (Hls : forall w0 w2, load_via_dbt_ls E w0 = (Ok tt, w2) ->
                  load_method w2 = DBT_LS_CACHE \/ load_method w2 = DBT_LS).
  { intros w0 w2. unfold load_via_dbt_ls. rewrite run_bind.
    destruct (load_via_dbt_ls_cache E w0) as [[[|]|e] w3] eqn:Ehit; [| |discriminate].
    - intros [= <-]. left. now apply load_via_dbt_ls_cache_keyed in Ehit.
    - intros H. right. now apply load_via_dbt_ls_without_cache_keyed in H. }
  destruct method; cbn [load_strategy] in Hs.
  - destruct (is_manifest_available E).
    { now apply load_from_dbt_manifest_result in Hs. }
    assert (Hcustom : forall w0, load_via_custom_parser E w0 = (Ok tt, w1) ->
              load_method w1 = DBT_LS_CACHE \/ load_method w1 = DBT_LS \/
              load_method w1 = CUSTOM).
    { intros w0 H. right. right. now apply load_via_custom_parser_method in H. }
    destruct mode; [|eauto]. destruct (profile_config E); [|eauto].
    unfold try_except in Hs.
    destruct (load_via_dbt_ls E w) as [[[]|e] w2] eqn:Els.
    + injection Hs as <-. destruct (Hls _ _ Els); auto.
    + destruct (is_FileNotFoundError e); [eauto | discriminate Hs].
  - now apply load_via_custom_parser_method in Hs.
  - eauto.
  - now apply load_via_dbt_ls_file_keyed in Hs.
  - rewrite run_bind in Hs.
    destruct (load_via_dbt_ls_cache E w) as [[[|]|e] w2] eqn:Ehit; [| |discriminate Hs].
    + injection Hs as <-. left. now apply load_via_dbt_ls_cache_keyed in Ehit.
    + injection Hs as <-. right.
      apply load_via_dbt_ls_cache_miss in Ehit as Hsame. subst w2. auto.
  - now apply load_from_dbt_manifest_result in Hs.
Qed.

Lemma load_records_its_strategy_witness :
  load_method
    (snd (load (demo_env [] None [] []) DBT_LS LOCAL (new_graph [])))
  = DBT_LS_CACHE \/
  load_method
    (snd (load (demo_env [] None [] []) DBT_LS LOCAL (new_graph [])))
  = DBT_LS.
Proof.
  apply (load_records_its_strategy (demo_env [] None [] []) DBT_LS LOCAL (new_graph [])).
  vm_compute. reflexivity.
Defined.

(** X11.  [LoadMode.DBT_LS_CACHE] does not fall back: when the cache is
    not in use, or no Variable has its key, the [load] of a new graph
    returns and the graph is as empty as it was. *)
Theorem load_dbt_ls_cache_miss_leaves_graph_empty E mode vars :
  should_use_dbt_ls_cache E = false \/
  ((exists p, project_path E = Ok p) /\
   Variable_text vars (dbt_ls_cache_key E) = None) ->
  load E DBT_LS_CACHE mode (new_graph vars) = (Ok tt, new_graph vars).
Proof.
  intros H.
  assert (Hmiss : load_via_dbt_ls_cache E (new_graph vars) = (Ok false, new_graph vars)).
  { unfold load_via_dbt_ls_cache. destruct H as [-> | [[p Hp] Hnone]]; [reflexivity|].
    destruct (should_use_dbt_ls_cache E); [|reflexivity].
    rewrite run_lift_bind, Hp, run_read_bind, run_lift_bind.
    unfold get_dbt_ls_cache, Variable_get. cbn [airflow_variables new_graph].
    now rewrite Hnone. }
  unfold load. cbn [load_strategy]. rewrite !run_bind, Hmiss. reflexivity.
Qed.

Lemma load_dbt_ls_cache_miss_leaves_graph_empty_witness :
  load (demo_env [] None [] []) DBT_LS_CACHE LOCAL (new_graph [])
  = (Ok tt, new_graph []).
Proof.
  apply (load_dbt_ls_cache_miss_leaves_graph_empty (demo_env [] None [] []) LOCAL []).
  right. split; [eexists; reflexivity | reflexivity].
Defined.

End OutcomeFacts.
Export OutcomeFacts.

(** ** What the propagation changes *)

Module MarkFacts.
Import Graph.

(** X12.  [update_node_dependency] always returns.  It leaves [nodes]
    and [filtered_nodes] bound to the mappings they were bound to and
    every mapping but that of [filtered_nodes] as it was; of a node it
    changes nothing but [has_test], which it only sets; and the mapping
    of [filtered_nodes] keeps its keys and gains only test nodes of
    [nodes], each under its [unique_id]. *)
Theorem update_node_dependency_only_sets_flags w :
  exists w',
    update_node_dependency w = (Ok tt, w') /\
    nodes w' = nodes w /\ filtered_nodes w' = filtered_nodes w /\
    load_method w' = load_method w /\
    (forall r, data_le (objects w r) (objects w' r)) /\
    (forall d, d <> filtered_nodes w -> dicts w' d = dicts w d) /\
    (forall k, In k (keys (filtered_entries w)) -> In k (keys (filtered_entries w'))) /\
    (forall k v, In (k, v) (filtered_entries w') ->
       In (k, v) (filtered_entries w) \/
       exists k0, In (k0, v) (node_entries w) /\ is_test (objects w v) = true /\
                  unique_id (objects w v) = k).
Proof.
  exists (visit_nodes (node_entries w) w).
  destruct (visit_nodes_during (node_entries w) w).
  repeat (split; [first [reflexivity | assumption]|]). assumption.
Qed.

(** *** Only what a test depends on is marked *)

(** A node a test node of [items] names: the entry of [filtered_nodes]
    under one of its dependencies, or a test node of [items] whose
    [unique_id] is one. *)
Definition named_by_a_test (w0 : World) (items : list (str * nat)) (t : nat) : Prop :=
  exists k r id,
    In (k, r) items /\ is_test (objects w0 r) = true /\
    In id (depends_on (objects w0 r)) /\
    (dict_get (filtered_entries w0) id = Some t \/
     exists k0, In (k0, t) items /\ is_test (objects w0 t) = true /\
                unique_id (objects w0 t) = id).

Definition marks_sound (w0 : World) (items : list (str * nat)) (w : World) : Prop :=
  forall t, has_test (objects w t) = true ->
    has_test (objects w0 t) = true \/ named_by_a_test w0 items t.

Lemma set_has_test_other t w r : r <> t -> objects (set_has_test t w) r = objects w r.
Proof. intros Hne. unfold set_has_test. cbn [objects]. now apply update_ne. Qed.

Lemma mark_dependencies_sound w0 items k node ids w :
  In (k, node) items -> is_test (objects w0 node) = true ->
  (forall id, In id ids -> In id (depends_on (objects w0 node))) ->
  during w0 items w -> marks_sound w0 items w ->
  marks_sound w0 items (mark_dependencies node ids w).
Proof.
  intros Hin Htest. revert w.
  induction ids as [|id ids IH]; intros w Hids Hw Hs; cbn [mark_dependencies];
    [exact Hs|].
  assert (Hrest : forall id', In id' ids -> In id' (depends_on (objects w0 node)))
    by (intros; apply Hids; now right).
  destruct (dict_get (dicts w (filtered_nodes w)) id) as [target|] eqn:Eget;
    [|now apply IH].
  apply IH; [exact Hrest | |].
  - apply (during_dict_store w0 items (set_has_test target w) k node Hin Htest).
    now apply during_set_has_test.
  - intros t. unfold dict_store. cbn [objects].
    destruct (Nat.eq_dec t target) as [->|Hne].
    + intros _. right. exists k, node, id.
      split; [exact Hin|]. split; [exact Htest|]. split; [apply Hids; now left|].
      exact (during_get _ _ _ Hw id target Eget).
    + rewrite set_has_test_other by exact Hne. apply Hs.
Qed.

Lemma visit_nodes_sound_tail w0 items rest w :
  (forall kv, In kv rest -> In kv items) ->
  during w0 items w -> marks_sound w0 items w ->
  marks_sound w0 items (visit_nodes rest w).
Proof.
  revert w. induction rest as [|[k node] rest IH]; intros w Hsub Hw Hs;
    cbn [visit_nodes]; [exact Hs|].
  assert (Hrest : forall kv, In kv rest -> In kv items) by (intros; apply Hsub; now right).
  assert (Hin : In (k, node) items) by (apply Hsub; now left).
  pose proof (during_objects _ _ _ Hw node) as Hle.
  destruct (is_test (objects w node)) eqn:Et; [|now apply IH].
  rewrite (data_le_is_test _ _ Hle) in Et.
  apply IH; [exact Hrest | |].
  - now apply (mark_dependencies_during w0 items k node).
  - apply (mark_dependencies_sound w0 items k node); auto.
    intros id Hid. now rewrite (data_le_depends_on _ _ Hle) in Hid.
Qed.

(** X13.  [update_node_dependency] sets [has_test] only where a test
    asks for it: a node whose flag is set afterwards had it set before,
    or some test node of [nodes] names, among its dependencies, the key
    under which [filtered_nodes] held the node, or the [unique_id] of the
    node when it is itself a test node of [nodes]. *)
Theorem update_node_dependency_marks_only_tested w w' t :
  update_node_dependency w = (Ok tt, w') ->
  has_test (objects w' t) = true ->
  has_test (objects w t) = true \/
  exists k r id,
    In (k, r) (node_entries w) /\ is_test (objects w r) = true /\
    In id (depends_on (objects w r)) /\
    (dict_get (filtered_entries w) id = Some t \/
     exists k0, In (k0, t) (node_entries w) /\ is_test (objects w t) = true /\
                unique_id (objects w t) = id).
Proof.
  unfold update_node_dependency, modify. intros [= <-].
  apply (visit_nodes_sound_tail w (node_entries w) (node_entries w) w).
  - auto.
  - apply during_start.
  - intros t' H. now left.
Qed.

Lemma update_node_dependency_marks_only_tested_witness :
  exists k r id,
    In (k, r) (node_entries demo_selected) /\
    is_test (objects demo_selected r) = true /\
    In id (depends_on (objects demo_selected r)) /\
    dict_get (filtered_entries demo_selected) id = Some 0%nat.
Proof.
  destruct (update_node_dependency_marks_only_tested demo_selected
              (visit_nodes (node_entries demo_selected) demo_selected) 0)
    as [Hbefore|(k & r & id & Hin & Htest & Hid & [Hget|(k0 & Hin0 & Htest0 & _)])].
  - reflexivity.
  - vm_compute. reflexivity.
  - vm_compute in Hbefore. discriminate Hbefore.
  - exists k, r, id. repeat (split; [assumption|]). assumption.
  - vm_compute in Htest0. discriminate Htest0.
Defined.

End MarkFacts.
Export MarkFacts.

(** ** The listing of [dbt ls] *)

Module ListingFacts.
Import Graph Listing.

Lemma resolve_dict_set w acc k r :
  resolve w (dict_set acc k r) = dict_set (resolve w acc) k (objects w r).
Proof.
  unfold resolve. induction acc as [|[k0 r0] acc IH]; cbn [dict_set map fst snd];
    [reflexivity|].
  destruct (str_eqb k0 k); cbn [map fst snd]; [reflexivity | now rewrite IH].
Qed.

Lemma resolve_ext w w' acc :
  (forall k r, In (k, r) acc -> objects w' r = objects w r) ->
  resolve w' acc = resolve w acc.
Proof.
  intros H. unfold resolve. apply map_ext_in. intros [k r] Hin. cbn [fst snd].
  f_equal. now apply (H k r).
Qed.

(** Objects allocated so far. *)
Definition allocated (acc : dict nat) (w : World) : Prop :=
  forall k r, In (k, r) acc -> (r < next_object w)%nat.

Lemma parse_lines_refines E p lines acc w :
  allocated acc w ->
  match listed_nodes E p lines (resolve w acc) with
  | Ok listed =>
      exists acc' w', parse_lines E p lines acc w = (Ok acc', w') /\
                      resolve w' acc' = listed /\ allocated acc' w'
  | Raise e => exists w', parse_lines E p lines acc w = (Raise e, w')
  end.
Proof.
  revert acc w. induction lines as [|line lines IH]; intros acc w Hacc;
    cbn [listed_nodes parse_lines].
  - exists acc, w. auto.
  - destruct (parse_line E line) as [node_dict|]; [|now apply IH].
    rewrite run_lift_bind.
    destruct (node_of_ls_line p node_dict) as [node|e]; cbn [bind]; [|eauto].
    rewrite run_bind.
    destruct (new_object_extends node w) as ((_ & _ & _ & _ & _ & _ & Hold) & Hfst & Hobj & Hnext).
    destruct (new_object node w) as [r w1] eqn:Enew. cbn [fst snd] in *. subst r.
    assert (Hacc1 : allocated (dict_set acc (unique_id node) (next_object w)) w1).
    { intros k r Hin. rewrite Hnext. apply In_dict_set in Hin as [Hin|[_ ->]]; [|lia].
      specialize (Hacc k r Hin). lia. }
    specialize (IH _ _ Hacc1). rewrite resolve_dict_set, Hobj in IH.
    rewrite (resolve_ext w w1 acc) in IH; [exact IH|].
    intros k r Hin. apply Hold. now apply (Hacc k r).
Qed.

Lemma listed_nodes_entries E p lines :
  forall acc listed,
    listed_nodes E p lines acc = Ok listed ->
    (forall k n, In (k, n) acc -> unique_id n = k) ->
    forall k n, In (k, n) listed -> unique_id n = k.
Proof.
  induction lines as [|line lines IH]; intros acc listed; cbn [listed_nodes].
  - now intros [= <-].
  - destruct (parse_line E line) as [node_dict|]; [|apply IH].
    destruct (node_of_ls_line p node_dict) as [node|]; cbn [bind]; [|discriminate].
    intros H Hacc. apply (IH _ _ H).
    intros k n Hin. apply In_dict_set in Hin as [Hin|[-> ->]]; [now apply Hacc | reflexivity].
Qed.

Lemma parse_dbt_ls_output_refines E project_path ls_stdout w :
  match listed_nodes E project_path (split_on 10 ls_stdout) [] with
  | Ok listed =>
      exists d w',
        parse_dbt_ls_output E project_path ls_stdout w = (Ok d, w') /\
        d = next_dict w /\
        resolve w' (dicts w' d) = listed
  | Raise e =>
      exists w', parse_dbt_ls_output E project_path ls_stdout w = (Raise e, w')
  end.
Proof.
  pose proof (parse_lines_refines E project_path (split_on 10 ls_stdout) [] w) as H.
  cbn [resolve map] in H. unfold parse_dbt_ls_output. rewrite run_bind.
  destruct (listed_nodes E project_path (split_on 10 ls_stdout) []) as [listed|e] eqn:El.
  - destruct H as (acc' & w' & Hp & Hres & _); [intros k r []|].
    destruct (parse_lines_extends _ _ _ _ _ _ _ Hp (well_keyed_nil w))
      as [(_ & _ & _ & _ & Hnext & _) _].
    rewrite Hp. unfold new_dict. eexists _, _. split; [reflexivity|].
    split; [exact Hnext|].
    cbn [dicts]. rewrite update_eq. exact Hres.
  - destruct H as (w' & ->); [intros k r []|]. eauto.
Qed.

(** X14.  The nodes [parse_dbt_ls_output] returns are those of the text,
    whatever the state of the graph: the mapping it allocates holds, under
    the [unique_id] of each node, the node of the last line that lists
    it, and it raises exactly when reading the text as values does. *)
Theorem parse_dbt_ls_output_reads_the_text E project_path ls_stdout w :
  match listed_nodes E project_path (split_on 10 ls_stdout) [] with
  | Ok listed =>
      exists d w',
        parse_dbt_ls_output E project_path ls_stdout w = (Ok d, w') /\
        d = next_dict w /\
        resolve w' (dicts w' d) = listed /\
        forall k n, In (k, n) listed -> unique_id n = k
  | Raise e =>
      exists w', parse_dbt_ls_output E project_path ls_stdout w = (Raise e, w')
  end.
Proof.
  pose proof (parse_dbt_ls_output_refines E project_path ls_stdout w) as H.
  destruct (listed_nodes E project_path (split_on 10 ls_stdout) []) as [listed|e] eqn:El;
    [|exact H].
  destruct H as (d & w' & Hp & Hd & Hres). exists d, w'.
  repeat (split; [assumption|]).
  apply (listed_nodes_entries _ _ _ _ _ El). intros k n [].
Qed.

(** *** Lines that cannot be read *)

Lemma node_of_ls_line_requires p d f :
  In f [lit "unique_id"; lit "resource_type"; lit "original_file_path"] ->
  dict_get d f = None ->
  exists e, node_of_ls_line p (JObj d) = Raise e.
Proof.
  intros Hf Hnone. unfold node_of_ls_line. cbn [subscript].
  destruct (dict_get d (lit "unique_id")) as [uid|] eqn:Euid; cbn [of_option bind];
    [|eauto].
  destruct (as_str uid); cbn [bind]; [|eauto].
  destruct (dict_get d (lit "resource_type")) as [rt|] eqn:Ert; cbn [of_option bind];
    [|eauto].
  destruct (as_str rt); cbn [bind]; [|eauto].
  destruct (depends_on_nodes (JObj d)); cbn [bind]; [|eauto].
  destruct (dict_get d (lit "original_file_path")) as [ofp|] eqn:Eofp;
    cbn [of_option bind]; [|eauto].
  exfalso. destruct Hf as [<-|[<-|[<-|[]]]]; congruence.
Qed.

Lemma parse_lines_raises E p lines line node_dict e :
  In line lines -> parse_line E line = Some node_dict ->
  node_of_ls_line p node_dict = Raise e ->
  forall acc w, exists e' w', parse_lines E p lines acc w = (Raise e', w').
Proof.
  induction lines as [|line0 lines IH]; intros Hin Hline Hraise acc w; [destruct Hin|].
  cbn [parse_lines].
  destruct (parse_line E line0) as [node_dict0|] eqn:E0.
  - rewrite run_lift_bind.
    destruct (node_of_ls_line p node_dict0) as [n|e0] eqn:En; [|eauto].
    destruct Hin as [->|Hin]; [congruence|].
    rewrite run_bind. unfold new_object at 1. now apply IH.
  - destruct Hin as [->|Hin]; [congruence | now apply IH].
Qed.

(** X15.  Only a line that is not JSON is skipped by
    [parse_dbt_ls_output]: a line that is a JSON object without
    [unique_id], [resource_type] or [original_file_path] makes it raise.
    A text in which no line is JSON gives the empty mapping. *)
Theorem parse_dbt_ls_output_skips_only_non_json E project_path ls_stdout w :
  (forall line d f,
     In line (split_on 10 ls_stdout) -> parse_line E line = Some (JObj d) ->
     In f [lit "unique_id"; lit "resource_type"; lit "original_file_path"] ->
     dict_get d f = None ->
     exists e w', parse_dbt_ls_output E project_path ls_stdout w = (Raise e, w')) /\
  ((forall line, In line (split_on 10 ls_stdout) -> parse_line E line = None) ->
   exists w', parse_dbt_ls_output E project_path ls_stdout w = (Ok (next_dict w), w') /\
              dicts w' (next_dict w) = []).
Proof.
  split.
  - intros line d f Hin Hline Hf Hnone.
    destruct (node_of_ls_line_requires project_path d f Hf Hnone) as [e He].
    destruct (parse_lines_raises E project_path _ line (JObj d) e Hin Hline He [] w)
      as (e' & w' & Hraise).
    unfold parse_dbt_ls_output. rewrite run_bind, Hraise. eauto.
  - intros Hnone.
    assert (H : parse_lines E project_path (split_on 10 ls_stdout) [] w = (Ok [], w)).
    { induction (split_on 10 ls_stdout) as [|line lines IH]; cbn [parse_lines];
        [reflexivity|].
      rewrite (Hnone line) by now left. apply IH. intros l Hl. apply Hnone. now right. }
    unfold parse_dbt_ls_output. rewrite run_bind, H. unfold new_dict.
    eexists. split; [reflexivity|]. cbn [dicts]. apply update_eq.
Qed.

Lemma parse_dbt_ls_output_skips_only_non_json_witness :
  exists w',
    parse_dbt_ls_output (demo_env [] None [] []) (lit "/dbt/jaffle")
      (lit "Running dbt" ++ [10] ++ lit "Done") (new_graph [])
    = (Ok 2%nat, w') /\
    dicts w' 2 = [].
Proof.
  apply (proj2 (parse_dbt_ls_output_skips_only_non_json (demo_env [] None [] [])
                  (lit "/dbt/jaffle") (lit "Running dbt" ++ [10] ++ lit "Done")
                  (new_graph []))).
  intros line Hin. vm_compute in Hin. destruct Hin as [<-|[<-|[]]]; reflexivity.
Defined.

End ListingFacts.
Export ListingFacts.

(** ** The cache after a run of [dbt ls] *)

Module HitFacts.
Import Graph Listing.

Lemma dict_get_del_eq {V} (d : dict V) k : dict_get (dict_del d k) k = None.
Proof.
  induction d as [|[k0 v0] d IH]; cbn [dict_del dict_get]; [reflexivity|].
  destruct (str_eqb k0 k) eqn:E; [exact IH|]. cbn [dict_get]. now rewrite E.
Qed.

(** What [get_dbt_ls_cache] reads back of what [save_dbt_ls_cache]
    stored. *)
Lemma get_after_save E w dbt_ls_output w' :
  (forall data, zlib_decompress E (zlib_compress E data) = Some data) ->
  (forall data, zlib_compress E data <> []) ->
  dict_get (airflow_metadata E) (lit "dbt_ls_compressed") = None ->
  dict_get (airflow_metadata E) (lit "version") = None ->
  save_dbt_ls_cache E dbt_ls_output w = (Ok tt, w') ->
  exists version cache_dict,
    current_version E = Ok version /\
    get_dbt_ls_cache E (airflow_variables w') = Ok cache_dict /\
    dict_get cache_dict (lit "dbt_ls") = Some (JStr dbt_ls_output) /\
    dict_get cache_dict (lit "version") = Some (JStr version).
Proof.
  intros Hzlib Hnonempty Hmeta Hmetav. unfold save_dbt_ls_cache.
  rewrite run_lift_bind.
  destruct (Utf8.encode dbt_ls_output) as [utf8|] eqn:Hutf8; [|discriminate].
  pose proof (Base64Facts.b64encode_ascii (zlib_compress E utf8)) as Hascii.
  pose proof (Base64Facts.b64encode_nonempty _ (Hnonempty utf8)) as Hne.
  rewrite run_lift_bind, (Utf8Facts.decode_ascii _ Hascii), run_lift_bind.
  destruct (current_version E) as [version|]; [|discriminate].
  unfold modify. intros [= <-]. exists version. eexists. split; [reflexivity|].
  unfold set_airflow_variables, get_dbt_ls_cache. cbn [airflow_variables].
  rewrite Variable_get_set. unfold decompress_record.
  rewrite dict_get_update_None by exact Hmeta. cbn [dict_get].
  replace (str_eqb (lit "version") (lit "dbt_ls_compressed")) with false by reflexivity.
  rewrite str_eqb_refl.
  destruct (map Byte.to_N (Base64.b64encode (zlib_compress E utf8))) as [|c text] eqn:Etext.
  { destruct (Base64.b64encode (zlib_compress E utf8)); [congruence | discriminate]. }
  cbn [truthy]. rewrite <- Etext.
  rewrite (Utf8Facts.encode_ascii _ Hascii). cbn [bind].
  rewrite Base64Facts.b64decode_b64encode. cbn [bind].
  rewrite Hzlib. cbn [of_option bind].
  rewrite (Utf8Facts.decode_encode _ _ Hutf8). cbn [bind].
  split; [reflexivity|]. split; [apply dict_get_set_eq|].
  rewrite dict_get_set_ne by discriminate.
  rewrite dict_get_del_ne by discriminate.
  rewrite dict_get_update_None by exact Hmetav.
  cbn [dict_get]. now rewrite str_eqb_refl.
Qed.

(** X16.  After [load_via_dbt_ls_without_cache] has run [dbt ls] with the
    cache in use, [load_via_dbt_ls_cache] on a graph that sees the same
    Variables and the same project hits, and fills the graph with the
    nodes the run gave.  It is assumed of [zlib] that it decompresses
    what it compressed and never writes nothing, of the metadata that
    they have no [version] and no [dbt_ls_compressed] of their own, and
    of the listing that it is not empty. *)
Theorem load_via_dbt_ls_cache_hits_after_dbt_ls E w w1 w2 :
  should_use_dbt_ls_cache E = true ->
  (forall data, zlib_decompress E (zlib_compress E data) = Some data) ->
  (forall data, zlib_compress E data <> []) ->
  dict_get (airflow_metadata E) (lit "dbt_ls_compressed") = None ->
  dict_get (airflow_metadata E) (lit "version") = None ->
  dbt_ls_stdout E <> Ok [] ->
  load_via_dbt_ls_without_cache E w = (Ok tt, w1) ->
  airflow_variables w2 = airflow_variables w1 ->
  exists w3,
    load_via_dbt_ls_cache E w2 = (Ok true, w3) /\
    load_method w3 = DBT_LS_CACHE /\
    filtered_nodes w3 = nodes w3 /\
    resolve w3 (node_entries w3) = resolve w1 (node_entries w1).
Proof.
  intros Hon Hzlib Hnonempty Hmeta Hmetav Hout Hrun Hvars.
  unfold load_via_dbt_ls_without_cache in Hrun.
  rewrite run_modify_bind, run_lift_bind in Hrun.
  destruct (validate_dbt_command E); [|discriminate Hrun].
  rewrite run_lift_bind in Hrun.
  destruct (project_path E) as [p|] eqn:Hp; [|discriminate Hrun].
  destruct (profile_config E); [|discriminate Hrun].
  rewrite run_bind in Hrun. cbn [mret M_ret] in Hrun. rewrite run_bind in Hrun.
  destruct (run_dbt_ls E p (set_load_method DBT_LS w)) as [[d|e] wB] eqn:Erun;
    [|discriminate Hrun].
  rewrite !run_modify_bind in Hrun. unfold lift in Hrun.
  injection Hrun as _ <-.
  unfold run_dbt_ls in Erun. rewrite run_lift_bind in Erun.
  destruct (dbt_ls_stdout E) as [stdout|] eqn:Hstdout; [|discriminate Erun].
  rewrite run_bind, Hon in Erun.
  destruct (save_dbt_ls_cache E stdout (set_load_method DBT_LS w)) as [[[]|e] wS] eqn:Esave;
    [|discriminate Erun].
  destruct (get_after_save E _ _ _ Hzlib Hnonempty Hmeta Hmetav Esave)
    as (version & cache_dict & Hversion & Hget & Hls & Hv).
  assert (HvarsB : airflow_variables wB = airflow_variables wS).
  { apply (preserves_parse_dbt_ls_output variables_kept) in Erun; [exact Erun | | |].
    - intros w0. reflexivity.
    - intros wa wb wc Hab Hbc. unfold variables_kept in *. congruence.
    - intros wa wb H. exact H. }
  cbn [airflow_variables set_filtered_nodes set_nodes] in Hvars.
  pose proof (parse_dbt_ls_output_refines E p stdout wS) as HrefS.
  pose proof (parse_dbt_ls_output_refines E p stdout (set_load_method DBT_LS_CACHE w2))
    as Href2.
  destruct (listed_nodes E p (split_on 10 stdout) []) as [listed|e];
    [|destruct HrefS as (w' & HrefS); congruence].
  destruct HrefS as (dS & wS' & HparseS & _ & HlistedS).
  rewrite HparseS in Erun. injection Erun as -> ->.
  destruct Href2 as (d2 & w3 & Hparse2 & _ & Hlisted2).
  exists (set_filtered_nodes d2 (set_nodes d2 w3)).
  split; [|split; [|split]].
  - unfold load_via_dbt_ls_cache. rewrite Hon.
    rewrite run_lift_bind, Hp, run_read_bind, Hvars, HvarsB, run_lift_bind, Hget.
    destruct cache_dict as [|entry cache_dict]; [discriminate Hls|].
    rewrite run_lift_bind, Hversion, Hls, Hv.
    destruct stdout as [|c stdout]; [exfalso; now apply Hout|]. cbn [truthy].
    rewrite run_lift_bind. cbn [version_modified].
    unfold Cache.was_project_modified. rewrite str_eqb_refl. cbn [negb].
    rewrite run_lift_bind, run_modify_bind, run_lift_bind, run_bind, Hparse2.
    reflexivity.
  - cbn [load_method set_filtered_nodes set_nodes].
    now apply parse_dbt_ls_output_keyed in Hparse2 as [_ ->].
  - reflexivity.
  - unfold node_entries, resolve in *.
    cbn [objects dicts nodes set_filtered_nodes set_nodes]. congruence.
Qed.

(** The world in which the example ran [dbt ls]. *)
Lemma load_via_dbt_ls_cache_hits_after_dbt_ls_witness :
  exists w3,
    load_via_dbt_ls_cache (demo_env [] None [] [])
      (new_graph
         (airflow_variables
            (snd (load_via_dbt_ls_without_cache (demo_env [] None [] []) (new_graph [])))))
    = (Ok true, w3) /\
    map fst (resolve w3 (node_entries w3)) = [lit "model.jaffle.a"; lit "test.jaffle.t"].
Proof.
  destruct (load_via_dbt_ls_cache_hits_after_dbt_ls (demo_env [] None [] [])
              (new_graph [])
              (snd (load_via_dbt_ls_without_cache (demo_env [] None [] []) (new_graph [])))
              (new_graph
                 (airflow_variables
                    (snd (load_via_dbt_ls_without_cache (demo_env [] None [] [])
                            (new_graph []))))))
    as (w3 & Hhit & _ & _ & Hsame).
  - reflexivity.
  - intros data. reflexivity.
  - intros data. discriminate.
  - reflexivity.
  - reflexivity.
  - discriminate.
  - vm_compute. reflexivity.
  - vm_compute. reflexivity.
  - exists w3. split; [exact Hhit|]. rewrite Hsame. vm_compute. reflexivity.
Defined.

(** X17.  Whatever [get_dbt_ls_cache] returns has no [dbt_ls_compressed]:
    the payload is taken out of the record.  When the payload stored is a
    string that is not empty and the call returns, the record returned
    holds under [dbt_ls] the text that payload gives once decoded from
    base64, decompressed and decoded, and its other keys are those
    stored, with their values. *)
Theorem get_dbt_ls_cache_takes_out_the_payload E vars cache_dict :
  get_dbt_ls_cache E vars = Ok cache_dict ->
  dict_get cache_dict (lit "dbt_ls_compressed") = None /\
  (forall record text,
     Variable_get vars (dbt_ls_cache_key E) = Ok (JObj record) ->
     dict_get record (lit "dbt_ls_compressed") = Some (JStr text) -> text <> [] ->
     exists ascii encoded_data raw dbt_ls,
       Utf8.encode text = Ok ascii /\
       Base64.b64decode ascii = Ok encoded_data /\
       zlib_decompress E encoded_data = Some raw /\
       Utf8.decode raw = Ok dbt_ls /\
       dict_get cache_dict (lit "dbt_ls") = Some (JStr dbt_ls) /\
       forall k, k <> lit "dbt_ls" -> k <> lit "dbt_ls_compressed" ->
                 dict_get cache_dict k = dict_get record k).
Proof.
  unfold get_dbt_ls_cache.
  destruct (Variable_get vars (dbt_ls_cache_key E)) as [record|e].
  2:{ destruct e; try discriminate; intros [= <-]; split; try reflexivity;
        intros record text [=]. }
  unfold decompress_record.
  destruct record as [| | | |l|record]; try discriminate.
  destruct (dict_get record (lit "dbt_ls_compressed")) as [payload|] eqn:Epayload.
  2:{ intros [= <-]. split; [apply dict_get_del_eq|].
      intros r text [= <-] H. congruence. }
  destruct (truthy payload) eqn:Etruthy.
  2:{ intros [= <-]. split; [apply dict_get_del_eq|].
      intros r text [= <-] H Hne. rewrite Epayload in H. injection H as ->.
      destruct text; [congruence | discriminate]. }
  destruct payload as [| | |text| |]; try discriminate.
  destruct (Utf8.encode text) as [ascii|] eqn:Ea; cbn [bind]; [|discriminate].
  destruct (Base64.b64decode ascii) as [encoded_data|] eqn:Eb; cbn [bind]; [|discriminate].
  destruct (zlib_decompress E encoded_data) as [raw|] eqn:Ez; cbn [of_option bind];
    [|discriminate].
  destruct (Utf8.decode raw) as [dbt_ls|] eqn:Ed; cbn [bind]; [|discriminate].
  intros [= <-]. split.
  - rewrite dict_get_set_ne by discriminate. apply dict_get_del_eq.
  - intros r t [= <-] Ht _. rewrite Epayload in Ht. injection Ht as <-.
    exists ascii, encoded_data, raw, dbt_ls.
    repeat (split; [assumption|]). split; [apply dict_get_set_eq|].
    intros k Hk Hc. rewrite dict_get_set_ne by congruence.
    apply dict_get_del_ne. congruence.
Qed.

(** The Variables after the example stored a listing. *)
Lemma get_dbt_ls_cache_takes_out_the_payload_witness :
  exists record text cache_dict,
    Variable_get
      (airflow_variables
         (snd (save_dbt_ls_cache (demo_env [] None [] []) (lit "model a ") (new_graph []))))
      (dbt_ls_cache_key (demo_env [] None [] [])) = Ok (JObj record) /\
    dict_get record (lit "dbt_ls_compressed") = Some (JStr text) /\
    text <> [] /\
    get_dbt_ls_cache (demo_env [] None [] [])
      (airflow_variables
         (snd (save_dbt_ls_cache (demo_env [] None [] []) (lit "model a ") (new_graph []))))
    = Ok cache_dict /\
    dict_get cache_dict (lit "dbt_ls_compressed") = None /\
    dict_get cache_dict (lit "dbt_ls") = Some (JStr (lit "model a ")).
Proof.
  eexists _, _, _.
  split; [vm_compute; reflexivity|]. split; [vm_compute; reflexivity|].
  split; [discriminate|]. split; [vm_compute; reflexivity|].
  match goal with
  | |- dict_get ?cd _ = None /\ _ =>
      destruct (get_dbt_ls_cache_takes_out_the_payload (demo_env [] None [] [])
                  (airflow_variables
                     (snd (save_dbt_ls_cache (demo_env [] None [] []) (lit "model a ")
                             (new_graph []))))
                  cd) as [Hout Hin]
  end.
  - vm_compute. reflexivity.
  - split; [exact Hout|].
    match type of Hin with
    | forall record text, _ = Ok (JObj record) -> _ =>
        edestruct Hin as (ascii & encoded_data & raw & dbt_ls & _ & _ & _ & _ & Hls & _)
    end.
    + vm_compute. reflexivity.
    + vm_compute. reflexivity.
    + discriminate.
    + vm_compute. reflexivity.
Defined.

(** X18.  [run_dbt_ls] stores the listing before it parses it.  When
    the listing has a line that cannot be read as a node, the run raises
    with the listing already in the cache, and [load_via_dbt_ls_cache] on
    a graph that sees the same Variables and the same project then
    raises the same exception: it does not report a miss.  The
    assumptions on [zlib], the metadata and the listing are those of a
    hit. *)
Theorem unparsable_listing_is_cached E w p stdout e w2 :
  should_use_dbt_ls_cache E = true ->
  (forall data, zlib_decompress E (zlib_compress E data) = Some data) ->
  (forall data, zlib_compress E data <> []) ->
  dict_get (airflow_metadata E) (lit "dbt_ls_compressed") = None ->
  dict_get (airflow_metadata E) (lit "version") = None ->
  validate_dbt_command E = Ok tt -> profile_config E = true ->
  project_path E = Ok p ->
  dbt_ls_stdout E = Ok stdout -> stdout <> [] ->
  (exists wS, save_dbt_ls_cache E stdout (set_load_method DBT_LS w) = (Ok tt, wS)) ->
  listed_nodes E p (split_on 10 stdout) [] = Raise e ->
  exists w1,
    load_via_dbt_ls_without_cache E w = (Raise e, w1) /\
    (airflow_variables w2 = airflow_variables w1 ->
     exists w3, load_via_dbt_ls_cache E w2 = (Raise e, w3)).
Proof.
  intros Hon Hzlib Hnonempty Hmeta Hmetav Hvalid Hprofile Hp Hstdout Hout [wS Hsave]
    Hlisted.
  destruct (get_after_save E _ _ _ Hzlib Hnonempty Hmeta Hmetav Hsave)
    as (version & cache_dict & Hversion & Hget & Hls & Hv).
  pose proof (parse_dbt_ls_output_refines E p stdout wS) as HrefS.
  pose proof (parse_dbt_ls_output_refines E p stdout (set_load_method DBT_LS_CACHE w2))
    as Href2.
  rewrite Hlisted in HrefS, Href2.
  destruct HrefS as (w1 & HparseS). destruct Href2 as (w3 & Hparse2).
  assert (Hvars1 : airflow_variables w1 = airflow_variables wS).
  { apply (preserves_parse_dbt_ls_output variables_kept) in HparseS; [exact HparseS | | |].
    - intros w0. reflexivity.
    - intros wa wb wc Hab Hbc. unfold variables_kept in *. congruence.
    - intros wa wb H. exact H. }
  exists w1. split.
  - unfold load_via_dbt_ls_without_cache.
    rewrite run_modify_bind, run_lift_bind, Hvalid, run_lift_bind, Hp, Hprofile.
    rewrite run_bind. cbn [mret M_ret]. rewrite run_bind.
    unfold run_dbt_ls. rewrite run_lift_bind, Hstdout, run_bind, Hon, Hsave, HparseS.
    reflexivity.
  - intros Hvars. exists w3. unfold load_via_dbt_ls_cache. rewrite Hon.
    rewrite run_lift_bind, Hp, run_read_bind, Hvars, Hvars1, run_lift_bind, Hget.
    destruct cache_dict as [|entry cache_dict]; [discriminate Hls|].
    rewrite run_lift_bind, Hversion, Hls, Hv.
    destruct stdout as [|c stdout]; [congruence|]. cbn [truthy].
    rewrite run_lift_bind. cbn [version_modified].
    unfold Cache.was_project_modified. rewrite str_eqb_refl. cbn [negb].
    rewrite run_lift_bind, run_modify_bind, run_lift_bind, run_bind, Hparse2.
    reflexivity.
Qed.

Lemma unparsable_listing_is_cached_witness :
  exists w1,
    load_via_dbt_ls_without_cache json_log_env (new_graph []) = (Raise KeyError, w1) /\
    (airflow_variables
       (new_graph (airflow_variables
                     (snd (load_via_dbt_ls_without_cache json_log_env (new_graph [])))))
     = airflow_variables w1 ->
     exists w3,
       load_via_dbt_ls_cache json_log_env
         (new_graph (airflow_variables
                       (snd (load_via_dbt_ls_without_cache json_log_env (new_graph [])))))
       = (Raise KeyError, w3)).
Proof.
  apply (unparsable_listing_is_cached json_log_env (new_graph []) (lit "/dbt/jaffle")
           (lit "model a" ++ [32; 10] ++ lit "test t a") KeyError).
  - reflexivity.
  - intros data. reflexivity.
  - intros data. discriminate.
  - reflexivity.
  - reflexivity.
  - reflexivity.
  - reflexivity.
  - reflexivity.
  - reflexivity.
  - discriminate.
  - eexists. vm_compute. reflexivity.
  - vm_compute. reflexivity.
Defined.

End HitFacts.
Export HitFacts.
